(** * dispatch_ng: address model, interface manager and command line

    A shallow embedding of [network.c], [interface.c] and [main.c] of
    dispatch_ng, and the properties of the address formatter/parser, of
    the interface selection and its use counters, and of the argument
    loop of [main]. *)

From Stdlib Require Import ZArith List String Ascii Lia Bool.
From stdpp Require Import gmap.
Import ListNotations.
Local Open Scope Z_scope.

(** ** The C library the program calls

    [isspace], the ["%u"] conversion of [snprintf], the byte-order
    conversions and [inet_pton] belong to the C library, not to the
    program.  They are given here as executable functions; [inet_pton]
    follows the textbook (BIND/glibc) scanner character by character. *)

Module Libc.

Definition code (c : ascii) : Z := Z.of_N (N_of_ascii c).

Definition isspace (c : ascii) : bool :=
  let n := code c in (n =? 32) || ((9 <=? n) && (n <=? 13)).

Definition isdigit (c : ascii) : bool :=
  let n := code c in (48 <=? n) && (n <=? 57).

(** Value of a hexadecimal digit, [-1] for any other character. *)
Definition hex_digit_value (c : ascii) : Z :=
  let n := code c in
  if (48 <=? n) && (n <=? 57) then n - 48
  else if (97 <=? n) && (n <=? 102) then n - 97 + 10
  else if (65 <=? n) && (n <=? 70) then n - 65 + 10
  else -1.

Definition char_of (n : Z) : ascii := ascii_of_N (Z.to_N n).

(** [*str] and [str + 1] for a C string; the first is the terminator
    when the string is empty. *)
Definition first_char (s : string) : ascii :=
  match s with
  | EmptyString => "000"
  | String c _ => c
  end.

Definition string_tail (s : string) : string :=
  match s with
  | EmptyString => EmptyString
  | String _ s' => s'
  end.

(** ["%u"]: the decimal digits of an unsigned value, most significant
    first, no padding.  An [unsigned int] has at most ten digits. *)
Fixpoint fmt_u_aux (fuel : nat) (n : Z) (acc : string) : string :=
  match fuel with
  | O => acc
  | S fuel' =>
      let acc' := String (char_of (48 + n mod 10)) acc in
      if n / 10 =? 0 then acc' else fmt_u_aux fuel' (n / 10) acc'
  end.

Definition fmt_u (n : Z) : string := fmt_u_aux 10 n EmptyString.

(** [snprintf(buf, size, ...)] keeps at most [size - 1] characters. *)
Definition snprintf (size : Z) (text : string) : string :=
  substring 0 (Z.to_nat (size - 1)) text.

(** [strcat] *)
Definition strcat (dst src : string) : string := (dst ++ src)%string.

(** Byte order.  A 16-bit object in memory is two bytes; what the host
    reads from them depends on its endianness. *)
Definition bswap16 (x : Z) : Z := (x mod 256) * 256 + (x / 256) mod 256.

Definition htons (little_endian : bool) (x : Z) : Z :=
  let x16 := x mod 65536 in
  if little_endian then bswap16 x16 else x16.

Definition ntohs (little_endian : bool) (x : Z) : Z := htons little_endian x.

Definition load16 (little_endian : bool) (b0 b1 : Z) : Z :=
  if little_endian then b0 + 256 * b1 else 256 * b0 + b1.

(** Address families (Linux values). *)
Definition AF_LOCAL : Z := 1.
Definition AF_INET : Z := 2.
Definition AF_INET6 : Z := 10.
Definition PF_LOCAL : Z := 1.
Definition PF_INET : Z := 2.
Definition PF_INET6 : Z := 10.

(** [inet_pton(AF_INET, ...)]: [done] holds the octets already
    finished, [cur] is [*tp]. *)
Fixpoint inet_pton4_loop (src : string) (done : list Z) (cur : Z)
    (saw_digit : bool) (octets : Z) : option (list Z) :=
  match src with
  | EmptyString => if octets <? 4 then None else Some (done ++ [cur])
  | String ch src' =>
      if isdigit ch then
        let new := cur * 10 + (code ch - 48) in
        if saw_digit && (cur =? 0) then None
        else if 255 <? new then None
        else if saw_digit then inet_pton4_loop src' done new true octets
        else if 4 <? octets + 1 then None
        else inet_pton4_loop src' done new true (octets + 1)
      else if Ascii.eqb ch "." && saw_digit then
        if octets =? 4 then None
        else inet_pton4_loop src' (done ++ [cur]) 0 false octets
      else None
  end.

Definition inet_pton4 (src : string) : option (list Z) :=
  inet_pton4_loop src [] 0 false 0.

(** [inet_pton(AF_INET6, ...)].  [tmp] is the part of the 16-byte
    buffer written so far ([tp - tmp] bytes), [colonp] the offset where
    ["::"] was seen. *)
Definition zlen {A} (l : list A) : Z := Z.of_nat (length l).

Definition inet_pton6_finish (tmp : list Z) (colonp : option nat)
    (xdigits_seen val : Z) : option (list Z) :=
  let flushed :=
    if 0 <? xdigits_seen then
      if 16 <? zlen tmp + 2 then None
      else Some (tmp ++ [Z.land (Z.shiftr val 8) 255; Z.land val 255])
    else Some tmp in
  match flushed with
  | None => None
  | Some tmp' =>
      match colonp with
      | Some cp =>
          if zlen tmp' =? 16 then None
          else Some (firstn cp tmp'
                     ++ repeat 0 (16 - length tmp')%nat
                     ++ skipn cp tmp')
      | None => if zlen tmp' =? 16 then Some tmp' else None
      end
  end.

Fixpoint inet_pton6_loop (src curtok : string) (tmp : list Z)
    (colonp : option nat) (xdigits_seen val : Z) : option (list Z) :=
  match src with
  | EmptyString => inet_pton6_finish tmp colonp xdigits_seen val
  | String ch src' =>
      let digit := hex_digit_value ch in
      if 0 <=? digit then
        if xdigits_seen =? 4 then None
        else
          let val' := Z.lor (Z.shiftl val 4) digit in
          if 65535 <? val' then None
          else inet_pton6_loop src' curtok tmp colonp (xdigits_seen + 1) val'
      else if Ascii.eqb ch ":" then
        if xdigits_seen =? 0 then
          match colonp with
          | Some _ => None
          | None => inet_pton6_loop src' src' tmp (Some (length tmp)) 0 val
          end
        else
          match src' with
          | EmptyString => None
          | _ =>
              if 16 <? zlen tmp + 2 then None
              else inet_pton6_loop src' src'
                     (tmp ++ [Z.land (Z.shiftr val 8) 255; Z.land val 255])
                     colonp 0 0
          end
      else if Ascii.eqb ch "." && (zlen tmp + 4 <=? 16) then
        match inet_pton4 curtok with
        | Some quad => inet_pton6_finish (tmp ++ quad) colonp 0 val
        | None => None
        end
      else None
  end.

Definition inet_pton6 (src : string) : option (list Z) :=
  match src with
  | EmptyString => None
  | String c src' =>
      if Ascii.eqb c ":" then
        (* a leading colon must start a double colon *)
        match src' with
        | EmptyString => None
        | String c' _ =>
            if Ascii.eqb c' ":"
            then inet_pton6_loop src' src' [] None 0 0
            else None
        end
      else inet_pton6_loop src src [] None 0 0
  end.

(** [inet_pton]: [Some bytes] when the call returns 1. *)
Definition inet_pton (af : Z) (src : string) : option (list Z) :=
  if af =? AF_INET then inet_pton4 src
  else if af =? AF_INET6 then inet_pton6 src
  else None.

End Libc.

(** ** interface.c: outgoing addresses and their use counters *)

Module InterfaceC.

(** Modelled from the spec: [interface.h] is not among the sources; the
    family offsets follow "bit 0 = INET, bit 1 = INET6" and there are
    two families. *)
Definition INTERFACE_OFF_INET : nat := 0.
Definition INTERFACE_OFF_INET6 : nat := 1.
Definition INTERFACE_N_TYPES : nat := 2.

(** [use_count] is a [gint], which [g_atomic_int_inc] and
    [g_atomic_int_add] update in 32-bit two's complement. *)
Definition INT_MAX : Z := 2147483647.
Definition INT_MIN : Z := -2147483648.
Definition wrap_int (z : Z) : Z := (z + 2147483648) mod 4294967296 - 2147483648.

Record sockaddr := mk_sockaddr {
  sa_family : Z;
  sa_port : Z;
  sa_data : list Z
}.

(** An [Interface] object without its [next] link: the chain through
    [next] is kept as the list of the objects' addresses. *)
Record Interface := mk_Interface {
  addr : sockaddr;
  len : Z;
  use_count : Z
}.

Abbreviation ptr := positive (only parsing).

(** The manager's array [ifaces] (one chain per family) and the heap
    that holds the [Interface] objects the chains and the callers point
    to. *)
Record State := mk_State {
  ifaces : list (list ptr);
  heap : gmap positive Interface
}.

(** A call returns, aborts the process ([abort_with_error], [g_error]),
    or dereferences a pointer that is no object of the heap. *)
Inductive Outcome (A : Type) : Type :=
| Ok (a : A) (s : State)
| Abend (msg : string)
| Fault.
Arguments Ok {A} a s.
Arguments Abend {A} msg.
Arguments Fault {A}.

Definition M (A : Type) : Type := State -> Outcome A.

Definition ret {A} (a : A) : M A := fun s => Ok a s.

Definition bind {A B} (m : M A) (k : A -> M B) : M B :=
  fun s => match m s with
           | Ok a s' => k a s'
           | Abend msg => Abend msg
           | Fault => Fault
           end.

Declare Scope cmd_scope.
Delimit Scope cmd_scope with cmd.
Notation "x <- m ;; k" := (bind m (fun x => k))
  (at level 100, m at next level, right associativity) : cmd_scope.
Local Open Scope cmd_scope.

Definition abort {A} (msg : string) : M A := fun _ => Abend msg.

(** [*interface] *)
Definition load (p : ptr) : M Interface :=
  fun s => match heap s !! p with
           | Some i => Ok i s
           | None => Fault
           end.

(** [manager->ifaces[i]] *)
Definition chain (i : nat) : M (list ptr) :=
  fun s => Ok (nth i (ifaces s) []) s.

(** [g_atomic_int_add(&(interface->use_count), d)] *)
Definition atomic_int_add (p : ptr) (d : Z) : M unit :=
  fun s => match heap s !! p with
           | Some i =>
               Ok tt (mk_State (ifaces s)
                        (<[p := mk_Interface (addr i) (len i)
                                  (wrap_int (use_count i + d))]> (heap s)))
           | None => Fault
           end.

Definition find_namespace (a : sockaddr) : M Z :=
  if sa_family a =? Libc.AF_LOCAL then ret Libc.PF_LOCAL
  else if sa_family a =? Libc.AF_INET then ret Libc.PF_INET
  else if sa_family a =? Libc.AF_INET6 then ret Libc.PF_INET6
  else abort "Unknown address format".

(** [interface_open].  [socket_ret] and [bind_ret] are what the
    operating system answers to [socket()] and [bind()].  The function
    is declared to return an [int] but ends in a bare [return]: the
    descriptor is dropped and no value comes back. *)
Definition interface_open (socket_ret bind_ret : Z) (interface : ptr) : M unit :=
  i <- load interface ;;
  _ns <- find_namespace (addr i) ;;
  let fd := socket_ret in
  if fd <? 0 then abort "socket()"
  else if bind_ret <? 0 then abort "bind()"
  else atomic_int_add interface 1.

Definition interface_close (interface : ptr) : M unit :=
  atomic_int_add interface (-1).

(** [interface_manager_new]: every chain is [NULL]. *)
Definition interface_manager_new : State :=
  mk_State (repeat [] INTERFACE_N_TYPES) ∅.

(** The inner loop of [interface_manager_get] over one chain. *)
Fixpoint scan_chain (iters : list ptr) (selected : option ptr) : M (option ptr) :=
  match iters with
  | [] => ret selected
  | iter :: rest =>
      match selected with
      | None => scan_chain rest (Some iter)
      | Some sel =>
          it <- load iter ;;
          se <- load sel ;;
          if use_count it <? use_count se
          then scan_chain rest (Some iter)
          else scan_chain rest selected
      end
  end.

(** The outer loop: [n] families remain, [i] is the current one. *)
Fixpoint get_loop (n i : nat) (addr_type : Z) (selected : option ptr)
  : M (option ptr) :=
  match n with
  | O => ret selected
  | S n' =>
      if Z.land addr_type (Z.shiftl 1 (Z.of_nat i)) =? 0
      then get_loop n' (S i) addr_type selected
      else
        c <- chain i ;;
        selected' <- scan_chain c selected ;;
        get_loop n' (S i) addr_type selected'
  end.

Definition interface_manager_get (addr_type : Z) : M (option ptr) :=
  get_loop INTERFACE_N_TYPES 0 addr_type None.

(** The text before the first occurrence of [c], when there is one. *)
Fixpoint until_char (c : ascii) (s : string) : option string :=
  match s with
  | EmptyString => None
  | String a s' =>
      if Ascii.eqb a c then Some EmptyString
      else match until_char c s' with
           | Some t => Some (String a t)
           | None => None
           end
  end.

(** [g_malloc] returns an address that holds no object yet, and the new
    object is linked in front of its family's chain. *)
Definition link_new (addr_type : nat) (i : Interface) : M ptr :=
  fun s =>
    let p := fresh (dom (heap s)) in
    Ok p (mk_State
            (<[addr_type := p :: nth addr_type (ifaces s) []]> (ifaces s))
            (<[p := i]> (heap s))).

Definition interface_manager_add_from_string (desc : string) : M ptr :=
  if negb (Ascii.eqb (Libc.first_char desc) "[") then
    match Libc.inet_pton Libc.AF_INET desc with
    | None => abort "Invalid address"
    | Some ip =>
        link_new INTERFACE_OFF_INET
          (mk_Interface (mk_sockaddr Libc.AF_INET 0 ip) 16 0)
    end
  else
    (* the loop looks for the first ']' and cuts the copy there *)
    match until_char "]" desc with
    | None => abort "Invalid address"
    | Some desc_cp =>
        match Libc.inet_pton Libc.AF_INET6 (Libc.string_tail desc_cp) with
        | None => abort "Invalid address"
        | Some ip =>
            link_new INTERFACE_OFF_INET6
              (mk_Interface (mk_sockaddr Libc.AF_INET6 0 ip) 28 0)
        end
    end.

(** [g_free(iter)] releases the object at [iter]; releasing an address
    that holds no object is a fault. *)
Definition g_free (p : ptr) : M unit :=
  fun s => match heap s !! p with
           | Some _ => Ok tt (mk_State (ifaces s) (delete p (heap s)))
           | None => Fault
           end.

(** The inner loop of [interface_manager_free]: [iter->next] is read
    before [iter] is released. *)
Fixpoint free_chain (iters : list ptr) : M unit :=
  match iters with
  | [] => ret tt
  | iter :: rest =>
      _next <- load iter ;;
      _u <- g_free iter ;;
      free_chain rest
  end.

Fixpoint free_loop (n i : nat) : M unit :=
  match n with
  | O => ret tt
  | S n' =>
      c <- chain i ;;
      _u <- free_chain c ;;
      free_loop n' (S i)
  end.

(** [interface_manager_free]; [g_slice_free] releases the manager, after
    which no chain is left. *)
Definition interface_manager_free : M unit :=
  _u <- free_loop INTERFACE_N_TYPES 0 ;;
  fun s => Ok tt (mk_State [] (heap s)).

End InterfaceC.

(** ** network.c: host and socket addresses and their text forms *)

Module NetworkC.

Inductive NetworkType := NETWORK_INET | NETWORK_INET6.

Inductive Status := STATUS_SUCCESS | STATUS_FAILURE.

(** [ip] is the 16-byte array of the structure; an IPv4 address uses
    its first four bytes. *)
Record HostAddress := mk_HostAddress {
  type : NetworkType;
  ip : list Z
}.

(** [port] is the 16-bit value the host reads from the field, which
    holds the port in network byte order. *)
Record SocketAddress := mk_SocketAddress {
  host : HostAddress;
  port : Z
}.

(** Modelled from the spec: [ADDRESS_MAX_LEN] is declared in a header
    that is not among the sources; the buffer is "large enough for the
    longest IPv6-bracketed form plus [:65535]", 47 characters and the
    terminator. *)
Definition ADDRESS_MAX_LEN : Z := 48.

(** [memset(&addr, 0, sizeof(HostAddress))]; the all-zero tag is taken
    to be the first enumerator. *)
Definition zero_HostAddress : HostAddress :=
  mk_HostAddress NETWORK_INET (repeat 0 16%nat).

Definition zero_SocketAddress : SocketAddress :=
  mk_SocketAddress zero_HostAddress 0.

(** [inet_pton] stores its result at the start of [addr.ip]. *)
Definition store_bytes (bytes : list Z) (mem : list Z) : list Z :=
  bytes ++ skipn (length bytes) mem.

Fixpoint skip_spaces (str : string) : string :=
  match str with
  | String c str' => if Libc.isspace c then skip_spaces str' else str
  | EmptyString => str
  end.

Section Parsing.

(** [split_string] and [parse_long] live in a file that is not among
    the sources.  [split_string str delim] answers the copy it
    returns together with the suffix it stores through its third
    argument, [None] when it returns [NULL]; [parse_long] answers the
    number when it returns [STATUS_SUCCESS]. *)
Variable split_string : string -> ascii -> option (string * string).
Variable parse_long : string -> option Z.

(** The host's byte order. *)
Variable little_endian : bool.

(** The second component is the content of [*addr_out] when the call
    returns. *)
Definition host_address_from_str (str : string) (addr_out : HostAddress)
  : Status * HostAddress :=
  let addr := zero_HostAddress in
  let str := skip_spaces str in
  if Ascii.eqb (Libc.first_char str) "[" then
    match split_string (Libc.string_tail str) "]" with
    | None => (STATUS_FAILURE, addr_out)
    | Some (ip6_str, _) =>
        match Libc.inet_pton Libc.AF_INET6 ip6_str with
        | None => (STATUS_FAILURE, addr_out)
        | Some bytes =>
            let addr := mk_HostAddress NETWORK_INET6
                          (store_bytes bytes (ip addr)) in
            (STATUS_SUCCESS, addr)
        end
    end
  else
    match Libc.inet_pton Libc.AF_INET str with
    | None => (STATUS_FAILURE, addr_out)
    | Some bytes =>
        let addr := mk_HostAddress NETWORK_INET
                      (store_bytes bytes (ip addr)) in
        (STATUS_SUCCESS, addr)
    end.

(** [pun[i]], where [pun] views [addr.ip] as an array of 16-bit
    words. *)
Definition pun16 (ip : list Z) (i : Z) : Z :=
  Libc.load16 little_endian
    (nth (Z.to_nat (2 * i)) ip 0) (nth (Z.to_nat (2 * i + 1)) ip 0).

(** The state of the search for the largest sequence of zeroes. *)
Record zero_scan := mk_zero_scan {
  pos : Z; len : Z; maxpos : Z; maxlen : Z
}.

Definition scan_step (pun : Z -> Z) (i : Z) (st : zero_scan) : zero_scan :=
  if negb (pun i =? 0) then
    mk_zero_scan (-1) 0 (maxpos st) (maxlen st)
  else
    let st1 :=
      if pos st =? -1 then mk_zero_scan i 1 (maxpos st) (maxlen st)
      else mk_zero_scan (pos st) (len st + 1) (maxpos st) (maxlen st) in
    if maxlen st1 <? len st1
    then mk_zero_scan (pos st1) (len st1) (pos st1) (len st1)
    else st1.

Fixpoint scan_loop (n : nat) (pun : Z -> Z) (i : Z) (st : zero_scan)
  : zero_scan :=
  match n with
  | O => st
  | S n' => scan_loop n' pun (i + 1) (scan_step pun i st)
  end.

Definition lut (digit : Z) : ascii :=
  match digit with
  | 0 => "0" | 1 => "1" | 2 => "2" | 3 => "3"
  | 4 => "4" | 5 => "5" | 6 => "6" | 7 => "7"
  | 8 => "8" | 9 => "9" | 10 => "a" | 11 => "b"
  | 12 => "c" | 13 => "d" | 14 => "e" | _ => "f"
  end%char.

(** The loop [for (j = 3; j >= 0; j--)]; [n] is [j + 1], and the
    result is the text written from here followed by [rest]. *)
Fixpoint write_digits (n : nat) (part : Z) (mode : bool) (rest : string)
  : string :=
  match n with
  | O => rest
  | S j =>
      let digit := Z.land (Z.shiftr part (Z.of_nat j * 4)) 15 in
      let mode' := if negb (digit =? 0) || (Z.of_nat j =? 0)
                   then true else mode in
      if mode'
      then String (lut digit) (write_digits j part mode' rest)
      else write_digits j part mode' rest
  end.

(** The loop that writes the groups; [fuel] bounds the iterations
    (each one advances [i]), the result is the text written from group
    [i] on. *)
Fixpoint write_groups (fuel : nat) (pun : Z -> Z) (maxpos maxlen : Z)
    (i : Z) (colon_flag : bool) : string :=
  match fuel with
  | O => EmptyString
  | S fuel' =>
      if i <? 8 then
        if i =? maxpos then
          String ":" (String ":"
            (write_groups fuel' pun maxpos maxlen
               (i + (maxlen - 1) + 1) false))
        else
          let part := Libc.ntohs little_endian (pun i) in
          let tail :=
            write_digits 4 part false
              (write_groups fuel' pun maxpos maxlen (i + 1) true) in
          if colon_flag then String ":" tail else tail
      else EmptyString
  end.

Definition host_address_to_str (addr : HostAddress) : string :=
  match type addr with
  | NETWORK_INET =>
      let pun := fun i : nat => nth i (ip addr) 0 in
      Libc.snprintf ADDRESS_MAX_LEN
        (Libc.fmt_u (pun 0%nat) ++ "." ++ Libc.fmt_u (pun 1%nat) ++ "."
         ++ Libc.fmt_u (pun 2%nat) ++ "." ++ Libc.fmt_u (pun 3%nat))%string
  | NETWORK_INET6 =>
      let pun := pun16 (ip addr) in
      let st := scan_loop 8 pun 0 (mk_zero_scan (-1) 0 (-1) 0) in
      String "["
        (write_groups 8 pun (maxpos st) (maxlen st) 0 false ++ "]")%string
  end.

Definition socket_address_to_str (addr : SocketAddress) : string :=
  let buf :=
    Libc.snprintf 10
      (String ":" (Libc.fmt_u (Libc.ntohs little_endian (port addr)))) in
  Libc.strcat (host_address_to_str (host addr)) buf.

Definition socket_address_from_str (str : string) (addr_out : SocketAddress)
  : Status * SocketAddress :=
  match split_string str ":" with
  | None => (STATUS_FAILURE, addr_out)
  | Some (host_str, port_str) =>
      match port_str with
      | EmptyString => (STATUS_FAILURE, addr_out)
      | String _ _ =>
          match parse_long port_str with
          | None => (STATUS_FAILURE, addr_out)
          | Some port =>
              let addr := zero_SocketAddress in
              let addr := mk_SocketAddress (host addr)
                            (Libc.htons little_endian port) in
              let '(sub_res, h) := host_address_from_str host_str (host addr) in
              let addr := mk_SocketAddress h (NetworkC.port addr) in
              match sub_res with
              | STATUS_SUCCESS => (sub_res, addr)
              | STATUS_FAILURE => (sub_res, addr_out)
              end
          end
      end
  end.

End Parsing.

End NetworkC.

(** ** The helpers of network.c that are not among the sources *)

Module Helpers.

(** Modelled from the spec: [split_string] is defined in a file that is
    not among the sources.  The address text is split "on the last [:]
    outside brackets": the scan keeps the bracket depth, and the split
    point is the last occurrence of [delim] met at depth 0.  The result
    is the text before it and the text after it. *)
Definition next_depth (depth : nat) (c : ascii) : nat :=
  if Ascii.eqb c "[" then S depth
  else if Ascii.eqb c "]" then Nat.pred depth
  else depth.

Fixpoint split_at_last (delim : ascii) (depth : nat) (str : string)
  : option (string * string) :=
  match str with
  | EmptyString => None
  | String c str' =>
      match split_at_last delim (next_depth depth c) str' with
      | Some (pre, suf) => Some (String c pre, suf)
      | None =>
          if Ascii.eqb c delim && Nat.eqb depth 0
          then Some (EmptyString, str')
          else None
      end
  end.

(** The bracket depth after [str], and whether [delim] occurs outside
    brackets in [str]. *)
Fixpoint bracket_depth (depth : nat) (str : string) : nat :=
  match str with
  | EmptyString => depth
  | String c str' => bracket_depth (next_depth depth c) str'
  end.

Fixpoint delim_outside (delim : ascii) (depth : nat) (str : string) : bool :=
  match str with
  | EmptyString => false
  | String c str' =>
      (Ascii.eqb c delim && Nat.eqb depth 0)
      || delim_outside delim (next_depth depth c) str'
  end.

Definition split_string (str : string) (delim : ascii)
  : option (string * string) :=
  split_at_last delim 0 str.

(** Modelled from the spec: [parse_long] is defined in a file that is
    not among the sources.  The port is "parsed as decimal": a
    non-empty run of decimal digits is read as the number it writes,
    anything else is refused. *)
Fixpoint parse_digits (str : string) (acc : Z) : option Z :=
  match str with
  | EmptyString => Some acc
  | String c str' =>
      if Libc.isdigit c
      then parse_digits str' (acc * 10 + (Libc.code c - 48))
      else None
  end.

Definition parse_long (str : string) : option Z :=
  match str with
  | EmptyString => None
  | String _ _ => parse_digits str 0
  end.

End Helpers.

(** ** network.c: error classification and socket handles *)

Module SocketC.
Import NetworkC.

(** [errno] values and the [O_NONBLOCK] status flag (Linux values). *)
Definition EINTR : Z := 4.
Definition EBADF : Z := 9.
Definition EAGAIN : Z := 11.
Definition EWOULDBLOCK : Z := 11.
Definition ENOTSOCK : Z := 88.
Definition ENETUNREACH : Z := 101.
Definition ETIMEDOUT : Z := 110.
Definition ECONNREFUSED : Z := 111.
Definition EHOSTUNREACH : Z := 113.
Definition EALREADY : Z := 114.
Definition EINPROGRESS : Z := 115.
Definition O_NONBLOCK : Z := 2048.

(** [EAGAIN == EWOULDBLOCK] here, which selects the second definition
    of the macro. *)
Definition IO_TEMP_ERROR (e : Z) : bool := (e =? EAGAIN) || (e =? EINTR).

(** The error types are character arrays told apart by their
    addresses. *)
Inductive ErrorType :=
| socket_error_generic
| socket_error_invalid_socket
| socket_error_invalid_address
| socket_error_again
| socket_error_in_progress
| socket_error_already
| socket_error_timeout
| socket_error_network_unreachable
| socket_error_host_unreachable
| socket_error_connection_refused
| socket_error_unsupported_backend_feature.

Definition WA_CONNECT : Z := Z.shiftl 1 1.

(** The branch on [wa_flags] is compiled for Windows only. *)
Definition errno_to_error_type (errno_val : Z) (wa_flags : Z) : ErrorType :=
  if IO_TEMP_ERROR errno_val then socket_error_again
  else if (errno_val =? EBADF) || (errno_val =? ENOTSOCK)
  then socket_error_invalid_socket
  else if errno_val =? EINPROGRESS then socket_error_in_progress
  else if errno_val =? EALREADY then socket_error_already
  else if errno_val =? ETIMEDOUT then socket_error_timeout
  else if errno_val =? ENETUNREACH then socket_error_network_unreachable
  else if errno_val =? EHOSTUNREACH then socket_error_host_unreachable
  else if errno_val =? ECONNREFUSED then socket_error_connection_refused
  else socket_error_generic.

(** Modelled from the spec: [error_printf] is defined in a file that is
    not among the sources; an error is one "of a closed set of kinds
    plus a descriptive message", here the type the call is given and
    the text its format writes. *)
Record Error := mk_Error {
  error_type : ErrorType;
  error_message : string
}.

(** ["%d"] of an [int]. *)
Definition fmt_d (n : Z) : string :=
  if n <? 0 then String "-" (Libc.fmt_u (- n)) else Libc.fmt_u n.

Record SocketHandle := mk_SocketHandle { fd : Z }.

(** The native address: [data] is the union of the three socket address
    structures, of which the family, the port and the address bytes are
    kept; the other fields stay as [memset] leaves them and are never
    read. *)
Record NativeAddress := mk_NativeAddress {
  size : Z;
  pf : Z;
  data : InterfaceC.sockaddr
}.

Definition native_address_create (type : NetworkType) (ip : list Z) (port : Z)
  : NativeAddress :=
  match type with
  | NETWORK_INET =>
      mk_NativeAddress 16 Libc.PF_INET
        (InterfaceC.mk_sockaddr Libc.AF_INET port (firstn 4 ip))
  | NETWORK_INET6 =>
      mk_NativeAddress 28 Libc.PF_INET6
        (InterfaceC.mk_sockaddr Libc.AF_INET6 port (firstn 16 ip))
  end.

(** The calls made to the operating system, with the arguments that
    vary, and what a call answers: its return value, [errno] as it
    stands afterwards, and what it stores through its pointer
    arguments ([getsockopt]'s integer, [getsockname]'s address, the
    buffer of [recv]). *)
Inductive Syscall :=
| sys_socket (pf : Z)
| sys_setsockopt_reuseaddr (fd : Z)
| sys_bind (fd : Z) (addr : InterfaceC.sockaddr) (size : Z)
| sys_close (fd : Z)
| sys_listen (fd : Z)
| sys_connect (fd : Z) (addr : InterfaceC.sockaddr) (size : Z)
| sys_accept (fd : Z)
| sys_getsockopt_error (fd : Z)
| sys_getsockname (fd : Z)
| sys_fcntl_getfl (fd : Z)
| sys_fcntl_setfl (fd : Z) (flags : Z)
| sys_send (fd : Z) (bytes : list Z) (len : Z)
| sys_recv (fd : Z) (len : Z).

Record Answer := mk_Answer {
  a_ret : Z;
  a_errno : Z;
  a_value : Z;
  a_addr : InterfaceC.sockaddr;
  a_bytes : list Z
}.

(** A call with the value it returned and [errno] as it left it. *)
Record Event := mk_Event { call : Syscall; result : Z; left_errno : Z }.

(** The calls made so far with their results, and [errno]. *)
Record World := mk_World {
  trace : list Event;
  errno : Z
}.

Definition W (A : Type) : Type := World -> A * World.

Definition ret {A} (a : A) : W A := fun w => (a, w).

Definition bind {A B} (m : W A) (k : A -> W B) : W B :=
  fun w => let '(a, w') := m w in k a w'.

Declare Scope sys_scope.
Delimit Scope sys_scope with sys.
Notation "x <- m ;; k" := (bind m (fun x => k))
  (at level 100, m at next level, right associativity) : sys_scope.
Local Open Scope sys_scope.

(** The outcome of a function that may end the process. *)
Inductive Run (A : Type) : Type :=
| Done (a : A)
| Aborted (msg : string).
Arguments Done {A} a.
Arguments Aborted {A} msg.

Section Sockets.

(** The operating system answers a call in view of the calls made
    before it. *)
Variable os : list Event -> Syscall -> Answer.

(** [strerror] *)
Variable strerror : Z -> string.

Definition syscall (c : Syscall) : W Answer :=
  fun w =>
    let a := os (trace w) c in
    (a, mk_World (trace w ++ [mk_Event c (a_ret a) (a_errno a)]) (a_errno a)).

(** [nv_error] is [errno], read where the macro stands. *)
Definition nv_error : W Z := fun w => (errno w, w).

(** [str] is the text [fs_strdup_vprintf] writes for [fmt] and the
    arguments. *)
Definition error_from_errno (errno_val : Z) (wa_flags : Z) (str : string)
  : Error :=
  let errno_val_str := strerror errno_val in
  let type := errno_to_error_type errno_val wa_flags in
  mk_Error type (str ++ ": " ++ errno_val_str)%string.

(** [create_socket]; the second component is the content of [*fd_out]
    when the call returns. *)
Definition create_socket (type : NetworkType) (ip : list Z) (port : Z)
    (fd_out : Z) : W (option Error * Z) :=
  let native_addr := native_address_create type ip port in
  a <- syscall (sys_socket (pf native_addr)) ;;
  let fd := a_ret a in
  if fd <? 0 then
    e <- nv_error ;;
    ret (Some (error_from_errno e 0 "socket() failed"), fd_out)
  else
    a <- syscall (sys_setsockopt_reuseaddr fd) ;;
    if a_ret a <? 0 then
      _c <- syscall (sys_close fd) ;;
      e <- nv_error ;;
      ret (Some (error_from_errno e 0
                   "setsockopt(fd, SOL_SOCKET, SO_REUSEADDR, 1) failed"),
           fd_out)
    else
      a <- syscall (sys_bind fd (data native_addr) (size native_addr)) ;;
      if a_ret a <? 0 then
        _c <- syscall (sys_close fd) ;;
        e <- nv_error ;;
        ret (Some (error_from_errno e 0
                     ("bind(fd = " ++ fmt_d fd ++ ") failed")%string),
             fd_out)
      else ret (None, fd).

Definition socket_handle_close (hd : SocketHandle) : W unit :=
  _c <- syscall (sys_close (fd hd)) ;; ret tt.

Definition socket_handle_create_bound (addr : SocketAddress)
    (hd_out : SocketHandle) : W (option Error * SocketHandle) :=
  r <- create_socket (type (host addr)) (ip (host addr)) (port addr)
         (fd hd_out) ;;
  ret (fst r, mk_SocketHandle (snd r)).

(** The local [hd] is not initialised; [hd_uninit] is what it holds
    then. *)
Definition socket_handle_create_listener (hd_uninit : SocketHandle)
    (addr : SocketAddress) (hd_out : SocketHandle)
  : W (option Error * SocketHandle) :=
  r <- create_socket (type (host addr)) (ip (host addr)) (port addr)
         (fd hd_uninit) ;;
  let hd := mk_SocketHandle (snd r) in
  match fst r with
  | Some e => ret (Some e, hd_out)
  | None =>
      a <- syscall (sys_listen (fd hd)) ;;
      if a_ret a <? 0 then
        _c <- syscall (sys_close (fd hd)) ;;
        e <- nv_error ;;
        ret (Some (error_from_errno e 0
                     ("listen(fd = " ++ fmt_d (fd hd) ++ ") failed")%string),
             hd_out)
      else ret (None, hd)
  end.

Definition socket_handle_equal_with_native (hd : SocketHandle) (socket : Z)
  : Z :=
  if fd hd =? socket then 1 else 0.

Definition socket_handle_connect (hd : SocketHandle) (addr : SocketAddress)
  : W (option Error) :=
  let native_addr :=
    native_address_create (type (host addr)) (ip (host addr)) (port addr) in
  a <- syscall (sys_connect (fd hd) (data native_addr) (size native_addr)) ;;
  if a_ret a <? 0 then
    e <- nv_error ;;
    ret (Some (error_from_errno e WA_CONNECT
                 ("connect(fd = " ++ fmt_d (fd hd) ++ ") failed")%string))
  else ret None.

Definition socket_handle_accept (hd : SocketHandle) (hd_out : SocketHandle)
  : W (option Error * SocketHandle) :=
  a <- syscall (sys_accept (fd hd)) ;;
  let res_fd := a_ret a in
  if res_fd <? 0 then
    e <- nv_error ;;
    ret (Some (error_from_errno e 0
                 ("accept(fd = " ++ fmt_d (fd hd) ++ ") failed")%string),
         hd_out)
  else ret (None, mk_SocketHandle res_fd).

Definition socket_handle_get_status (hd : SocketHandle)
  : W (Run (option Error)) :=
  a <- syscall (sys_getsockopt_error (fd hd)) ;;
  if a_ret a <? 0 then ret (Aborted "getsockopt()")
  else
    let res := a_value a in
    if res =? 0 then ret (Done None)
    else ret (Done (Some (error_from_errno res 0
                            ("Error for fd=" ++ fmt_d (fd hd))%string))).

(** [memcpy] of the first bytes of the native address over those of
    [addr_out->host.ip]. *)
Definition socket_handle_getsockname (hd : SocketHandle)
    (addr_out : SocketAddress) : W (option Error * SocketAddress) :=
  a <- syscall (sys_getsockname (fd hd)) ;;
  if a_ret a <? 0 then
    e <- nv_error ;;
    ret (Some (error_from_errno e 0
                 ("getsockname(fd = " ++ fmt_d (fd hd) ++ ")")%string),
         addr_out)
  else
    let native_addr := a_addr a in
    if InterfaceC.sa_family native_addr =? Libc.AF_INET then
      ret (None,
           mk_SocketAddress
             (mk_HostAddress NETWORK_INET
                (store_bytes (firstn 4 (InterfaceC.sa_data native_addr))
                   (ip (host addr_out))))
             (InterfaceC.sa_port native_addr))
    else if InterfaceC.sa_family native_addr =? Libc.AF_INET6 then
      ret (None,
           mk_SocketAddress
             (mk_HostAddress NETWORK_INET6
                (store_bytes (firstn 16 (InterfaceC.sa_data native_addr))
                   (ip (host addr_out))))
             (InterfaceC.sa_port native_addr))
    else
      ret (Some (mk_Error socket_error_unsupported_backend_feature
                   ("Unsupported address family "
                    ++ fmt_d (InterfaceC.sa_family native_addr))%string),
           addr_out).

(** The bit operations on the [int] flags are those of [Z]: the flags
    are not negative here and no operation leaves the range. *)
Definition socket_handle_set_blocking (hd : SocketHandle) (val : Z)
  : W (option Error) :=
  a <- syscall (sys_fcntl_getfl (fd hd)) ;;
  let flags := a_ret a in
  if flags <? 0 then
    e <- nv_error ;;
    ret (Some (error_from_errno e 0
                 ("fcntl(" ++ fmt_d (fd hd) ++ ", F_GETFL)")%string))
  else
    let flags :=
      if negb (val =? 0) then Z.land flags (Z.lnot O_NONBLOCK)
      else Z.lor flags O_NONBLOCK in
    a <- syscall (sys_fcntl_setfl (fd hd) flags) ;;
    if negb (a_ret a =? 0) then
      e <- nv_error ;;
      ret (Some (error_from_errno e 0
                   ("fcntl(" ++ fmt_d (fd hd) ++ ", F_SETFL, "
                    ++ fmt_d flags ++ ")")%string))
    else ret None.

Definition socket_handle_write (hd : SocketHandle) (bytes : list Z) (len : Z)
    (out : Z) : W (option Error * Z) :=
  a <- syscall (sys_send (fd hd) bytes len) ;;
  let res := a_ret a in
  if res <? 0 then
    e <- nv_error ;;
    ret (Some (error_from_errno e 0
                 ("send(fd = " ++ fmt_d (fd hd) ++ ") failed")%string),
         out)
  else ret (None, res).

(** The third component is the buffer as [recv] leaves it. *)
Definition socket_handle_read (hd : SocketHandle) (len : Z) (out : Z)
  : W (option Error * Z * list Z) :=
  a <- syscall (sys_recv (fd hd) len) ;;
  let res := a_ret a in
  if res <? 0 then
    e <- nv_error ;;
    ret (Some (error_from_errno e 0
                 ("recv(fd = " ++ fmt_d (fd hd) ++ ") failed")%string),
         out, a_bytes a)
  else ret (None, res, a_bytes a).

End Sockets.

End SocketC.

(** ** main.c: the argument loop *)

Module MainC.

(** What [main] calls, in order.  The callees are defined in files that
    are not among the sources, so a run of [main] is the sequence
    of its calls and the way it ends; every call but [exit] and
    [abort_with_error] is taken to return. *)
Inductive Call :=
| utils_init
| connector_init
| printf (text : string)
| exit (status : Z)
| server_create (str : string)
| balancer_add_from_string (str : string)
| abort_with_error (msg : string)
| event_base_loop.

(** [exit(n)], the fatal [abort_with_error], or [return n] once the
    event loop has returned.

    Modelled from the spec: [abort_with_error] is defined in a file that
    is not among the sources; it reports a "fatal error" and the
    process ends with a "non-zero exit". *)
Inductive Ending :=
| Exited (status : Z)
| Aborted
| Returned (value : Z).

Definition usage : string :=
  ("Usage: $0 [--bind=addr:port] addr1@metric1 addr2@metric2 ..."
   ++ String "010" EmptyString)%string.

Fixpoint string_drop (n : nat) (s : string) : string :=
  match n, s with
  | S n', String _ s' => string_drop n' s'
  | _, _ => s
  end.

Definition is_help (arg : string) : bool :=
  String.eqb arg "-h" || String.eqb arg "--help".

(** [strncmp(arg, "--bind=", len) == 0] *)
Definition is_bind (arg : string) : bool := String.prefix "--bind=" arg.

(** The loop over [argv[1..]].  It answers the calls made and, unless
    the process exited inside the loop, the final [bound] and
    [iface_count] (an [int]). *)
Fixpoint read_arguments (args : list string) (bound : Z) (iface_count : Z)
  : list Call * option (Z * Z) :=
  match args with
  | [] => ([], Some (bound, iface_count))
  | arg :: rest =>
      if is_help arg then ([printf usage; exit 1], None)
      else if is_bind arg then
        let '(calls, r) := read_arguments rest 1 iface_count in
        (server_create (string_drop 7 arg) :: calls, r)
      else
        let '(calls, r) :=
          read_arguments rest bound (InterfaceC.wrap_int (iface_count + 1)) in
        (balancer_add_from_string arg :: calls, r)
  end.

Definition main (argv : list string) : list Call * Ending :=
  let '(calls, r) := read_arguments (tl argv) 0 0 in
  match r with
  | None => ([utils_init; connector_init] ++ calls, Exited 1)
  | Some (bound, iface_count) =>
      if iface_count =? 0 then
        ([utils_init; connector_init] ++ calls
         ++ [abort_with_error "No addresses to dispatch."], Aborted)
      else
        let listeners :=
          if bound =? 0
          then [server_create "127.0.0.1:1080"; server_create "[::1]:1080"]
          else [] in
        ([utils_init; connector_init] ++ calls ++ listeners
         ++ [event_base_loop], Returned 0)
  end.




End MainC.

(** ** Specification-level notions for the interface manager *)

Module InterfaceSpec.
Import InterfaceC.
Local Open Scope cmd_scope.

(** The family offset an object's own address announces. *)
Definition family_index (a : sockaddr) : option nat :=
  if sa_family a =? Libc.AF_INET then Some INTERFACE_OFF_INET
  else if sa_family a =? Libc.AF_INET6 then Some INTERFACE_OFF_INET6
  else None.

(** The test [addr_type & (1 << i)] of the selection loop. *)
Definition family_selected (addr_type : Z) (i : nat) : bool :=
  negb (Z.land addr_type (Z.shiftl 1 (Z.of_nat i)) =? 0).

(** Every member of chain [i] is an object of the heap whose address is
    of family [i]. *)
Definition manager_wf (s : State) : Prop :=
  forall i p, In p (nth i (ifaces s) []) ->
    exists o, heap s !! p = Some o /\ family_index (addr o) = Some i.

(** The interfaces the selection loop visits, in the order it visits
    them. *)
Definition candidates (s : State) (addr_type : Z) : list ptr :=
  flat_map
    (fun i => if family_selected addr_type i then nth i (ifaces s) [] else [])
    (seq 0 INTERFACE_N_TYPES).

Definition count_of (h : gmap positive Interface) (p : ptr) : Z :=
  match h !! p with
  | Some o => use_count o
  | None => 0
  end.

(** [r] is the first of [cands] among those of least use count. *)
Definition first_least (h : gmap positive Interface) (cands : list ptr)
    (r : option ptr) : Prop :=
  match r with
  | None => cands = []
  | Some p =>
      exists l1 l2, cands = l1 ++ p :: l2
        /\ (forall q, In q l1 -> count_of h p < count_of h q)
        /\ (forall q, In q l2 -> count_of h p <= count_of h q)
  end.

(** Configuration: the descriptions are added one after the other to a
    blank manager; the answer lists the new objects in insertion
    order. *)
Fixpoint add_all (descs : list string) : M (list ptr) :=
  match descs with
  | [] => ret []
  | d :: rest =>
      p <- interface_manager_add_from_string d ;;
      ps <- add_all rest ;;
      ret (p :: ps)
  end.

Definition configured (descs : list string) : Outcome (list ptr) :=
  add_all descs interface_manager_new.

(** The choice the specification words: among the eligible interfaces,
    taken in insertion order, the one of least [in_use / metric],
    compared by cross-multiplication, the first such one winning a
    tie. *)
Definition ratio_lt (h : gmap positive Interface) (metric : ptr -> Z)
    (p q : ptr) : bool :=
  count_of h p * metric q <? count_of h q * metric p.

Fixpoint least_ratio (h : gmap positive Interface) (metric : ptr -> Z)
    (inserted : list ptr) (best : option ptr) : option ptr :=
  match inserted with
  | [] => best
  | p :: rest =>
      match best with
      | None => least_ratio h metric rest (Some p)
      | Some b =>
          if ratio_lt h metric p b
          then least_ratio h metric rest (Some p)
          else least_ratio h metric rest best
      end
  end.

Definition eligible (s : State) (addr_type : Z) (p : ptr) : bool :=
  existsb (Pos.eqb p) (candidates s addr_type).

Definition spec_acquire_choice (s : State) (metric : ptr -> Z)
    (inserted : list ptr) (addr_type : Z) : option ptr :=
  least_ratio (heap s) metric (List.filter (eligible s addr_type) inserted) None.

(** Acquire is selection followed by [interface_open]; release is
    [interface_close]. *)
Definition acquire (socket_ret bind_ret : Z) (addr_type : Z) : M (option ptr) :=
  r <- interface_manager_get addr_type ;;
  match r with
  | Some p => (_u <- interface_open socket_ret bind_ret p ;; ret (Some p))
  | None => ret None
  end.

Definition release (p : ptr) : M unit := interface_close p.

(** A running system: the program state and, for every interface, the
    number of successful acquires not yet matched by a release. *)
Definition bump (live : ptr -> Z) (p : ptr) (d : Z) : ptr -> Z :=
  fun q => if Pos.eqb q p then live q + d else live q.

(** The states of a run: configuration from the command line, then
    acquires and releases of interfaces that are held.  [ps] lists the
    interfaces in insertion order. *)
Inductive reachable (ps : list ptr) : State -> (ptr -> Z) -> Prop :=
| reach_configured descs s :
    configured descs = Ok ps s ->
    reachable ps s (fun _ => 0)
| reach_acquire s live socket_ret bind_ret addr_type p s' :
    reachable ps s live ->
    acquire socket_ret bind_ret addr_type s = Ok (Some p) s' ->
    reachable ps s' (bump live p 1)
| reach_release s live p s' :
    reachable ps s live ->
    0 < live p ->
    release p s = Ok tt s' ->
    reachable ps s' (bump live p (-1)).

(** A run together with the descriptors the process holds.  [socket()]
    answers a descriptor that is not open at the time (an [int], so at
    most [INT_MAX]); [interface_open] keeps that descriptor in a local
    variable, neither stores nor returns nor closes it, and
    [interface_close] only decrements the counter: a descriptor opened
    by an acquire stays open for the rest of the run.  [held] are the
    descriptors the process holds when the first acquire is made, of
    which there is at least one: [main] creates its listeners before
    it enters the event loop.  [reachable] above is this relation
    without the descriptors; it takes any answer of [socket()] at each
    step and so holds of every run described here and of more. *)
Inductive tracked (ps : list ptr) : State -> (ptr -> Z) -> gset Z -> Prop :=
| tracked_configured descs s held fd0 :
    configured descs = Ok ps s ->
    fd0 ∈ held ->
    (forall fd, fd ∈ held -> 0 <= fd <= INT_MAX) ->
    tracked ps s (fun _ => 0) held
| tracked_acquire s live open socket_ret bind_ret addr_type p s' :
    tracked ps s live open ->
    socket_ret ∉ open ->
    socket_ret <= INT_MAX ->
    acquire socket_ret bind_ret addr_type s = Ok (Some p) s' ->
    tracked ps s' (bump live p 1) ({[socket_ret]} ∪ open)
| tracked_release s live open p s' :
    tracked ps s live open ->
    0 < live p ->
    release p s = Ok tt s' ->
    tracked ps s' (bump live p (-1)) open.

(** The family of the object at [p]. *)
Definition family_of (h : gmap positive Interface) (p : ptr) : option nat :=
  match h !! p with
  | Some o => family_index (addr o)
  | None => None
  end.

Definition in_family (h : gmap positive Interface) (i : nat) (p : ptr) : bool :=
  match family_of h p with
  | Some j => Nat.eqb j i
  | None => false
  end.

(** The order of the scan in terms of the insertion order [ps]: the
    selected families by increasing offset, and inside a family the
    most recently inserted interface first. *)
Definition scan_order (h : gmap positive Interface) (ps : list ptr)
    (addr_type : Z) : list ptr :=
  flat_map
    (fun i => if Z.testbit addr_type (Z.of_nat i)
              then rev (List.filter (in_family h i) ps) else [])
    (seq 0 INTERFACE_N_TYPES).

(** What configuration establishes. *)
Definition configured_inv (s : State) : Prop :=
  length (ifaces s) = INTERFACE_N_TYPES
  /\ manager_wf s
  /\ forall p o, heap s !! p = Some o -> use_count o = 0.

(** What every state of a run satisfies. *)
Definition run_inv (ps : list ptr) (s : State) (live : ptr -> Z) : Prop :=
  manager_wf s
  /\ (forall i, (i < INTERFACE_N_TYPES)%nat ->
        nth i (ifaces s) [] = rev (List.filter (in_family (heap s) i) ps))
  /\ (forall p o, heap s !! p = Some o ->
        0 <= live p /\ use_count o = wrap_int (live p)).

(** Concrete managers used to run the model: two IPv4 interfaces added
    in this order, the state they give, and a manager whose only
    interface has the largest use count an [int] holds. *)
Definition two_inet_descs : list string := ["10.0.0.1"; "10.0.0.2"]%string.

Definition inet_object (last_octet use : Z) : Interface :=
  mk_Interface (mk_sockaddr Libc.AF_INET 0 [10; 0; 0; last_octet]) 16 use.

Definition two_inet_state (use1 use2 : Z) : State :=
  mk_State [[2%positive; 1%positive]; []]
    (<[2%positive := inet_object 2 use2]>
       (<[1%positive := inet_object 1 use1]> ∅)).


End InterfaceSpec.

(** ** Specification-level notions for the address model *)

Module NetworkSpec.
Import NetworkC.

Definition byte_ok (b : Z) : Prop := 0 <= b < 256.

(** A well-formed host address has its 16 bytes, and an IPv4 address
    has zeroes beyond its four octets, as [host_address_from_str]
    leaves them. *)
Definition well_formed_host (a : HostAddress) : Prop :=
  length (ip a) = 16%nat
  /\ Forall byte_ok (ip a)
  /\ (type a = NETWORK_INET -> skipn 4 (ip a) = repeat 0 12%nat).

Definition well_formed_socket (a : SocketAddress) : Prop :=
  well_formed_host (host a) /\ 0 <= port a < 65536.

(** The port number an address denotes: its [port] field, which is in
    network byte order, as the host reads it after [ntohs]. *)
Definition port_number (little_endian : bool) (a : SocketAddress) : Z :=
  Libc.ntohs little_endian (port a).

(** The eight 16-bit groups of an IPv6 address, each from its two
    bytes in network byte order. *)
Definition group_values (ip : list Z) : list Z :=
  map (fun i => nth (2 * i) ip 0 * 256 + nth (2 * i + 1) ip 0) (seq 0 8).

(** Lowercase hexadecimal without leading zeros. *)
Definition hex_digit_char (d : Z) : ascii :=
  match String.get (Z.to_nat d) "0123456789abcdef" with
  | Some c => c
  | None => "0"
  end.

(** The four hexadecimal digits of a group, most significant first. *)
Definition nibble (v j : Z) : Z := (v / 16 ^ j) mod 16.

Definition hex_digits4 (v : Z) : list Z :=
  [nibble v 3; nibble v 2; nibble v 1; nibble v 0].

Fixpoint drop_leading_zeros (l : list Z) : list Z :=
  match l with
  | d :: (_ :: _) as rest => if d =? 0 then drop_leading_zeros rest else l
  | _ => l
  end.

Definition hex_of (v : Z) : string :=
  string_of_list_ascii (map hex_digit_char (drop_leading_zeros (hex_digits4 v))).

(** Groups [p .. p + l - 1] are a run of all-zero groups of length
    [l >= 1]. *)
Definition is_zero_run (gs : list Z) (p l : nat) : Prop :=
  (1 <= l)%nat /\ (p + l <= length gs)%nat
  /\ forall i, (p <= i < p + l)%nat -> nth i gs 1 = 0.

(** The longest such run, the earliest one among the longest. *)
Definition longest_earliest_run (gs : list Z) (p l : nat) : Prop :=
  is_zero_run gs p l
  /\ forall p' l', is_zero_run gs p' l' ->
       (l' < l)%nat \/ (l' = l /\ (p <= p')%nat).

Definition colon_joined (gs : list Z) : string :=
  String.concat ":" (map hex_of gs).

(** The bracketed text, with ["::"] in place of the run when there is
    one. *)
Definition ipv6_text (gs : list Z) (run : option (nat * nat)) : string :=
  match run with
  | None => ("[" ++ colon_joined gs ++ "]")%string
  | Some (p, l) =>
      ("[" ++ colon_joined (firstn p gs) ++ "::"
       ++ colon_joined (skipn (p + l) gs) ++ "]")%string
  end.

Definition dotted_quad (ip : list Z) : string :=
  String.concat "." (map Libc.fmt_u (firstn 4 ip)).

(** [text] is the form the specification gives for [a]. *)
Definition canonical_host_text (a : HostAddress) (text : string) : Prop :=
  match type a with
  | NETWORK_INET => text = dotted_quad (ip a)
  | NETWORK_INET6 =>
      let gs := group_values (ip a) in
      (exists p l, longest_earliest_run gs p l
                   /\ text = ipv6_text gs (Some (p, l)))
      \/ ((forall i, (i < 8)%nat -> nth i gs 0 <> 0)
          /\ text = ipv6_text gs None)
  end.

(** *** Exhaustive checks

    Properties of a hexadecimal digit, of a byte or of the pattern of
    zero groups are settled by running a boolean test on every case. *)
Fixpoint all_from (fuel : nat) (i : Z) (test : Z -> bool) : bool :=
  match fuel with
  | O => true
  | S fuel' => test i && all_from fuel' (i + 1) test
  end.

Fixpoint all_flags (n : nat) : list (list bool) :=
  match n with
  | O => [[]]
  | S n' => flat_map (fun zs => [true :: zs; false :: zs]) (all_flags n')
  end.

(** The zero pattern of the groups as the scan sees it: [pun[i]] is
    zero exactly where the flag is set. *)
Definition flags_pun (zs : list bool) (i : Z) : Z :=
  if nth (Z.to_nat i) zs false then 0 else 1.

Definition zero_run_atb (zs : list bool) (p l : nat) : bool :=
  Nat.leb 1 l && Nat.leb (p + l) (length zs)
  && forallb (fun i => nth i zs false) (seq p l).

Definition run_candidates : list (nat * nat) :=
  list_prod (seq 0 8) (seq 1 8).

Definition scan_result_ok (zs : list bool) : bool :=
  let st := scan_loop 8 (flags_pun zs) 0 (mk_zero_scan (-1) 0 (-1) 0) in
  if maxpos st =? -1 then (maxlen st =? 0) && forallb negb zs
  else
    let p := Z.to_nat (maxpos st) in
    let l := Z.to_nat (maxlen st) in
    (0 <=? maxpos st) && (0 <=? maxlen st)
    && zero_run_atb zs p l
    && forallb
         (fun r => implb (zero_run_atb zs (fst r) (snd r))
                     (Nat.ltb (snd r) l
                      || (Nat.eqb (snd r) l && Nat.leb p (fst r))))
         run_candidates.

(** Every character of a string passes a test. *)
Fixpoint all_chars (test : ascii -> bool) (s : string) : bool :=
  match s with
  | EmptyString => true
  | String c s' => test c && all_chars test s'
  end.

(** The run of hexadecimal digits at the head of [inet_pton6_loop]'s
    input, read as the loop reads it: the digits seen and the value, or
    [None] where the loop would refuse. *)
Fixpoint scan_xdigits (s : string) (xdigits_seen val : Z) : option (Z * Z) :=
  match s with
  | EmptyString => Some (xdigits_seen, val)
  | String ch s' =>
      let digit := Libc.hex_digit_value ch in
      if 0 <=? digit then
        if xdigits_seen =? 4 then None
        else
          let val' := Z.lor (Z.shiftl val 4) digit in
          if 65535 <? val' then None
          else scan_xdigits s' (xdigits_seen + 1) val'
      else None
  end.

(** The same for the decimal digits of one octet in
    [inet_pton4_loop]. *)
Fixpoint scan_octet (s : string) (cur : Z) (saw_digit : bool) : option Z :=
  match s with
  | EmptyString => if saw_digit then Some cur else None
  | String ch s' =>
      if Libc.isdigit ch then
        let new := cur * 10 + (Libc.code ch - 48) in
        if saw_digit && (cur =? 0) then None
        else if 255 <? new then None
        else scan_octet s' new true
      else None
  end.

Definition is_xdigit (c : ascii) : bool := 0 <=? Libc.hex_digit_value c.

(** What is checked of every hexadecimal digit [d]: the table of
    [host_address_to_str] gives its lowercase character, which
    [inet_pton6_loop] reads back as [d]. *)
Definition nibble_ok (d : Z) : bool :=
  Ascii.eqb (lut d) (hex_digit_char d)
  && (Libc.hex_digit_value (hex_digit_char d) =? d).

(** What is checked of every byte [b]: its decimal text is at most
    three digits that [inet_pton4_loop] reads back. *)
Definition octet_ok (b : Z) : bool :=
  match scan_octet (Libc.fmt_u b) 0 false with
  | Some b' => b' =? b
  | None => false
  end
  && all_chars Libc.isdigit (Libc.fmt_u b)
  && Nat.leb (String.length (Libc.fmt_u b)) 3.

(** The zero pattern of a list of groups. *)
Definition zero_flags (gs : list Z) : list bool := map (fun g => g =? 0) gs.

(** The groups of [l] joined by colons, after a colon when [flag] is
    set and there is something to write. *)
Definition sep_joined (flag : bool) (l : list Z) : string :=
  match l with
  | [] => EmptyString
  | _ :: _ => ((if flag then ":" else EmptyString) ++ colon_joined l)%string
  end.

(** The two bytes [inet_pton6_loop] stores for a group. *)
Definition group_bytes (g : Z) : list Z :=
  [Z.land (Z.shiftr g 8) 255; Z.land g 255].

Definition bytes_of (gs : list Z) : list Z := flat_map group_bytes gs.

(** Characters that are no bracket, and the characters of the text of
    an IPv4 and of an IPv6 address. *)
Definition not_bracket (c : ascii) : bool :=
  negb (Ascii.eqb c "[") && negb (Ascii.eqb c "]").

Definition digit_or_dot (c : ascii) : bool :=
  Libc.isdigit c || Ascii.eqb c ".".

Definition xdigit_or_colon (c : ascii) : bool :=
  is_xdigit c || Ascii.eqb c ":".

(** The body of the IPv6 text: what stands between the brackets. *)
Definition ipv6_body (gs : list Z) (run : option (nat * nat)) : string :=
  match run with
  | Some (p, l) =>
      (colon_joined (firstn p gs) ++ "::"
       ++ colon_joined (skipn (p + l) gs))%string
  | None => colon_joined gs
  end.

(** Addresses used to run the model. *)
Definition sample_inet6 : HostAddress :=
  mk_HostAddress NETWORK_INET6 [0; 1; 0; 0; 0; 0; 0; 3; 0; 0; 0; 0; 0; 6; 0; 7].

Definition sample_inet : HostAddress :=
  mk_HostAddress NETWORK_INET ([127; 0; 0; 1] ++ repeat 0 12%nat).

Definition loopback6_1080 (little_endian : bool) : SocketAddress :=
  mk_SocketAddress
    (mk_HostAddress NETWORK_INET6 (repeat 0 15%nat ++ [1]))
    (Libc.htons little_endian 1080).

End NetworkSpec.

(** ** Specification-level notions for the manager's heap and its
    runs of acquisitions, for the argument loop and for descriptors *)

Module ManagerSpec.
Import InterfaceC InterfaceSpec.

(** The use counts of [cands] differ by at most one. *)
Definition balanced (h : gmap positive Interface) (cands : list ptr) : Prop :=
  forall q1 q2, In q1 cands -> In q2 cands -> count_of h q1 <= count_of h q2 + 1.

(** [n] successful acquisitions in a row for the same family mask,
    none of them released. *)
Inductive acquire_run (addr_type : Z) : nat -> State -> State -> Prop :=
| run_nil s : acquire_run addr_type 0 s s
| run_snoc n s s1 socket_ret bind_ret p s2 :
    acquire_run addr_type n s s1 ->
    acquire socket_ret bind_ret addr_type s1 = Ok (Some p) s2 ->
    acquire_run addr_type (S n) s s2.

(** The heap holds the interfaces of [ps], each once, and each of a
    family the manager knows. *)
Definition heap_listed (ps : list ptr) (s : State) : Prop :=
  List.NoDup ps
  /\ (forall p, In p ps <-> is_Some (heap s !! p))
  /\ forall p o, heap s !! p = Some o ->
       exists i, family_index (addr o) = Some i.

(** The heap once the objects of [l] are released. *)
Definition released (h : gmap positive Interface) (l : list ptr)
  : gmap positive Interface :=
  fold_left (fun h p => delete p h) l h.

(** The state used to run the model after ["[::1]"] is added to it. *)
Definition with_loopback6 : State :=
  mk_State [[2%positive; 1%positive]; [3%positive]]
    (<[3%positive := mk_Interface
         (mk_sockaddr Libc.AF_INET6 0 (repeat 0 15%nat ++ [1])) 28 0]>
       (heap (two_inet_state 0 0))).

End ManagerSpec.

Module MainSpec.
Import MainC.



End MainSpec.

Module SocketSpec.
Import SocketC.

(** The descriptors a sequence of calls leaves open, after [open]:
    [socket] and [accept] open the descriptor they return, [close]
    releases its argument. *)
Fixpoint open_after (evs : list Event) (open : list Z) : list Z :=
  match evs with
  | [] => open
  | ev :: rest =>
      match call ev with
      | sys_socket _ | sys_accept _ =>
          open_after rest
            (if result ev <? 0 then open else open ++ [result ev])
      | sys_close fd => open_after rest (remove Z.eq_dec fd open)
      | _ => open_after rest open
      end
  end.

(** No call of [evs] closes or opens a descriptor. *)
Definition keeps_descriptors (evs : list Event) : bool :=
  forallb (fun ev => match call ev with
                     | sys_close _ | sys_socket _ | sys_accept _ => false
                     | _ => true
                     end) evs.

(** An operating system used to run the model: [socket] answers
    descriptor 5, [bind] fails with [errno] 98 (the address is in
    use), and the [close] that follows is interrupted and leaves
    [errno] at 4; every other call succeeds. *)
Definition bind_fails (history : list Event) (c : Syscall) : Answer :=
  match c with
  | sys_socket _ => mk_Answer 5 0 0 (InterfaceC.mk_sockaddr 0 0 []) []
  | sys_bind _ _ _ => mk_Answer (-1) 98 0 (InterfaceC.mk_sockaddr 0 0 []) []
  | sys_close _ => mk_Answer (-1) 4 0 (InterfaceC.mk_sockaddr 0 0 []) []
  | _ => mk_Answer 0 0 0 (InterfaceC.mk_sockaddr 0 0 []) []
  end.

(** One where every call succeeds: [socket] and [accept] answer the
    descriptor 7, [fcntl] answers the flags 2 and then 0, and
    [getsockname] the address [192.0.2.1], port field 8080. *)
Definition all_succeed (history : list Event) (c : Syscall) : Answer :=
  match c with
  | sys_socket _ | sys_accept _ =>
      mk_Answer 7 0 0 (InterfaceC.mk_sockaddr 0 0 []) []
  | sys_fcntl_getfl _ => mk_Answer 2 0 0 (InterfaceC.mk_sockaddr 0 0 []) []
  | sys_getsockname _ =>
      mk_Answer 0 0 0
        (InterfaceC.mk_sockaddr Libc.AF_INET 8080 [192; 0; 2; 1]) []
  | _ => mk_Answer 0 0 0 (InterfaceC.mk_sockaddr 0 0 []) []
  end.

(** A [strerror] without texts, and the world before any call. *)
Definition no_strerror (e : Z) : string := EmptyString.

Definition start : World := mk_World [] 0.

End SocketSpec.

(** * Properties *)

(** ** The models at work *)

Module Examples.
Import NetworkC NetworkSpec.
Local Open Scope string_scope.

Example inet_pton_dotted :
  Libc.inet_pton Libc.AF_INET "127.0.0.1" = Some [127; 0; 0; 1]
  /\ Libc.inet_pton Libc.AF_INET "127.0.0.01" = None
  /\ Libc.inet_pton Libc.AF_INET "256.0.0.1" = None.
Proof. repeat split; reflexivity. Qed.

Example inet_pton_groups :
  Libc.inet_pton Libc.AF_INET6 "::1" = Some (repeat 0 15%nat ++ [1])%list
  /\ Libc.inet_pton Libc.AF_INET6 "1::2:3:4:5:6:7"
     = Some [0; 1; 0; 0; 0; 2; 0; 3; 0; 4; 0; 5; 0; 6; 0; 7]
  /\ Libc.inet_pton Libc.AF_INET6 "fe80::1:2"
     = Some [254; 128; 0; 0; 0; 0; 0; 0; 0; 0; 0; 0; 0; 1; 0; 2]
  /\ Libc.inet_pton Libc.AF_INET6 "::ffff:10.0.0.1"
     = Some [0; 0; 0; 0; 0; 0; 0; 0; 0; 0; 255; 255; 10; 0; 0; 1]
  /\ Libc.inet_pton Libc.AF_INET6 "1:2:3:4:5:6:7:8::" = None
  /\ Libc.inet_pton Libc.AF_INET6 "1::2::3" = None.
Proof. repeat split; reflexivity. Qed.

Example fmt_u_decimal :
  Libc.fmt_u 65535 = "65535" /\ Libc.fmt_u 0 = "0" /\ Libc.fmt_u 1080 = "1080".
Proof. repeat split; reflexivity. Qed.

Example host_address_to_str_samples :
  host_address_to_str true (mk_HostAddress NETWORK_INET6 (repeat 0 16%nat))
  = "[::]"
  /\ host_address_to_str false
       (mk_HostAddress NETWORK_INET6 ([254; 128] ++ repeat 0 14%nat)%list)
     = "[fe80::]"
  /\ host_address_to_str true
       (mk_HostAddress NETWORK_INET6
          [32; 1; 13; 184; 0; 0; 0; 1; 0; 0; 0; 0; 0; 0; 0; 1])
     = "[2001:db8:0:1::1]"
  /\ host_address_to_str true sample_inet = "127.0.0.1".
Proof. repeat split; reflexivity. Qed.

Example split_string_samples :
  Helpers.split_string "[::1]:1080" ":" = Some ("[::1]", "1080")
  /\ Helpers.split_string "[::1]" ":" = None
  /\ Helpers.split_string "::1]" "]" = Some ("::1", EmptyString).
Proof. repeat split; reflexivity. Qed.

Example main_with_bind :
  MainC.main ["dispatch_ng"; "--bind=127.0.0.1:11080"; "127.0.0.1@1"]
  = ([MainC.utils_init; MainC.connector_init;
      MainC.server_create "127.0.0.1:11080";
      MainC.balancer_add_from_string "127.0.0.1@1";
      MainC.event_base_loop], MainC.Returned 0).
Proof. reflexivity. Qed.

End Examples.

(** ** The interface manager *)

Module InterfaceFacts.
Import InterfaceC InterfaceSpec.
Local Open Scope cmd_scope.

Lemma wrap_int_small z : INT_MIN <= z <= INT_MAX -> wrap_int z = z.
Proof.
  unfold INT_MIN, INT_MAX, wrap_int. intros H.
  rewrite Z.mod_small by lia. lia.
Qed.

Lemma wrap_int_range z : INT_MIN <= wrap_int z <= INT_MAX.
Proof.
  unfold INT_MIN, INT_MAX, wrap_int.
  pose proof (Z.mod_pos_bound (z + 2147483648) 4294967296). lia.
Qed.

Lemma wrap_int_add_cancel z d : wrap_int (wrap_int z + d) = wrap_int (z + d).
Proof.
  unfold wrap_int.
  replace (((z + 2147483648) mod 4294967296 - 2147483648 + d) + 2147483648)
    with ((z + 2147483648) mod 4294967296 + d) by lia.
  replace (z + d + 2147483648) with ((z + 2147483648) + d) by lia.
  rewrite Z.add_mod_idemp_l by lia. reflexivity.
Qed.

Lemma count_of_lookup h p o : h !! p = Some o -> count_of h p = use_count o.
Proof. unfold count_of. intros ->. reflexivity. Qed.

(** The inner loop neither writes nor aborts, and keeps the first of the
    least-used interfaces seen so far. *)
Lemma scan_chain_first_least s iters :
  forall prev selected,
    (forall p, In p (prev ++ iters) -> is_Some (heap s !! p)) ->
    first_least (heap s) prev selected ->
    exists r, scan_chain iters selected s = Ok r s
              /\ first_least (heap s) (prev ++ iters) r.
Proof.
  induction iters as [|iter rest IH]; intros prev selected Halloc Hsel.
  - exists selected. rewrite app_nil_r. split; [reflexivity | exact Hsel].
  - replace (prev ++ iter :: rest) with ((prev ++ [iter]) ++ rest) in *
      by (rewrite <- app_assoc; reflexivity).
    destruct selected as [sel|]; simpl.
    + destruct Hsel as (l1 & l2 & Hprev & Hl1 & Hl2).
      destruct (Halloc iter) as [oi Hoi].
      { apply in_or_app. left. apply in_or_app. right. left. reflexivity. }
      destruct (Halloc sel) as [os Hos].
      { apply in_or_app. left. apply in_or_app. left. subst prev.
        apply in_or_app. right. left. reflexivity. }
      unfold bind, load. rewrite Hoi, Hos.
      destruct (use_count oi <? use_count os) eqn:Hlt.
      * apply Z.ltb_lt in Hlt. apply IH; [exact Halloc|].
        exists prev, []. split; [reflexivity|]. split.
        -- intros q Hq. rewrite (count_of_lookup _ _ _ Hoi).
           subst prev. apply in_app_or in Hq. destruct Hq as [Hq|[Hq|Hq]].
           ++ specialize (Hl1 q Hq). rewrite (count_of_lookup _ _ _ Hos) in Hl1. lia.
           ++ subst q. rewrite (count_of_lookup _ _ _ Hos). lia.
           ++ specialize (Hl2 q Hq). rewrite (count_of_lookup _ _ _ Hos) in Hl2. lia.
        -- intros q [].
      * apply Z.ltb_ge in Hlt. apply IH; [exact Halloc|].
        exists l1, (l2 ++ [iter]). split.
        -- subst prev. rewrite <- app_assoc. reflexivity.
        -- split; [exact Hl1|]. intros q Hq.
           apply in_app_or in Hq. destruct Hq as [Hq|[Hq|[]]].
           ++ apply Hl2, Hq.
           ++ subst q. rewrite (count_of_lookup _ _ _ Hos),
                (count_of_lookup _ _ _ Hoi). lia.
    + simpl in Hsel. subst prev. simpl in *.
      apply (IH [iter] (Some iter)); [exact Halloc|].
      exists [], []. split; [reflexivity|]. split; intros q [].
Qed.

Lemma get_loop_first_least s addr_type n :
  forall i prev selected,
    (forall p, In p (prev ++ flat_map
        (fun i => if family_selected addr_type i then nth i (ifaces s) [] else [])
        (seq i n)) -> is_Some (heap s !! p)) ->
    first_least (heap s) prev selected ->
    exists r, get_loop n i addr_type selected s = Ok r s
      /\ first_least (heap s)
           (prev ++ flat_map
              (fun i => if family_selected addr_type i
                        then nth i (ifaces s) [] else [])
              (seq i n)) r.
Proof.
  induction n as [|n IH]; intros i prev selected Halloc Hsel.
  - exists selected. simpl. rewrite app_nil_r. split; [reflexivity|exact Hsel].
  - simpl in *. unfold family_selected in *.
    destruct (Z.land addr_type (Z.shiftl 1 (Z.of_nat i)) =? 0) eqn:Hbit; simpl in *.
    + apply IH; assumption.
    + unfold bind, chain.
      rewrite app_assoc in Halloc |- *.
      destruct (scan_chain_first_least s (nth i (ifaces s) []) prev selected)
        as (r1 & Hr1 & Hfl1); [|exact Hsel|].
      { intros p Hp. apply Halloc. apply in_or_app. left. exact Hp. }
      rewrite Hr1. apply IH; assumption.
Qed.

Lemma manager_wf_allocated s addr_type p :
  manager_wf s -> In p (candidates s addr_type) -> is_Some (heap s !! p).
Proof.
  intros Hwf Hp. unfold candidates in Hp. apply in_flat_map in Hp.
  destruct Hp as (i & _ & Hp).
  destruct (family_selected addr_type i); [|destruct Hp].
  destruct (Hwf i p Hp) as (o & Ho & _). exists o. exact Ho.
Qed.

Lemma get_first_least s addr_type :
  manager_wf s ->
  exists r, interface_manager_get addr_type s = Ok r s
            /\ first_least (heap s) (candidates s addr_type) r.
Proof.
  intros Hwf.
  destruct (get_loop_first_least s addr_type INTERFACE_N_TYPES 0 [] None)
    as (r & Hr & Hfl).
  - intros p Hp. exact (manager_wf_allocated s addr_type p Hwf Hp).
  - reflexivity.
  - exists r. split; assumption.
Qed.


Lemma nth_list_insert {A} (l : list A) (i j : nat) (x d : A) :
  (i < length l)%nat ->
  nth j (<[i := x]> l) d = if Nat.eqb j i then x else nth j l d.
Proof.
  intros Hi. rewrite !nth_lookup.
  destruct (Nat.eqb_spec j i) as [->|Hne].
  - rewrite list_lookup_insert_eq by exact Hi. reflexivity.
  - rewrite list_lookup_insert_ne by congruence. reflexivity.
Qed.

Lemma link_new_effect i o s p s' :
  link_new i o s = Ok p s' ->
  heap s !! p = None
  /\ heap s' = <[p := o]> (heap s)
  /\ ifaces s' = <[i := p :: nth i (ifaces s) []]> (ifaces s).
Proof.
  unfold link_new. intros H. injection H as <- <-. simpl.
  split; [|split; reflexivity].
  apply not_elem_of_dom. apply is_fresh.
Qed.

(** A new interface starts unused, is of the family of the chain it
    joins, and is linked in front of that chain. *)
Lemma add_from_string_links desc s p s' :
  interface_manager_add_from_string desc s = Ok p s' ->
  exists i o,
    heap s !! p = None
    /\ use_count o = 0
    /\ family_index (addr o) = Some i
    /\ (i < INTERFACE_N_TYPES)%nat
    /\ heap s' = <[p := o]> (heap s)
    /\ ifaces s' = <[i := p :: nth i (ifaces s) []]> (ifaces s).
Proof.
  unfold interface_manager_add_from_string.
  destruct (negb (Ascii.eqb (Libc.first_char desc) "[")).
  - destruct (Libc.inet_pton Libc.AF_INET desc) as [bytes|]; [|discriminate].
    intros H. apply link_new_effect in H. destruct H as (H1 & H2 & H3).
    exists INTERFACE_OFF_INET, (mk_Interface (mk_sockaddr Libc.AF_INET 0 bytes) 16 0).
    repeat split; try assumption. unfold INTERFACE_OFF_INET, INTERFACE_N_TYPES. lia.
  - destruct (until_char "]" desc) as [desc_cp|]; [|discriminate].
    destruct (Libc.inet_pton Libc.AF_INET6 (Libc.string_tail desc_cp))
      as [bytes|]; [|discriminate].
    intros H. apply link_new_effect in H. destruct H as (H1 & H2 & H3).
    exists INTERFACE_OFF_INET6, (mk_Interface (mk_sockaddr Libc.AF_INET6 0 bytes) 28 0).
    repeat split; try assumption. unfold INTERFACE_OFF_INET6, INTERFACE_N_TYPES. lia.
Qed.

Lemma add_from_string_inv desc s p s' :
  configured_inv s ->
  interface_manager_add_from_string desc s = Ok p s' ->
  configured_inv s'.
Proof.
  intros (Hlen & Hwf & Hzero) H.
  apply add_from_string_links in H.
  destruct H as (i & o & Hfresh & Ho & Hfam & Hi & Hheap & Hifaces).
  split; [|split].
  - rewrite Hifaces, length_insert. exact Hlen.
  - intros j q Hq. rewrite Hifaces, Hheap in *.
    rewrite nth_list_insert in Hq by (rewrite Hlen; exact Hi).
    destruct (Nat.eqb_spec j i) as [->|Hne].
    + destruct Hq as [<-|Hq].
      * exists o. rewrite lookup_insert_eq. split; [reflexivity|exact Hfam].
      * destruct (Hwf i q Hq) as (o' & Ho' & Hf').
        exists o'. rewrite lookup_insert_ne by congruence. split; assumption.
    + destruct (Hwf j q Hq) as (o' & Ho' & Hf').
      exists o'. rewrite lookup_insert_ne by congruence. split; assumption.
  - intros q o'. rewrite Hheap.
    destruct (decide (p = q)) as [->|Hne].
    + rewrite lookup_insert_eq. intros [= <-]. exact Ho.
    + rewrite lookup_insert_ne by exact Hne. apply Hzero.
Qed.

Lemma add_all_inv descs :
  forall s ps s', configured_inv s -> add_all descs s = Ok ps s' ->
                  configured_inv s'.
Proof.
  induction descs as [|d rest IH]; intros s ps s' Hinv H.
  - injection H as _ <-. exact Hinv.
  - simpl in H. unfold bind in H.
    destruct (interface_manager_add_from_string d s) as [p s1| |] eqn:Hadd;
      try discriminate.
    destruct (add_all rest s1) as [ps1 s2| |] eqn:Hrest; try discriminate.
    injection H as _ <-.
    eapply IH; [|exact Hrest]. eapply add_from_string_inv; eassumption.
Qed.

Lemma manager_new_inv : configured_inv interface_manager_new.
Proof.
  split; [reflexivity|]. split.
  - intros i p Hp. destruct i as [|[|[|i]]]; simpl in Hp; destruct Hp.
  - intros p o Hp. simpl in Hp. rewrite lookup_empty in Hp. discriminate.
Qed.

Lemma configured_inv_holds descs ps s :
  configured descs = Ok ps s -> configured_inv s.
Proof. apply add_all_inv, manager_new_inv. Qed.

(** [interface_open] and [interface_close] touch one counter only. *)
Lemma atomic_int_add_effect p d s o :
  heap s !! p = Some o ->
  atomic_int_add p d s
  = Ok tt (mk_State (ifaces s)
             (<[p := mk_Interface (addr o) (len o) (wrap_int (use_count o + d))]>
                (heap s))).
Proof. unfold atomic_int_add. intros ->. reflexivity. Qed.

Lemma interface_open_effect socket_ret bind_ret p s s' :
  interface_open socket_ret bind_ret p s = Ok tt s' ->
  exists o, heap s !! p = Some o
    /\ s' = mk_State (ifaces s)
              (<[p := mk_Interface (addr o) (len o) (wrap_int (use_count o + 1))]>
                 (heap s)).
Proof.
  unfold interface_open, bind, load.
  destruct (heap s !! p) as [o|] eqn:Ho; [|discriminate].
  unfold find_namespace, ret, abort.
  destruct (sa_family (addr o) =? Libc.AF_LOCAL);
    [|destruct (sa_family (addr o) =? Libc.AF_INET);
      [|destruct (sa_family (addr o) =? Libc.AF_INET6); [|discriminate]]];
    (destruct (socket_ret <? 0); [discriminate|];
     destruct (bind_ret <? 0); [discriminate|];
     rewrite (atomic_int_add_effect _ _ _ _ Ho); intros [= <-];
     exists o; split; reflexivity).
Qed.

Lemma interface_close_effect p s s' :
  interface_close p s = Ok tt s' ->
  exists o, heap s !! p = Some o
    /\ s' = mk_State (ifaces s)
              (<[p := mk_Interface (addr o) (len o) (wrap_int (use_count o + -1))]>
                 (heap s)).
Proof.
  unfold interface_close, atomic_int_add.
  destruct (heap s !! p) as [o|] eqn:Ho; [|discriminate].
  intros [= <-]. exists o. split; reflexivity.
Qed.

Lemma interface_open_succeeds socket_ret bind_ret p s o i :
  heap s !! p = Some o ->
  family_index (addr o) = Some i ->
  0 <= socket_ret -> 0 <= bind_ret ->
  interface_open socket_ret bind_ret p s
  = Ok tt (mk_State (ifaces s)
             (<[p := mk_Interface (addr o) (len o) (wrap_int (use_count o + 1))]>
                (heap s))).
Proof.
  intros Ho Hfam Hs Hb. unfold interface_open, bind, load. rewrite Ho.
  unfold find_namespace, ret. unfold family_index in Hfam.
  destruct (sa_family (addr o) =? Libc.AF_LOCAL);
    [|destruct (sa_family (addr o) =? Libc.AF_INET);
      [|destruct (sa_family (addr o) =? Libc.AF_INET6); [|discriminate]]];
    (destruct (Z.ltb_spec socket_ret 0); [lia|];
     destruct (Z.ltb_spec bind_ret 0); [lia|];
     apply atomic_int_add_effect, Ho).
Qed.

Lemma family_selected_testbit addr_type i :
  family_selected addr_type i = Z.testbit addr_type (Z.of_nat i).
Proof.
  unfold family_selected. rewrite Z.shiftl_1_l.
  destruct (Z.testbit addr_type (Z.of_nat i)) eqn:Hbit.
  - apply negb_true_iff, Z.eqb_neq. intros H0.
    assert (Hb : Z.testbit (Z.land addr_type (2 ^ Z.of_nat i)) (Z.of_nat i) = true).
    { rewrite Z.land_spec, Hbit, Z.pow2_bits_true by lia. reflexivity. }
    rewrite H0, Z.bits_0 in Hb. discriminate.
  - apply negb_false_iff, Z.eqb_eq. apply Z.bits_inj_0. intros n.
    rewrite Z.land_spec.
    destruct (Z.eq_dec n (Z.of_nat i)) as [->|Hne].
    + rewrite Hbit. reflexivity.
    + destruct (Z.ltb_spec n 0).
      * rewrite (Z.testbit_neg_r (2 ^ _)) by lia. apply andb_false_r.
      * rewrite Z.pow2_bits_false by lia. apply andb_false_r.
Qed.

Lemma family_index_bound a i : family_index a = Some i -> (i < INTERFACE_N_TYPES)%nat.
Proof.
  unfold family_index, INTERFACE_N_TYPES, INTERFACE_OFF_INET, INTERFACE_OFF_INET6.
  destruct (sa_family a =? Libc.AF_INET); [intros [= <-]; lia|].
  destruct (sa_family a =? Libc.AF_INET6); [intros [= <-]; lia|discriminate].
Qed.

(** Configuration keeps the objects it has made and leaves each chain
    in reverse insertion order. *)
Lemma add_all_chains descs :
  forall s ps s',
    length (ifaces s) = INTERFACE_N_TYPES ->
    add_all descs s = Ok ps s' ->
    (forall q o, heap s !! q = Some o -> heap s' !! q = Some o)
    /\ length (ifaces s') = INTERFACE_N_TYPES
    /\ forall i, (i < INTERFACE_N_TYPES)%nat ->
         nth i (ifaces s') []
         = rev (List.filter (in_family (heap s') i) ps) ++ nth i (ifaces s) [].
Proof.
  induction descs as [|d rest IH]; intros s ps s' Hlen H.
  - injection H as <- <-. repeat split; auto.
  - simpl in H. unfold bind in H.
    destruct (interface_manager_add_from_string d s) as [p s1| |] eqn:Hadd;
      try discriminate.
    destruct (add_all rest s1) as [ps1 s2| |] eqn:Hrest; try discriminate.
    injection H as <- <-.
    apply add_from_string_links in Hadd.
    destruct Hadd as (i0 & o & Hfresh & _ & Hfam & Hi0 & Hheap & Hifaces).
    assert (Hlen1 : length (ifaces s1) = INTERFACE_N_TYPES)
      by (rewrite Hifaces, length_insert; exact Hlen).
    destruct (IH s1 ps1 s2 Hlen1 Hrest) as (Hmono & Hlen2 & Hchains).
    split; [|split; [exact Hlen2|]].
    + intros q o' Hq. apply Hmono. rewrite Hheap.
      rewrite lookup_insert_ne; [exact Hq|]. congruence.
    + intros i Hi. rewrite (Hchains i Hi), Hifaces.
      rewrite nth_list_insert by (rewrite Hlen; exact Hi0).
      assert (Hp : heap s2 !! p = Some o).
      { apply Hmono. rewrite Hheap. apply lookup_insert_eq. }
      assert (Hin : in_family (heap s2) i p = Nat.eqb i0 i)
        by (unfold in_family, family_of; rewrite Hp, Hfam; reflexivity).
      simpl List.filter. rewrite Hin.
      destruct (Nat.eqb_spec i0 i) as [->|Hne].
      * rewrite Nat.eqb_refl. simpl rev. rewrite <- app_assoc. reflexivity.
      * destruct (Nat.eqb_spec i i0); [congruence|reflexivity].
Qed.

Lemma in_family_insert h p o o' i q :
  h !! p = Some o -> addr o' = addr o ->
  in_family (<[p := o']> h) i q = in_family h i q.
Proof.
  intros Hp Ha. unfold in_family, family_of.
  destruct (decide (p = q)) as [<-|Hne].
  - rewrite lookup_insert_eq, Hp, Ha. reflexivity.
  - rewrite lookup_insert_ne by exact Hne. reflexivity.
Qed.

Lemma filter_ext_pred {A} (f g : A -> bool) (l : list A) :
  (forall x, f x = g x) -> List.filter f l = List.filter g l.
Proof.
  intros H. induction l as [|x l IH]; [reflexivity|].
  simpl. rewrite H, IH. reflexivity.
Qed.

Lemma run_inv_update ps s live p o d :
  run_inv ps s live ->
  heap s !! p = Some o ->
  0 <= live p + d ->
  run_inv ps
    (mk_State (ifaces s)
       (<[p := mk_Interface (addr o) (len o) (wrap_int (use_count o + d))]> (heap s)))
    (bump live p d).
Proof.
  intros (Hwf & Hchains & Hlive) Hp Hd.
  split; [|split]; simpl.
  - intros i q Hq. simpl in Hq |- *. destruct (Hwf i q Hq) as (o' & Ho' & Hf').
    destruct (decide (p = q)) as [<-|Hne].
    + rewrite lookup_insert_eq. eexists. split; [reflexivity|].
      simpl. rewrite Hp in Ho'. injection Ho' as <-. exact Hf'.
    + exists o'. rewrite lookup_insert_ne by exact Hne. split; assumption.
  - intros i Hi. rewrite (Hchains i Hi). f_equal.
    apply filter_ext_pred. intros q. symmetry.
    eapply in_family_insert; [exact Hp|reflexivity].
  - intros q o'. unfold bump.
    destruct (decide (p = q)) as [<-|Hne].
    + rewrite lookup_insert_eq, Pos.eqb_refl. intros [= <-]. simpl.
      destruct (Hlive p o Hp) as [_ ->].
      split; [exact Hd|]. apply wrap_int_add_cancel.
    + rewrite lookup_insert_ne by exact Hne.
      destruct (Pos.eqb_spec q p) as [->|_]; [congruence|]. apply Hlive.
Qed.

Lemma acquire_effect socket_ret bind_ret addr_type s p s' :
  manager_wf s ->
  acquire socket_ret bind_ret addr_type s = Ok (Some p) s' ->
  interface_manager_get addr_type s = Ok (Some p) s
  /\ exists o, heap s !! p = Some o
       /\ s' = mk_State (ifaces s)
                 (<[p := mk_Interface (addr o) (len o) (wrap_int (use_count o + 1))]>
                    (heap s)).
Proof.
  intros Hwf. unfold acquire, bind.
  destruct (get_first_least s addr_type Hwf) as (r & -> & _).
  destruct r as [q|]; [|discriminate].
  destruct (interface_open socket_ret bind_ret q s) as [[] s1| |] eqn:Hopen;
    try discriminate.
  unfold ret. intros [= <- <-]. split; [reflexivity|].
  apply interface_open_effect in Hopen. exact Hopen.
Qed.

Lemma reachable_run_inv ps s live : reachable ps s live -> run_inv ps s live.
Proof.
  induction 1 as [descs s Hc | s live sr br mask p s' _ IH Hacq
                 | s live p s' _ IH Hpos Hrel].
  - destruct (configured_inv_holds _ _ _ Hc) as (Hlen & Hwf & Hzero).
    destruct (add_all_chains descs interface_manager_new ps s eq_refl Hc)
      as (_ & _ & Hchains).
    split; [exact Hwf|]. split.
    + intros i Hi. rewrite (Hchains i Hi).
      replace (nth i (ifaces interface_manager_new) []) with (@nil positive);
        [apply app_nil_r|]. destruct i as [|[|[|i]]]; reflexivity.
    + intros p o Hp. rewrite (Hzero p o Hp). split; [lia|reflexivity].
  - destruct IH as (Hwf & Hrest).
    destruct (acquire_effect _ _ _ _ _ _ Hwf Hacq) as (_ & o & Ho & ->).
    apply run_inv_update; [split; assumption|exact Ho|].
    destruct Hrest as (_ & Hlive). destruct (Hlive p o Ho). lia.
  - apply interface_close_effect in Hrel. destruct Hrel as (o & Ho & ->).
    apply run_inv_update; [exact IH|exact Ho|lia].
Qed.

Lemma candidates_scan_order ps s live addr_type :
  run_inv ps s live -> candidates s addr_type = scan_order (heap s) ps addr_type.
Proof.
  intros (_ & Hchains & _). unfold candidates, scan_order.
  unfold INTERFACE_N_TYPES in *. simpl.
  rewrite !family_selected_testbit, !app_nil_r.
  rewrite (Hchains 0%nat), (Hchains 1%nat) by lia. reflexivity.
Qed.

Lemma configured_two_inet :
  configured two_inet_descs = Ok [1%positive; 2%positive] (two_inet_state 0 0).
Proof. vm_compute. reflexivity. Qed.

Lemma count_of_int_range ps s live p :
  reachable ps s live -> INT_MIN <= count_of (heap s) p <= INT_MAX.
Proof.
  intros R. destruct (reachable_run_inv _ _ _ R) as (_ & _ & Hlive).
  unfold count_of. destruct (heap s !! p) as [o|] eqn:Ho.
  - destruct (Hlive p o Ho) as [_ ->]. apply wrap_int_range.
  - unfold INT_MIN, INT_MAX. lia.
Qed.

(** C1 (as the code has it).  In every state of a run and for every
    family mask with an eligible interface, [interface_manager_get]
    returns, leaves the state as it is, and answers the first interface
    of the scan order among those of least [use_count].  No metric takes
    part, and the scan order puts the INET chain before the INET6 chain
    and, inside a chain, the most recently added interface first. *)
Theorem get_selects_first_least_used ps s live addr_type :
  reachable ps s live ->
  scan_order (heap s) ps addr_type <> [] ->
  exists p l1 l2,
    interface_manager_get addr_type s = Ok (Some p) s
    /\ scan_order (heap s) ps addr_type = l1 ++ p :: l2
    /\ (forall q, In q l1 -> count_of (heap s) p < count_of (heap s) q)
    /\ (forall q, In q l2 -> count_of (heap s) p <= count_of (heap s) q).
Proof.
  intros R Hne. pose proof (reachable_run_inv _ _ _ R) as Hinv.
  destruct (get_first_least s addr_type (proj1 Hinv)) as (r & Hget & Hfl).
  rewrite (candidates_scan_order _ _ _ addr_type Hinv) in Hfl.
  destruct r as [p|]; [|contradiction].
  destruct Hfl as (l1 & l2 & Hsplit & Hl1 & Hl2).
  exists p, l1, l2. repeat split; assumption.
Qed.

Lemma get_selects_first_least_used_witness :
  exists p l1 l2,
    interface_manager_get 1 (two_inet_state 0 0) = Ok (Some p) (two_inet_state 0 0)
    /\ scan_order (heap (two_inet_state 0 0)) [1%positive; 2%positive] 1
       = l1 ++ p :: l2
    /\ (forall q, In q l1 ->
          count_of (heap (two_inet_state 0 0)) p
          < count_of (heap (two_inet_state 0 0)) q)
    /\ (forall q, In q l2 ->
          count_of (heap (two_inet_state 0 0)) p
          <= count_of (heap (two_inet_state 0 0)) q).
Proof.
  apply (get_selects_first_least_used [1%positive; 2%positive]
           (two_inet_state 0 0) (fun _ => 0) 1).
  - apply (reach_configured _ two_inet_descs). vm_compute. reflexivity.
  - vm_compute. discriminate.
Defined.

(** C1, the claim as stated, fails: with two IPv4 interfaces added one
    after the other, both unused and of equal metric, the first-inserted
    one is the choice the specification words, and
    [interface_manager_get] answers the other one. *)
Lemma get_prefers_last_inserted :
  configured two_inet_descs = Ok [1%positive; 2%positive] (two_inet_state 0 0)
  /\ spec_acquire_choice (two_inet_state 0 0) (fun _ => 1)
       [1%positive; 2%positive] 1 = Some 1%positive
  /\ interface_manager_get 1 (two_inet_state 0 0)
     = Ok (Some 2%positive) (two_inet_state 0 0).
Proof. repeat split; vm_compute; reflexivity. Qed.

(** The metric plays no part: with use counts 1 and 2 and metrics 1 and
    3 the least ratio is that of the second interface, and the first
    one is answered. *)
Example get_ignores_metric :
  spec_acquire_choice (two_inet_state 1 2)
    (fun p => if Pos.eqb p 2 then 3 else 1) [1%positive; 2%positive] 1
  = Some 2%positive
  /\ interface_manager_get 1 (two_inet_state 1 2)
     = Ok (Some 1%positive) (two_inet_state 1 2).
Proof. split; vm_compute; reflexivity. Qed.

Lemma in_family_true h i p :
  in_family h i p = true <-> family_of h p = Some i.
Proof.
  unfold in_family. destruct (family_of h p) as [j|].
  - destruct (Nat.eqb_spec j i) as [->|Hne]; split; intros H;
      try reflexivity; try discriminate. congruence.
  - split; discriminate.
Qed.

Lemma family_of_bound h p i : family_of h p = Some i -> (i < INTERFACE_N_TYPES)%nat.
Proof.
  unfold family_of. destruct (h !! p); [apply family_index_bound|discriminate].
Qed.

Lemma in_scan_order h ps addr_type p :
  In p (scan_order h ps addr_type)
  <-> In p ps /\ exists i, family_of h p = Some i
                           /\ Z.testbit addr_type (Z.of_nat i) = true.
Proof.
  unfold scan_order. rewrite in_flat_map. split.
  - intros (i & _ & Hp).
    destruct (Z.testbit addr_type (Z.of_nat i)) eqn:Hbit; [|destruct Hp].
    rewrite <- in_rev in Hp. apply filter_In in Hp. destruct Hp as [Hin Hf].
    apply in_family_true in Hf. split; [exact Hin|]. exists i. split; assumption.
  - intros (Hin & i & Hf & Hbit). exists i. split.
    + apply in_seq. pose proof (family_of_bound _ _ _ Hf). lia.
    + rewrite Hbit, <- in_rev. apply filter_In. split; [exact Hin|].
      apply in_family_true, Hf.
Qed.

(** C7.  In every state of a run, [interface_manager_get] answers
    [None] exactly when no configured interface is of a family whose
    bit is set in the mask, and an interface it answers is a configured
    one whose family bit is set. *)
Theorem get_none_iff_no_family ps s live addr_type :
  reachable ps s live ->
  exists r,
    interface_manager_get addr_type s = Ok r s
    /\ (r = None <->
        forall q i, In q ps -> family_of (heap s) q = Some i ->
                    Z.testbit addr_type (Z.of_nat i) = false)
    /\ (forall p, r = Some p ->
        In p ps /\ exists i, family_of (heap s) p = Some i
                             /\ Z.testbit addr_type (Z.of_nat i) = true).
Proof.
  intros R. pose proof (reachable_run_inv _ _ _ R) as Hinv.
  destruct (get_first_least s addr_type (proj1 Hinv)) as (r & Hget & Hfl).
  rewrite (candidates_scan_order _ _ _ addr_type Hinv) in Hfl.
  exists r. split; [exact Hget|]. split.
  - split.
    + intros -> q i Hq Hf. simpl in Hfl.
      destruct (Z.testbit addr_type (Z.of_nat i)) eqn:Hbit; [|reflexivity].
      assert (Hin : In q (scan_order (heap s) ps addr_type))
        by (apply in_scan_order; eauto).
      rewrite Hfl in Hin. destruct Hin.
    + intros Hnone. destruct r as [p|]; [|reflexivity].
      destruct Hfl as (l1 & l2 & Hsplit & _).
      assert (Hin : In p (scan_order (heap s) ps addr_type))
        by (rewrite Hsplit; apply in_or_app; right; left; reflexivity).
      apply in_scan_order in Hin. destruct Hin as (Hin & i & Hf & Hbit).
      rewrite (Hnone p i Hin Hf) in Hbit. discriminate.
  - intros p ->. destruct Hfl as (l1 & l2 & Hsplit & _).
    apply in_scan_order. rewrite Hsplit.
    apply in_or_app. right. left. reflexivity.
Qed.

Lemma get_none_iff_no_family_witness :
  exists r,
    interface_manager_get 2 (two_inet_state 0 0) = Ok r (two_inet_state 0 0)
    /\ (r = None <->
        forall q i, In q [1%positive; 2%positive] ->
                    family_of (heap (two_inet_state 0 0)) q = Some i ->
                    Z.testbit 2 (Z.of_nat i) = false)
    /\ (forall p, r = Some p ->
        In p [1%positive; 2%positive]
        /\ exists i, family_of (heap (two_inet_state 0 0)) p = Some i
                     /\ Z.testbit 2 (Z.of_nat i) = true).
Proof.
  apply (get_none_iff_no_family [1%positive; 2%positive]
           (two_inet_state 0 0) (fun _ => 0) 2).
  apply (reach_configured _ two_inet_descs). vm_compute. reflexivity.
Defined.

(** Selection writes nothing, whatever the state. *)
Lemma scan_chain_frame s iters :
  forall selected,
    scan_chain iters selected s = Fault
    \/ exists r, scan_chain iters selected s = Ok r s.
Proof.
  induction iters as [|iter rest IH]; intros selected.
  - right. exists selected. reflexivity.
  - destruct selected as [sel|]; simpl; [|apply IH].
    unfold bind, load.
    destruct (heap s !! iter) as [oi|]; [|left; reflexivity].
    destruct (heap s !! sel) as [os|]; [|left; reflexivity].
    destruct (use_count oi <? use_count os); apply IH.
Qed.

Lemma get_loop_frame s addr_type n :
  forall i selected,
    get_loop n i addr_type selected s = Fault
    \/ exists r, get_loop n i addr_type selected s = Ok r s.
Proof.
  induction n as [|n IH]; intros i selected.
  - right. exists selected. reflexivity.
  - simpl. destruct (Z.land addr_type (Z.shiftl 1 (Z.of_nat i)) =? 0); [apply IH|].
    unfold bind, chain.
    destruct (scan_chain_frame s (nth i (ifaces s) []) selected) as [->|(r & ->)];
      [left; reflexivity|apply IH].
Qed.

(** C9.  [interface_manager_get] never aborts and, when it returns,
    the chains and the heap (so every [use_count]) are what they were;
    it can only fail on a manager with a dangling chain member.  The
    counter moves in [interface_open], which adds one (in [int]
    arithmetic) to the interface it is given and touches nothing
    else. *)
Theorem get_is_read_only s addr_type :
  match interface_manager_get addr_type s with
  | Ok _ s' => ifaces s' = ifaces s /\ heap s' = heap s
  | Abend _ => False
  | Fault => ~ manager_wf s
  end
  /\ forall socket_ret bind_ret p s',
       interface_open socket_ret bind_ret p s = Ok tt s' ->
       ifaces s' = ifaces s
       /\ count_of (heap s') p = wrap_int (count_of (heap s) p + 1)
       /\ forall q, q <> p -> heap s' !! q = heap s !! q.
Proof.
  split.
  - unfold interface_manager_get.
    destruct (get_loop_frame s addr_type INTERFACE_N_TYPES 0 None)
      as [Hf|(r & Hr)].
    + rewrite Hf. intros Hwf.
      destruct (get_first_least s addr_type Hwf) as (r & Hr & _).
      unfold interface_manager_get in Hr. congruence.
    + rewrite Hr. split; reflexivity.
  - intros socket_ret bind_ret p s' Hopen.
    apply interface_open_effect in Hopen. destruct Hopen as (o & Ho & ->).
    simpl. split; [reflexivity|]. split.
    + unfold count_of. rewrite lookup_insert_eq, Ho. reflexivity.
    + intros q Hq. apply lookup_insert_ne. congruence.
Qed.

Lemma get_is_read_only_witness :
  interface_manager_get 3 (two_inet_state 1 2)
  = Ok (Some 1%positive) (two_inet_state 1 2)
  /\ exists s',
       interface_open 3 0 1%positive (two_inet_state 1 2) = Ok tt s'
       /\ ifaces s' = ifaces (two_inet_state 1 2)
       /\ count_of (heap s') 1%positive = 2
       /\ heap s' !! 2%positive = heap (two_inet_state 1 2) !! 2%positive.
Proof.
  split; [vm_compute; reflexivity|].
  eexists. split; [vm_compute; reflexivity|].
  destruct (get_is_read_only (two_inet_state 1 2) 3) as [_ Hopen].
  destruct (Hopen 3 0 1%positive _ eq_refl) as (Hi & Hc & Ho).
  split; [exact Hi|]. split; [exact Hc|]. apply Ho. discriminate.
Defined.






(** A set of integers between 0 and [n - 1] has at most [n]
    elements. *)
Lemma interval_size (n : Z) (X : gset Z) :
  0 <= n -> (forall x, x ∈ X -> 0 <= x < n) -> Z.of_nat (size X) <= n.
Proof.
  intros Hn H.
  assert (Hsub : X ⊆ list_to_set (seqZ 0 n)).
  { intros x Hx. apply elem_of_list_to_set, elem_of_seqZ.
    specialize (H x Hx). lia. }
  apply subseteq_size in Hsub.
  rewrite size_list_to_set in Hsub by apply NoDup_seqZ.
  rewrite length_seqZ in Hsub.
  apply Nat2Z.inj_le in Hsub.
  rewrite Z2Nat.id in Hsub by exact Hn. exact Hsub.
Qed.

(** An acquire that returns was given a descriptor by [socket()]. *)
Lemma acquire_answers socket_ret bind_ret addr_type s p s' :
  acquire socket_ret bind_ret addr_type s = Ok (Some p) s' -> 0 <= socket_ret.
Proof.
  unfold acquire, bind.
  destruct (interface_manager_get addr_type s) as [[q|] s1| |]; try discriminate.
  unfold interface_open, bind, load.
  destruct (heap s1 !! q) as [o|]; [|discriminate].
  destruct (find_namespace (addr o) s1) as [ns s2| |]; try discriminate.
  destruct (Z.ltb_spec socket_ret 0); [unfold abort; discriminate|].
  intros _. assumption.
Qed.

Lemma tracked_reachable ps s live open :
  tracked ps s live open -> reachable ps s live.
Proof.
  induction 1 as [descs s held fd0 Hc _ _
                 | s live open sr br mask p s' _ IH _ _ Hacq
                 | s live open p s' _ IH Hpos Hrel].
  - exact (reach_configured _ _ _ Hc).
  - exact (reach_acquire _ _ _ _ _ _ _ _ IH Hacq).
  - exact (reach_release _ _ _ _ _ IH Hpos Hrel).
Qed.

(** Every acquire made so far holds a descriptor of its own, besides
    the one the process had before. *)
Lemma tracked_descriptors ps s live open :
  tracked ps s live open ->
  exists n,
    (forall p, live p <= n)
    /\ n + 1 <= Z.of_nat (size open)
    /\ forall fd, fd ∈ open -> 0 <= fd <= INT_MAX.
Proof.
  induction 1 as [descs s held fd0 Hc Hfd0 Hrange
                 | s live open sr br mask p s' _ IH Hfresh Hint Hacq
                 | s live open p s' _ IH Hpos Hrel].
  - exists 0. split; [intros p; lia|]. split; [|exact Hrange].
    assert (Hsub : {[fd0]} ⊆ held) by (apply singleton_subseteq_l, Hfd0).
    apply subseteq_size in Hsub. rewrite size_singleton in Hsub. lia.
  - destruct IH as (n & Hlive & Hsize & Hrange). exists (n + 1).
    split; [|split].
    + intros q. unfold bump. specialize (Hlive q).
      destruct (Pos.eqb q p); lia.
    + rewrite size_union by (apply disjoint_singleton_l, Hfresh).
      rewrite size_singleton. lia.
    + intros fd Hfd. apply elem_of_union in Hfd. destruct Hfd as [Hfd|Hfd].
      * apply elem_of_singleton in Hfd. subst fd.
        pose proof (acquire_answers _ _ _ _ _ _ Hacq). lia.
      * apply Hrange, Hfd.
  - destruct IH as (n & Hlive & Hsize & Hrange). exists n.
    split; [|split; assumption].
    intros q. unfold bump. specialize (Hlive q).
    destruct (Pos.eqb q p); lia.
Qed.

(** C3.  In every state of a run, each interface's [use_count] is not
    negative and equals the number of successful acquires on it that
    are not yet released.  Every such acquire holds a descriptor of its
    own, so their number stays below the number of descriptors there
    are, and the counter never wraps. *)
Theorem use_count_equals_live ps s live open p o :
  tracked ps s live open ->
  heap s !! p = Some o ->
  0 <= use_count o /\ use_count o = live p.
Proof.
  intros T Ho.
  destruct (reachable_run_inv _ _ _ (tracked_reachable _ _ _ _ T))
    as (_ & _ & Hlive).
  destruct (Hlive p o Ho) as [Hpos Hcount].
  destruct (tracked_descriptors _ _ _ _ T) as (n & Hn & Hsize & Hrange).
  assert (Hcard : Z.of_nat (size open) <= INT_MAX + 1).
  { apply interval_size; [unfold INT_MAX; lia|].
    intros fd Hfd. specialize (Hrange fd Hfd). lia. }
  specialize (Hn p).
  rewrite Hcount, wrap_int_small; [lia|].
  unfold INT_MIN, INT_MAX in *. lia.
Qed.

Lemma use_count_equals_live_witness :
  tracked [1%positive; 2%positive] (two_inet_state 0 1)
    (bump (fun _ => 0) 2%positive 1) ({[3]} ∪ {[0]})
  /\ 0 <= use_count (inet_object 2 1)
  /\ use_count (inet_object 2 1) = 1.
Proof.
  assert (T : tracked [1%positive; 2%positive] (two_inet_state 0 1)
                (bump (fun _ => 0) 2%positive 1) ({[3]} ∪ {[0]})).
  { apply (tracked_acquire _ (two_inet_state 0 0) (fun _ => 0) {[0]} 3 0 1).
    - apply (tracked_configured _ two_inet_descs _ _ 0).
      + apply configured_two_inet.
      + apply elem_of_singleton. reflexivity.
      + intros fd Hfd. apply elem_of_singleton in Hfd. subst fd.
        unfold INT_MAX. lia.
    - intros Hin. apply elem_of_singleton in Hin. discriminate.
    - unfold INT_MAX. lia.
    - vm_compute. reflexivity. }
  split; [exact T|].
  apply (use_count_equals_live _ _ _ _ 2%positive (inet_object 2 1) T).
  reflexivity.
Defined.

End InterfaceFacts.

(** ** The argument loop of main *)

Module MainFacts.
Import MainC.







End MainFacts.

(** ** The address model *)

Module NetworkFacts.
Import NetworkC NetworkSpec.
Local Open Scope string_scope.

(** *** Strings *)

Lemma append_cons (x : ascii) (a b : string) :
  String x a ++ b = String x (a ++ b).
Proof. reflexivity. Qed.

Lemma append_nil_l (b : string) : EmptyString ++ b = b.
Proof. reflexivity. Qed.

Lemma append_assoc (a b c : string) : (a ++ b) ++ c = a ++ (b ++ c).
Proof.
  induction a as [|x a IH]; [reflexivity|].
  rewrite !append_cons, IH. reflexivity.
Qed.

Lemma append_nil_r (a : string) : a ++ EmptyString = a.
Proof.
  induction a as [|x a IH]; [reflexivity|].
  rewrite append_cons, IH. reflexivity.
Qed.

Lemma length_append (a b : string) :
  String.length (a ++ b) = (String.length a + String.length b)%nat.
Proof.
  induction a as [|x a IH]; [reflexivity|].
  rewrite append_cons. simpl. rewrite IH. reflexivity.
Qed.

Lemma substring_whole (s : string) (n : nat) :
  (String.length s <= n)%nat -> substring 0 n s = s.
Proof.
  revert n. induction s as [|x s IH]; intros n Hn.
  - destruct n; reflexivity.
  - destruct n; simpl in *; [lia|]. rewrite IH by lia. reflexivity.
Qed.

Lemma all_chars_append test a b :
  all_chars test (a ++ b) = all_chars test a && all_chars test b.
Proof.
  induction a as [|x a IH]; [reflexivity|].
  rewrite append_cons. simpl. rewrite IH. apply andb_assoc.
Qed.

Lemma all_chars_weaken (test1 test2 : ascii -> bool) s :
  (forall c, test1 c = true -> test2 c = true) ->
  all_chars test1 s = true -> all_chars test2 s = true.
Proof.
  intros Himp. induction s as [|x s IH]; simpl; [reflexivity|].
  intros H. apply andb_true_iff in H. destruct H as [Hx Hs].
  rewrite (Himp x Hx), (IH Hs). reflexivity.
Qed.

(** *** Exhaustive checks *)

Lemma all_from_spec test fuel :
  forall i, all_from fuel i test = true ->
            forall z, (i <= z < i + Z.of_nat fuel)%Z -> test z = true.
Proof.
  induction fuel as [|fuel IH]; intros i H z Hz.
  - simpl in Hz. lia.
  - simpl in H. apply andb_true_iff in H. destruct H as [Hi Hrest].
    destruct (Z.eq_dec z i) as [->|Hne]; [exact Hi|].
    apply (IH (i + 1)%Z Hrest). lia.
Qed.

Lemma all_nibbles (test : Z -> bool) :
  all_from 16 0 test = true ->
  forall z, (0 <= z < 16)%Z -> test z = true.
Proof.
  intros H z Hz. apply (all_from_spec test _ 0%Z H).
  change (Z.of_nat 16) with 16%Z. lia.
Qed.

Lemma all_bytes (test : Z -> bool) :
  all_from 256 0 test = true ->
  forall z, (0 <= z < 256)%Z -> test z = true.
Proof.
  intros H z Hz. apply (all_from_spec test _ 0%Z H).
  change (Z.of_nat 256) with 256%Z. lia.
Qed.

Lemma all_flags_complete n zs : length zs = n -> In zs (all_flags n).
Proof.
  revert zs. induction n as [|n IH]; intros zs Hlen.
  - destruct zs; [left; reflexivity|discriminate].
  - destruct zs as [|z zs]; [discriminate|]. simpl.
    apply in_flat_map. exists zs. split; [apply IH; simpl in Hlen; lia|].
    destruct z; [left|right; left]; reflexivity.
Qed.

(** *** C10: the output parameter *)

(** C10.  Whatever [split_string] and [parse_long] answer, a call of
    [host_address_from_str] or of [socket_address_from_str] that
    returns [STATUS_FAILURE] leaves [*addr_out] as it was. *)
Theorem from_str_failure_keeps_output
    (split_string : string -> ascii -> option (string * string))
    (parse_long : string -> option Z) (little_endian : bool)
    (str : string) (host_out : HostAddress) (socket_out : SocketAddress) :
  (fst (host_address_from_str split_string str host_out) = STATUS_FAILURE ->
   snd (host_address_from_str split_string str host_out) = host_out)
  /\ (fst (socket_address_from_str split_string parse_long little_endian
             str socket_out) = STATUS_FAILURE ->
      snd (socket_address_from_str split_string parse_long little_endian
             str socket_out) = socket_out).
Proof.
  split.
  - unfold host_address_from_str.
    destruct (Ascii.eqb _ _).
    + destruct (split_string _ _) as [[ip6_str suffix]|]; [|reflexivity].
      destruct (Libc.inet_pton _ _); [discriminate|reflexivity].
    + destruct (Libc.inet_pton _ _); [discriminate|reflexivity].
  - unfold socket_address_from_str.
    destruct (split_string str ":"%char) as [[host_str port_str]|]; [|reflexivity].
    destruct port_str as [|c port_str]; [reflexivity|].
    destruct (parse_long _) as [n|]; [|reflexivity].
    destruct (host_address_from_str split_string host_str _) as [[] h];
      [discriminate|reflexivity].
Qed.

Lemma from_str_failure_keeps_output_witness :
  host_address_from_str Helpers.split_string "300.1.1.1"
    (mk_HostAddress NETWORK_INET6 (repeat 255%Z 16))
  = (STATUS_FAILURE, mk_HostAddress NETWORK_INET6 (repeat 255%Z 16))
  /\ snd (socket_address_from_str Helpers.split_string Helpers.parse_long true
            "[::1]" (mk_SocketAddress zero_HostAddress 80))
     = mk_SocketAddress zero_HostAddress 80.
Proof.
  split; [reflexivity|].
  apply (from_str_failure_keeps_output Helpers.split_string Helpers.parse_long
           true "[::1]" zero_HostAddress).
  reflexivity.
Defined.

(** *** Digits *)

Lemma nibbles_checked d : (0 <= d < 16)%Z -> nibble_ok d = true.
Proof. apply all_nibbles. vm_compute. reflexivity. Qed.

Lemma octets_checked b : (0 <= b < 256)%Z -> octet_ok b = true.
Proof. apply all_bytes. vm_compute. reflexivity. Qed.

Lemma lut_hex_digit_char d : (0 <= d < 16)%Z -> lut d = hex_digit_char d.
Proof.
  intros Hd. pose proof (nibbles_checked d Hd) as H. unfold nibble_ok in H.
  apply andb_true_iff in H. destruct H as [H _].
  apply Ascii.eqb_eq in H. exact H.
Qed.

Lemma hex_digit_value_char d :
  (0 <= d < 16)%Z -> Libc.hex_digit_value (hex_digit_char d) = d.
Proof.
  intros Hd. pose proof (nibbles_checked d Hd) as H. unfold nibble_ok in H.
  apply andb_true_iff in H. destruct H as [_ H].
  apply Z.eqb_eq in H. exact H.
Qed.

Lemma nibble_range v j : (0 <= nibble v j < 16)%Z.
Proof. unfold nibble. apply Z.mod_pos_bound. lia. Qed.

Lemma nibble_land v j :
  (0 <= j)%Z -> Z.land (Z.shiftr v (j * 4)) 15 = nibble v j.
Proof.
  intros Hj. unfold nibble.
  rewrite Z.shiftr_div_pow2 by lia.
  change 15%Z with (Z.ones 4). rewrite Z.land_ones by lia.
  rewrite (Z.mul_comm j 4), Z.pow_mul_r by lia. reflexivity.
Qed.

Lemma nibble_sum v :
  (0 <= v < 65536)%Z ->
  v = (((nibble v 3 * 16 + nibble v 2) * 16 + nibble v 1) * 16 + nibble v 0)%Z.
Proof.
  intros Hv. unfold nibble.
  change (16 ^ 3)%Z with 4096%Z. change (16 ^ 2)%Z with 256%Z.
  change (16 ^ 1)%Z with 16%Z. change (16 ^ 0)%Z with 1%Z.
  rewrite Z.div_1_r.
  assert (E1 : (v / 16 / 16 = v / 256)%Z) by (rewrite Z.div_div by lia; reflexivity).
  assert (E2 : (v / 256 / 16 = v / 4096)%Z) by (rewrite Z.div_div by lia; reflexivity).
  pose proof (Z.div_mod v 16 ltac:(lia)) as D0.
  pose proof (Z.div_mod (v / 16) 16 ltac:(lia)) as D1.
  pose proof (Z.div_mod (v / 256) 16 ltac:(lia)) as D2.
  rewrite E1 in D1. rewrite E2 in D2.
  assert (D3 : ((v / 4096) mod 16 = v / 4096)%Z).
  { apply Z.mod_small. split; [apply Z.div_pos; lia|].
    apply Z.div_lt_upper_bound; lia. }
  lia.
Qed.

(** The digits of [hex_of]: at least one, at most four, the first one
    not zero unless it is the only one, and their value is the group. *)
Lemma hex_of_digits v :
  (0 <= v < 65536)%Z ->
  exists ds,
    hex_of v = string_of_list_ascii (map hex_digit_char ds)
    /\ ds = drop_leading_zeros (hex_digits4 v)
    /\ ds <> []
    /\ (length ds <= 4)%nat
    /\ Forall (fun d => 0 <= d < 16)%Z ds
    /\ fold_left (fun a d => a * 16 + d)%Z ds 0%Z = v.
Proof.
  intros Hv. exists (drop_leading_zeros (hex_digits4 v)).
  split; [reflexivity|]. split; [reflexivity|].
  pose proof (nibble_sum v Hv) as Hsum.
  pose proof (nibble_range v 3). pose proof (nibble_range v 2).
  pose proof (nibble_range v 1). pose proof (nibble_range v 0).
  unfold hex_digits4. simpl drop_leading_zeros.
  destruct (Z.eqb_spec (nibble v 3) 0) as [E3|N3];
    [destruct (Z.eqb_spec (nibble v 2) 0) as [E2|N2];
     [destruct (Z.eqb_spec (nibble v 1) 0) as [E1|N1]|]|];
    (split; [discriminate|]); (split; [simpl; lia|]);
    (split; [repeat constructor; lia|]); simpl; lia.
Qed.

Lemma write_digits_hex v rest :
  (0 <= v < 65536)%Z -> write_digits 4 v false rest = hex_of v ++ rest.
Proof.
  intros Hv.
  pose proof (nibble_range v 3). pose proof (nibble_range v 2).
  pose proof (nibble_range v 1). pose proof (nibble_range v 0).
  unfold write_digits.
  rewrite !nibble_land by lia.
  change (Z.of_nat 3) with 3%Z. change (Z.of_nat 2) with 2%Z.
  change (Z.of_nat 1) with 1%Z. change (Z.of_nat 0) with 0%Z.
  rewrite !lut_hex_digit_char by assumption.
  unfold hex_of, hex_digits4. simpl drop_leading_zeros.
  destruct (nibble v 3 =? 0)%Z; destruct (nibble v 2 =? 0)%Z;
    destruct (nibble v 1 =? 0)%Z; destruct (nibble v 0 =? 0)%Z; reflexivity.
Qed.

Lemma lor_shiftl_digit val d :
  (0 <= val)%Z -> (0 <= d < 16)%Z ->
  Z.lor (Z.shiftl val 4) d = (val * 16 + d)%Z.
Proof.
  intros Hval Hd. rewrite Z.shiftl_mul_pow2 by lia. change (2 ^ 4)%Z with 16%Z.
  rewrite <- Z.add_lor_land.
  assert (Hland : Z.land (val * 16) d = 0%Z).
  { apply Z.bits_inj_0. intros n. rewrite Z.land_spec.
    destruct (Z.ltb_spec n 4) as [Hlow|Hhigh].
    - destruct (Z.ltb_spec n 0) as [Hneg|Hpos].
      + rewrite (Z.testbit_neg_r d) by lia. apply andb_false_r.
      + change 16%Z with (2 ^ 4)%Z.
        rewrite Z.mul_pow2_bits_low by lia. reflexivity.
    - assert (Hbit : Z.testbit d n = false).
      { destruct (Z.eq_dec d 0) as [->|Hd0]; [apply Z.bits_0|].
        apply Z.bits_above_log2; [lia|].
        apply Z.lt_le_trans with 4%Z; [|lia].
        apply Z.log2_lt_pow2; lia. }
      rewrite Hbit. apply andb_false_r. }
  rewrite Hland. lia.
Qed.

Lemma fold_digits_mono ds :
  forall val, (0 <= val)%Z -> Forall (fun d => 0 <= d < 16)%Z ds ->
              (val <= fold_left (fun a d => a * 16 + d)%Z ds val)%Z.
Proof.
  induction ds as [|d ds IH]; intros val Hval Hds; simpl; [lia|].
  inversion Hds as [|? ? Hd Hrest]; subst.
  specialize (IH (val * 16 + d)%Z ltac:(lia) Hrest). lia.
Qed.

Lemma scan_xdigits_digits ds :
  forall seen val,
    Forall (fun d => 0 <= d < 16)%Z ds ->
    (0 <= val)%Z -> (0 <= seen)%Z ->
    (seen + Z.of_nat (length ds) <= 4)%Z ->
    (fold_left (fun a d => a * 16 + d)%Z ds val <= 65535)%Z ->
    scan_xdigits (string_of_list_ascii (map hex_digit_char ds)) seen val
    = Some ((seen + Z.of_nat (length ds))%Z,
            fold_left (fun a d => a * 16 + d)%Z ds val).
Proof.
  induction ds as [|d ds IH]; intros seen val Hds Hval Hseen Hlen Hfold.
  - simpl. rewrite Z.add_0_r. reflexivity.
  - inversion Hds as [|? ? Hd Hrest]; subst.
    simpl length in *. simpl fold_left in *. simpl map. simpl string_of_list_ascii.
    simpl scan_xdigits. rewrite hex_digit_value_char by exact Hd.
    pose proof (fold_digits_mono ds (val * 16 + d)%Z ltac:(lia) Hrest).
    rewrite lor_shiftl_digit by assumption.
    destruct (Z.leb_spec 0 d); [|lia].
    destruct (Z.eqb_spec seen 4); [lia|].
    destruct (Z.ltb_spec 65535 (val * 16 + d)); [lia|].
    rewrite IH; try assumption; try lia.
    f_equal. f_equal. lia.
Qed.

Lemma hex_of_scan v :
  (0 <= v < 65536)%Z ->
  exists k, scan_xdigits (hex_of v) 0 0 = Some (k, v) /\ (0 < k)%Z.
Proof.
  intros Hv. destruct (hex_of_digits v Hv) as (ds & -> & _ & Hne & Hlen & Hds & Hval).
  exists (0 + Z.of_nat (length ds))%Z. split.
  - rewrite scan_xdigits_digits; try assumption; try lia.
    rewrite Hval. reflexivity.
  - destruct ds; [congruence|simpl length; lia].
Qed.

Lemma is_xdigit_hex_digit_char d : (0 <= d < 16)%Z -> is_xdigit (hex_digit_char d) = true.
Proof.
  intros Hd. unfold is_xdigit. rewrite hex_digit_value_char by exact Hd.
  apply Z.leb_le. lia.
Qed.

Lemma hex_of_xdigits v :
  (0 <= v < 65536)%Z ->
  all_chars is_xdigit (hex_of v) = true /\ hex_of v <> EmptyString.
Proof.
  intros Hv. destruct (hex_of_digits v Hv) as (ds & -> & _ & Hne & _ & Hds & _).
  split.
  - clear Hne. induction Hds as [|d ds Hd _ IH]; [reflexivity|].
    simpl. rewrite is_xdigit_hex_digit_char by exact Hd. exact IH.
  - destruct ds; [congruence|discriminate].
Qed.

Lemma word_bytes v :
  Z.land (Z.shiftr v 8) 255 = ((v / 256) mod 256)%Z
  /\ Z.land v 255 = (v mod 256)%Z.
Proof.
  change 255%Z with (Z.ones 8). rewrite !Z.land_ones by lia.
  rewrite Z.shiftr_div_pow2 by lia. split; reflexivity.
Qed.

(** *** Decimal text *)

Lemma code_char_of n : (0 <= n < 256)%Z -> Libc.code (Libc.char_of n) = n.
Proof.
  intros Hn. unfold Libc.code, Libc.char_of.
  rewrite N_ascii_embedding by lia. lia.
Qed.

Lemma isdigit_char_of d : (0 <= d < 10)%Z -> Libc.isdigit (Libc.char_of (48 + d)) = true.
Proof.
  intros Hd. unfold Libc.isdigit. rewrite code_char_of by lia.
  apply andb_true_iff. split; apply Z.leb_le; lia.
Qed.

(** The digits [fmt_u_aux] puts in front of [acc]. *)
Lemma fmt_u_aux_digits fuel :
  forall n acc,
    exists ds,
      Libc.fmt_u_aux fuel n acc = ds ++ acc
      /\ all_chars Libc.isdigit ds = true
      /\ ((0 < fuel)%nat -> ds <> EmptyString)
      /\ forall k, (0 <= n < 10 ^ Z.of_nat k)%Z -> (1 <= k)%nat ->
                   (String.length ds <= k)%nat.
Proof.
  induction fuel as [|fuel IH]; intros n acc.
  - exists EmptyString. repeat split; [lia| simpl; lia].
  - simpl Libc.fmt_u_aux.
    pose proof (Z.mod_pos_bound n 10 ltac:(lia)) as Hmod.
    destruct (Z.eqb_spec (n / 10) 0) as [Hq|Hq].
    + exists (String (Libc.char_of (48 + n mod 10)) EmptyString).
      split; [reflexivity|]. split.
      { simpl. rewrite isdigit_char_of by lia. reflexivity. }
      split; [discriminate|]. intros k _ Hk. simpl. lia.
    + destruct (IH (n / 10)%Z (String (Libc.char_of (48 + n mod 10)) acc))
        as (ds & Heq & Hdig & _ & Hlen).
      exists (ds ++ String (Libc.char_of (48 + n mod 10)) EmptyString).
      split; [rewrite Heq, append_assoc; reflexivity|]. split.
      { rewrite all_chars_append, Hdig. simpl.
        rewrite isdigit_char_of by lia. reflexivity. }
      split.
      { intros _ Hnil. apply (f_equal String.length) in Hnil.
        rewrite length_append in Hnil. simpl in Hnil. lia. }
      intros k Hn Hk. rewrite length_append. simpl String.length.
      destruct k as [|[|k]]; [lia| |].
      * exfalso. apply Hq. apply Z.div_small.
        change (10 ^ Z.of_nat 1)%Z with 10%Z in Hn. lia.
      * assert (String.length ds <= S k)%nat; [|lia].
        apply Hlen; [|lia]. split; [apply Z.div_pos; lia|].
        apply Z.div_lt_upper_bound; [lia|].
        replace (Z.of_nat (S (S k))) with (Z.succ (Z.of_nat (S k))) in Hn by lia.
        rewrite Z.pow_succ_r in Hn by lia. lia.
Qed.

Lemma parse_digits_fmt_u_aux fuel :
  forall n acc,
    (0 <= n < 10 ^ Z.of_nat fuel)%Z ->
    Helpers.parse_digits (Libc.fmt_u_aux fuel n acc) 0
    = Helpers.parse_digits acc n.
Proof.
  induction fuel as [|fuel IH]; intros n acc Hn.
  - simpl in *. replace n with 0%Z by lia. reflexivity.
  - simpl Libc.fmt_u_aux.
    pose proof (Z.mod_pos_bound n 10 ltac:(lia)) as Hmod.
    pose proof (Z.div_mod n 10 ltac:(lia)) as Hdm.
    assert (Hstep : forall a,
               Helpers.parse_digits
                 (String (Libc.char_of (48 + n mod 10)) acc) a
               = Helpers.parse_digits acc (a * 10 + n mod 10)%Z).
    { intros a. simpl. rewrite isdigit_char_of by lia.
      rewrite code_char_of by lia. f_equal. lia. }
    destruct (Z.eqb_spec (n / 10) 0) as [Hq|Hq].
    + rewrite Hstep. f_equal. lia.
    + rewrite IH, Hstep; [f_equal; lia|].
      split; [apply Z.div_pos; lia|].
      apply Z.div_lt_upper_bound; [lia|].
      replace (Z.of_nat (S fuel)) with (Z.succ (Z.of_nat fuel)) in Hn by lia.
      rewrite Z.pow_succ_r in Hn by lia. lia.
Qed.

(** The decimal text of a port: digits only, at most five, and
    [parse_long] reads the port back. *)
Lemma port_text v :
  (0 <= v < 65536)%Z ->
  Helpers.parse_long (Libc.fmt_u v) = Some v
  /\ all_chars Libc.isdigit (Libc.fmt_u v) = true
  /\ (String.length (Libc.fmt_u v) <= 5)%nat
  /\ Libc.fmt_u v <> EmptyString.
Proof.
  intros Hv. unfold Libc.fmt_u.
  destruct (fmt_u_aux_digits 10 v EmptyString) as (ds & Heq & Hdig & Hne & Hlen).
  assert (Hparse : Helpers.parse_digits (Libc.fmt_u_aux 10 v EmptyString) 0 = Some v).
  { rewrite parse_digits_fmt_u_aux; [reflexivity|].
    change (10 ^ Z.of_nat 10)%Z with 10000000000%Z. lia. }
  rewrite Heq, append_nil_r in *.
  specialize (Hne ltac:(lia)).
  split; [|split; [exact Hdig|split; [|exact Hne]]].
  - unfold Helpers.parse_long. destruct ds; [congruence|exact Hparse].
  - apply Hlen; [|lia]. change (10 ^ Z.of_nat 5)%Z with 100000%Z. lia.
Qed.

Lemma octet_text b :
  (0 <= b < 256)%Z ->
  scan_octet (Libc.fmt_u b) 0 false = Some b
  /\ all_chars Libc.isdigit (Libc.fmt_u b) = true
  /\ (String.length (Libc.fmt_u b) <= 3)%nat
  /\ Libc.fmt_u b <> EmptyString.
Proof.
  intros Hb. pose proof (octets_checked b Hb) as H. unfold octet_ok in H.
  repeat (apply andb_true_iff in H; destruct H as [H ?]).
  destruct (scan_octet (Libc.fmt_u b) 0 false) as [b'|] eqn:Hscan; [|discriminate].
  apply Z.eqb_eq in H. subst b'.
  repeat split; try assumption.
  - apply Nat.leb_le. assumption.
  - intros Hnil. rewrite Hnil in Hscan. discriminate.
Qed.

(** *** inet_pton on dotted-quad text *)

Lemma inet_pton4_loop_octet s :
  forall cur saw_digit done octets v rest,
    scan_octet s cur saw_digit = Some v ->
    (saw_digit = true \/ octets + 1 <= 4)%Z ->
    exists octets',
      Libc.inet_pton4_loop (s ++ rest) done cur saw_digit octets
      = Libc.inet_pton4_loop rest done v true octets'
      /\ (octets' = if saw_digit then octets else octets + 1)%Z.
Proof.
  induction s as [|ch s IH]; intros cur saw done octets v rest Hscan Hoct.
  - simpl in Hscan. destruct saw; [|discriminate]. injection Hscan as <-.
    exists octets. split; reflexivity.
  - rewrite append_cons. simpl in Hscan |- *.
    destruct (Libc.isdigit ch); [|discriminate].
    destruct (saw && (cur =? 0)%Z); [discriminate|].
    destruct (255 <? cur * 10 + (Libc.code ch - 48))%Z; [discriminate|].
    destruct saw.
    + destruct (IH _ true done octets v rest Hscan) as (o' & Heq & Ho');
        [left; reflexivity|].
      exists o'. split; assumption.
    + destruct Hoct as [Hoct|Hoct]; [discriminate|].
      destruct (Z.ltb_spec 4 (octets + 1)); [lia|].
      destruct (IH _ true done (octets + 1)%Z v rest Hscan) as (o' & Heq & Ho');
        [left; reflexivity|].
      exists o'. split; [exact Heq|exact Ho'].
Qed.

Lemma inet_pton4_dotted b0 b1 b2 b3 :
  (0 <= b0 < 256)%Z -> (0 <= b1 < 256)%Z ->
  (0 <= b2 < 256)%Z -> (0 <= b3 < 256)%Z ->
  Libc.inet_pton4
    (Libc.fmt_u b0 ++ "." ++ Libc.fmt_u b1 ++ "." ++ Libc.fmt_u b2 ++ "."
     ++ Libc.fmt_u b3)
  = Some [b0; b1; b2; b3].
Proof.
  intros H0 H1 H2 H3. unfold Libc.inet_pton4.
  destruct (octet_text b0 H0) as (S0 & _). destruct (octet_text b1 H1) as (S1 & _).
  destruct (octet_text b2 H2) as (S2 & _). destruct (octet_text b3 H3) as (S3 & _).
  assert (Hdot : forall rest done v octets,
             (octets < 4)%Z ->
             Libc.inet_pton4_loop (String "." rest) done v true octets
             = Libc.inet_pton4_loop rest (done ++ [v]) 0 false octets).
  { intros rest done v octets Ho. simpl.
    destruct (Z.eqb_spec octets 4); [lia|reflexivity]. }
  destruct (inet_pton4_loop_octet _ 0%Z false [] 0%Z b0
              ("." ++ Libc.fmt_u b1 ++ "." ++ Libc.fmt_u b2 ++ "." ++ Libc.fmt_u b3)
              S0 ltac:(right; lia)) as (o0 & -> & ->).
  rewrite append_cons, append_nil_l, Hdot by lia.
  destruct (inet_pton4_loop_octet _ 0%Z false ([] ++ [b0]) (0 + 1)%Z b1
              ("." ++ Libc.fmt_u b2 ++ "." ++ Libc.fmt_u b3)
              S1 ltac:(right; lia)) as (o1 & -> & ->).
  rewrite append_cons, append_nil_l, Hdot by lia.
  destruct (inet_pton4_loop_octet _ 0%Z false (([] ++ [b0]) ++ [b1]) (0 + 1 + 1)%Z b2
              ("." ++ Libc.fmt_u b3)
              S2 ltac:(right; lia)) as (o2 & -> & ->).
  rewrite append_cons, append_nil_l, Hdot by lia.
  rewrite <- (append_nil_r (Libc.fmt_u b3)).
  destruct (inet_pton4_loop_octet _ 0%Z false ((([] ++ [b0]) ++ [b1]) ++ [b2])
              (0 + 1 + 1 + 1)%Z b3 EmptyString
              S3 ltac:(right; lia)) as (o3 & -> & ->).
  reflexivity.
Qed.

(** *** Byte order *)

Lemma ntohs_load16 little_endian b0 b1 :
  byte_ok b0 -> byte_ok b1 ->
  Libc.ntohs little_endian (Libc.load16 little_endian b0 b1) = (b0 * 256 + b1)%Z.
Proof.
  unfold byte_ok, Libc.ntohs, Libc.htons, Libc.load16, Libc.bswap16.
  intros H0 H1. destruct little_endian.
  - rewrite (Z.mod_small (b0 + 256 * b1) 65536) by lia.
    replace (b0 + 256 * b1)%Z with (b0 + b1 * 256)%Z by lia.
    rewrite Z.mod_add, Z.div_add by lia.
    rewrite (Z.mod_small b0), (Z.div_small b0), (Z.mod_small (0 + b1)) by lia. lia.
  - rewrite Z.mod_small by lia. lia.
Qed.

Lemma load16_zero little_endian b0 b1 :
  byte_ok b0 -> byte_ok b1 ->
  (Libc.load16 little_endian b0 b1 =? 0)%Z = (b0 * 256 + b1 =? 0)%Z.
Proof.
  unfold byte_ok, Libc.load16. intros H0 H1.
  destruct little_endian;
    destruct (Z.eqb_spec (b0 * 256 + b1) 0);
    match goal with |- (?x =? 0)%Z = _ => destruct (Z.eqb_spec x 0) end;
    try reflexivity; lia.
Qed.

Lemma htons_ntohs little_endian x :
  (0 <= x < 65536)%Z ->
  Libc.htons little_endian (Libc.ntohs little_endian x) = x.
Proof.
  intros Hx. unfold Libc.ntohs, Libc.htons, Libc.bswap16.
  rewrite (Z.mod_small x 65536) by lia.
  destruct little_endian; [|rewrite Z.mod_small by lia; reflexivity].
  pose proof (Z.mod_pos_bound x 256 ltac:(lia)) as Hr.
  assert (Hq : (0 <= x / 256 < 256)%Z)
    by (split; [apply Z.div_pos; lia|apply Z.div_lt_upper_bound; lia]).
  pose proof (Z.div_mod x 256 ltac:(lia)) as Hdm.
  rewrite (Z.mod_small (x / 256) 256) by lia.
  rewrite (Z.mod_small (x mod 256 * 256 + x / 256) 65536) by lia.
  assert (Hlow : ((x mod 256 * 256 + x / 256) mod 256 = x / 256)%Z).
  { rewrite Z.add_comm, Z.mod_add by lia. apply Z.mod_small. lia. }
  assert (Hhigh : ((x mod 256 * 256 + x / 256) / 256 = x mod 256)%Z).
  { rewrite Z.add_comm, Z.div_add by lia. rewrite Z.div_small by lia. lia. }
  rewrite Hlow, Hhigh, (Z.mod_small (x mod 256)) by lia. lia.
Qed.

Lemma ntohs_range little_endian x : (0 <= Libc.ntohs little_endian x < 65536)%Z.
Proof.
  unfold Libc.ntohs, Libc.htons, Libc.bswap16.
  pose proof (Z.mod_pos_bound x 65536 ltac:(lia)).
  destruct little_endian; [|assumption].
  pose proof (Z.mod_pos_bound (x mod 65536) 256 ltac:(lia)).
  pose proof (Z.mod_pos_bound (x mod 65536 / 256) 256 ltac:(lia)). lia.
Qed.

(** *** The groups of a 16-byte address *)

Lemma nth_byte_ok ip i : Forall byte_ok ip -> byte_ok (nth i ip 0%Z).
Proof.
  intros Hip. revert i. induction Hip as [|b ip Hb _ IH]; intros [|i]; simpl;
    try (unfold byte_ok; lia); auto.
Qed.

Lemma nth_group_values ip i d :
  (i < 8)%nat ->
  nth i (group_values ip) d
  = (nth (2 * i) ip 0 * 256 + nth (2 * i + 1) ip 0)%Z.
Proof.
  intros Hi. unfold group_values.
  do 8 (destruct i as [|i]; [reflexivity|]). lia.
Qed.

Lemma group_values_length ip : length (group_values ip) = 8%nat.
Proof. reflexivity. Qed.

Lemma group_values_range ip :
  Forall byte_ok ip -> Forall (fun g => 0 <= g < 65536)%Z (group_values ip).
Proof.
  intros Hip. unfold group_values. apply Forall_map, Forall_forall.
  intros i _. pose proof (nth_byte_ok ip (2 * i) Hip) as H0.
  pose proof (nth_byte_ok ip (2 * i + 1) Hip) as H1.
  unfold byte_ok in *. lia.
Qed.

Lemma pun16_group little_endian ip i :
  Forall byte_ok ip -> (i < 8)%nat ->
  Libc.ntohs little_endian (pun16 little_endian ip (Z.of_nat i))
  = nth i (group_values ip) 0%Z
  /\ (pun16 little_endian ip (Z.of_nat i) =? 0)%Z
     = (nth i (group_values ip) 1 =? 0)%Z.
Proof.
  intros Hip Hi. rewrite !nth_group_values by exact Hi. unfold pun16.
  replace (Z.to_nat (2 * Z.of_nat i)) with (2 * i)%nat by lia.
  replace (Z.to_nat (2 * Z.of_nat i + 1)) with (2 * i + 1)%nat by lia.
  split; [apply ntohs_load16|apply load16_zero]; apply nth_byte_ok, Hip.
Qed.

(** *** The search for the largest sequence of zeroes *)

Lemma scan_step_ext pun pun' i st :
  (pun i =? 0)%Z = (pun' i =? 0)%Z -> scan_step pun i st = scan_step pun' i st.
Proof. intros H. unfold scan_step. rewrite H. reflexivity. Qed.

Lemma scan_loop_ext pun pun' n :
  forall i st,
    (forall j, (i <= j < i + Z.of_nat n)%Z -> (pun j =? 0)%Z = (pun' j =? 0)%Z) ->
    scan_loop n pun i st = scan_loop n pun' i st.
Proof.
  induction n as [|n IH]; intros i st Hext; [reflexivity|].
  simpl. rewrite (scan_step_ext pun pun' i st) by (apply Hext; lia).
  apply IH. intros j Hj. apply Hext. lia.
Qed.

Lemma nth_zero_flags gs i : nth i (zero_flags gs) false = (nth i gs 1 =? 0)%Z.
Proof. unfold zero_flags. apply (map_nth (fun g => g =? 0)%Z gs 1%Z). Qed.

Lemma zero_run_atb_spec gs p l :
  zero_run_atb (zero_flags gs) p l = true <-> is_zero_run gs p l.
Proof.
  unfold zero_run_atb, is_zero_run, zero_flags. rewrite length_map.
  rewrite !andb_true_iff, !Nat.leb_le, forallb_forall.
  split.
  - intros [[H1 H2] H3]. split; [exact H1|]. split; [exact H2|].
    intros i Hi. apply Z.eqb_eq. rewrite <- nth_zero_flags.
    apply H3. apply in_seq. lia.
  - intros (H1 & H2 & H3). split; [split; assumption|].
    intros i Hi. apply in_seq in Hi. fold (zero_flags gs).
    rewrite nth_zero_flags. apply Z.eqb_eq. apply H3. lia.
Qed.

Lemma flags_checked zs : length zs = 8%nat -> scan_result_ok zs = true.
Proof.
  intros Hlen.
  assert (H : forallb scan_result_ok (all_flags 8) = true) by (vm_compute; reflexivity).
  rewrite forallb_forall in H. apply H, all_flags_complete, Hlen.
Qed.

(** The search ends on the longest run of zero groups, the earliest
    one among the longest, or on [maxpos = -1] when no group is zero. *)
Lemma scan_loop_longest little_endian ip :
  Forall byte_ok ip ->
  let gs := group_values ip in
  let st := scan_loop 8 (pun16 little_endian ip) 0 (mk_zero_scan (-1) 0 (-1) 0) in
  (maxpos st = (-1)%Z /\ forall i, (i < 8)%nat -> nth i gs 0%Z <> 0%Z)
  \/ exists p l, maxpos st = Z.of_nat p /\ maxlen st = Z.of_nat l
                 /\ longest_earliest_run gs p l.
Proof.
  intros Hip gs st.
  assert (Hst : st = scan_loop 8 (flags_pun (zero_flags gs)) 0
                       (mk_zero_scan (-1) 0 (-1) 0)).
  { apply scan_loop_ext. intros j Hj.
    replace j with (Z.of_nat (Z.to_nat j)) by lia.
    rewrite (proj2 (pun16_group little_endian ip (Z.to_nat j) Hip ltac:(lia))).
    unfold flags_pun. rewrite Nat2Z.id, nth_zero_flags.
    fold gs. destruct (nth (Z.to_nat j) gs 1 =? 0)%Z; reflexivity. }
  pose proof (flags_checked (zero_flags gs) eq_refl) as Hok.
  unfold scan_result_ok in Hok. rewrite <- Hst in Hok.
  destruct (Z.eqb_spec (maxpos st) (-1)) as [Hneg|Hpos].
  - left. split; [exact Hneg|].
    apply andb_true_iff in Hok. destruct Hok as [_ Hnone].
    rewrite forallb_forall in Hnone.
    intros i Hi Hzero.
    assert (Hin : In (nth i (zero_flags gs) false) (zero_flags gs))
      by (apply nth_In; unfold zero_flags; rewrite length_map; exact Hi).
    specialize (Hnone _ Hin). rewrite nth_zero_flags in Hnone.
    rewrite (nth_indep gs 1%Z 0%Z) in Hnone by exact Hi.
    rewrite Hzero in Hnone. discriminate.
  - right. exists (Z.to_nat (maxpos st)), (Z.to_nat (maxlen st)).
    repeat (apply andb_true_iff in Hok; destruct Hok as [Hok ?]).
    apply Z.leb_le in Hok.
    match goal with H : (0 <=? maxlen st)%Z = true |- _ => apply Z.leb_le in H end.
    split; [lia|]. split; [lia|]. split.
    + apply zero_run_atb_spec. assumption.
    + intros p' l' Hrun.
      match goal with H : forallb _ run_candidates = true |- _ =>
        rewrite forallb_forall in H; specialize (H (p', l')); rename H into Hall end.
      assert (Hin : In (p', l') run_candidates).
      { destruct Hrun as (Hl1 & Hl2 & _). unfold gs in Hl2.
        rewrite group_values_length in Hl2.
        apply in_prod; apply in_seq; lia. }
      specialize (Hall Hin). cbn [fst snd] in Hall.
      rewrite (proj2 (zero_run_atb_spec gs p' l') Hrun) in Hall.
      cbn [implb] in Hall.
      apply orb_true_iff in Hall. destruct Hall as [Hlt|Heq].
      * left. apply Nat.ltb_lt. exact Hlt.
      * right. apply andb_true_iff in Heq. destruct Heq as [He Hle].
        apply Nat.eqb_eq in He. apply Nat.leb_le in Hle. split; assumption.
Qed.

(** *** The loop that writes the groups *)

Lemma colon_joined_cons g l :
  colon_joined (g :: l) = hex_of g ++ sep_joined true l.
Proof.
  unfold colon_joined. destruct l as [|g' l]; simpl.
  - rewrite append_nil_r. reflexivity.
  - reflexivity.
Qed.

Lemma sep_joined_false l : sep_joined false l = colon_joined l.
Proof. destruct l; reflexivity. Qed.

Lemma sep_joined_cons flag g l :
  sep_joined flag (g :: l)
  = (if flag then ":" else EmptyString) ++ hex_of g ++ sep_joined true l.
Proof. unfold sep_joined at 1. rewrite colon_joined_cons. reflexivity. Qed.

Lemma skipn_nth_cons {A} (l : list A) (i : nat) (d : A) :
  (i < length l)%nat -> skipn i l = nth i l d :: skipn (S i) l.
Proof.
  revert i. induction l as [|x l IH]; intros i Hi; simpl in Hi; [lia|].
  destruct i as [|i]; [reflexivity|]. simpl. apply IH. lia.
Qed.

Lemma write_groups_unfold little_endian fuel pun maxpos maxlen i flag :
  write_groups little_endian (S fuel) pun maxpos maxlen i flag
  = if (i <? 8)%Z then
      if (i =? maxpos)%Z then
        String ":" (String ":"
          (write_groups little_endian fuel pun maxpos maxlen
             (i + (maxlen - 1) + 1) false))
      else
        if flag
        then String ":"
               (write_digits 4 (Libc.ntohs little_endian (pun i)) false
                  (write_groups little_endian fuel pun maxpos maxlen (i + 1) true))
        else write_digits 4 (Libc.ntohs little_endian (pun i)) false
               (write_groups little_endian fuel pun maxpos maxlen (i + 1) true)
    else EmptyString.
Proof. reflexivity. Qed.

Section Writer.

Variable little_endian : bool.
Variable pun : Z -> Z.
Variable gs : list Z.
Hypothesis gs_length : length gs = 8%nat.
Hypothesis gs_range : Forall (fun g => 0 <= g < 65536)%Z gs.
Hypothesis pun_gs :
  forall i, (i < 8)%nat -> Libc.ntohs little_endian (pun (Z.of_nat i)) = nth i gs 0%Z.

Lemma nth_gs_range i : (0 <= nth i gs 0 < 65536)%Z.
Proof.
  destruct (Nat.lt_ge_cases i (length gs)) as [Hi|Hi].
  - apply (proj1 (List.Forall_forall _ gs) gs_range). apply nth_In, Hi.
  - rewrite nth_overflow by exact Hi. lia.
Qed.

(** One round of the loop on a group that is written. *)
Lemma write_groups_emit fuel maxpos maxlen i flag :
  (i < 8)%nat -> Z.of_nat i <> maxpos ->
  write_groups little_endian (S fuel) pun maxpos maxlen (Z.of_nat i) flag
  = (if flag then ":" else EmptyString)
    ++ hex_of (nth i gs 0%Z)
    ++ write_groups little_endian fuel pun maxpos maxlen (Z.of_nat (S i)) true.
Proof.
  intros Hi Hne. rewrite write_groups_unfold.
  destruct (Z.ltb_spec (Z.of_nat i) 8); [|lia].
  destruct (Z.eqb_spec (Z.of_nat i) maxpos); [contradiction|].
  rewrite pun_gs by exact Hi.
  rewrite write_digits_hex by apply nth_gs_range.
  replace (Z.of_nat i + 1)%Z with (Z.of_nat (S i)) by lia.
  destruct flag; reflexivity.
Qed.

(** Past the run (or without one) every remaining group is written. *)
Lemma write_groups_rest fuel :
  forall maxpos maxlen i flag,
    (maxpos < Z.of_nat i)%Z -> (i <= 8)%nat -> (8 - i <= fuel)%nat ->
    write_groups little_endian fuel pun maxpos maxlen (Z.of_nat i) flag
    = sep_joined flag (skipn i gs).
Proof.
  induction fuel as [|fuel IH]; intros maxpos maxlen i flag Hmax Hi Hfuel.
  - assert (i = 8%nat) by lia. subst i.
    rewrite skipn_all2 by lia. reflexivity.
  - destruct (Nat.eq_dec i 8%nat) as [->|Hne].
    + rewrite skipn_all2 by lia. reflexivity.
    + rewrite write_groups_emit by lia.
      rewrite IH by lia.
      rewrite (skipn_nth_cons gs i 0%Z) by lia.
      rewrite sep_joined_cons. reflexivity.
Qed.

(** Before the run the groups are written, then ["::"], then the
    groups after the run. *)
Lemma write_groups_run fuel :
  forall p l i flag,
    (i <= p)%nat -> (1 <= l)%nat -> (p + l <= 8)%nat -> (8 - i <= fuel)%nat ->
    write_groups little_endian fuel pun (Z.of_nat p) (Z.of_nat l) (Z.of_nat i) flag
    = sep_joined flag (firstn (p - i) (skipn i gs))
      ++ "::" ++ colon_joined (skipn (p + l) gs).
Proof.
  induction fuel as [|fuel IH]; intros p l i flag Hip Hl Hpl Hfuel; [lia|].
  destruct (Nat.eq_dec i p) as [->|Hne].
  - replace (p - p)%nat with 0%nat by lia. simpl firstn.
    rewrite write_groups_unfold.
    destruct (Z.ltb_spec (Z.of_nat p) 8); [|lia].
    rewrite Z.eqb_refl.
    replace (Z.of_nat p + (Z.of_nat l - 1) + 1)%Z with (Z.of_nat (p + l)) by lia.
    rewrite write_groups_rest by lia.
    rewrite sep_joined_false. reflexivity.
  - rewrite write_groups_emit by lia.
    rewrite IH by lia.
    rewrite (skipn_nth_cons gs i 0%Z) by lia.
    replace (p - i)%nat with (S (p - S i)) by lia.
    simpl firstn. rewrite sep_joined_cons, !append_assoc. reflexivity.
Qed.

End Writer.

(** *** C5: the text of a host address *)

Lemma dotted_quad_length b0 b1 b2 b3 :
  (0 <= b0 < 256)%Z -> (0 <= b1 < 256)%Z ->
  (0 <= b2 < 256)%Z -> (0 <= b3 < 256)%Z ->
  (String.length
     (Libc.fmt_u b0 ++ "." ++ Libc.fmt_u b1 ++ "." ++ Libc.fmt_u b2 ++ "."
      ++ Libc.fmt_u b3) <= 15)%nat.
Proof.
  intros H0 H1 H2 H3.
  destruct (octet_text b0 H0) as (_ & _ & L0 & _).
  destruct (octet_text b1 H1) as (_ & _ & L1 & _).
  destruct (octet_text b2 H2) as (_ & _ & L2 & _).
  destruct (octet_text b3 H3) as (_ & _ & L3 & _).
  rewrite !length_append. simpl String.length. lia.
Qed.

Lemma host_address_to_str_inet little_endian ip :
  (4 <= length ip)%nat -> Forall byte_ok ip ->
  host_address_to_str little_endian (mk_HostAddress NETWORK_INET ip)
  = Libc.fmt_u (nth 0 ip 0%Z) ++ "." ++ Libc.fmt_u (nth 1 ip 0%Z) ++ "."
    ++ Libc.fmt_u (nth 2 ip 0%Z) ++ "." ++ Libc.fmt_u (nth 3 ip 0%Z)
  /\ host_address_to_str little_endian (mk_HostAddress NETWORK_INET ip)
     = dotted_quad ip.
Proof.
  intros Hlen Hip.
  assert (Heq : host_address_to_str little_endian (mk_HostAddress NETWORK_INET ip)
                = Libc.fmt_u (nth 0 ip 0%Z) ++ "." ++ Libc.fmt_u (nth 1 ip 0%Z) ++ "."
                  ++ Libc.fmt_u (nth 2 ip 0%Z) ++ "." ++ Libc.fmt_u (nth 3 ip 0%Z)).
  { unfold host_address_to_str, Libc.snprintf. simpl type. simpl NetworkC.ip.
    apply substring_whole.
    pose proof (dotted_quad_length _ _ _ _ (nth_byte_ok ip 0 Hip) (nth_byte_ok ip 1 Hip)
                  (nth_byte_ok ip 2 Hip) (nth_byte_ok ip 3 Hip)) as Hl.
    unfold ADDRESS_MAX_LEN. change (Z.to_nat (48 - 1)) with 47%nat. lia. }
  split; [exact Heq|]. rewrite Heq. unfold dotted_quad.
  destruct ip as [|b0 [|b1 [|b2 [|b3 ip]]]]; simpl in Hlen; try lia.
  simpl. reflexivity.
Qed.

Lemma host_address_to_str_inet6 little_endian ip :
  Forall byte_ok ip ->
  let gs := group_values ip in
  (exists p l, longest_earliest_run gs p l
               /\ host_address_to_str little_endian (mk_HostAddress NETWORK_INET6 ip)
                  = ipv6_text gs (Some (p, l)))
  \/ ((forall i, (i < 8)%nat -> nth i gs 0%Z <> 0%Z)
      /\ host_address_to_str little_endian (mk_HostAddress NETWORK_INET6 ip)
         = ipv6_text gs None).
Proof.
  intros Hip gs.
  assert (Hpun : forall i, (i < 8)%nat ->
             Libc.ntohs little_endian (pun16 little_endian ip (Z.of_nat i))
             = nth i gs 0%Z)
    by (intros i Hi; apply pun16_group; assumption).
  pose proof (group_values_range ip Hip) as Hrange.
  unfold host_address_to_str. simpl type. simpl NetworkC.ip.
  destruct (scan_loop_longest little_endian ip Hip)
    as [[Hneg Hnone]|(p & l & Hp & Hl & Hrun)].
  - right. split; [exact Hnone|]. rewrite Hneg.
    rewrite (write_groups_rest little_endian _ gs eq_refl Hrange Hpun 8 (-1)%Z _ 0%nat false)
      by lia.
    simpl skipn. rewrite sep_joined_false. reflexivity.
  - left. exists p, l. split; [exact Hrun|]. rewrite Hp, Hl.
    destruct Hrun as [(Hl1 & Hl2 & _) _]. unfold gs in Hl2.
    rewrite group_values_length in Hl2.
    pose proof (write_groups_run little_endian _ gs eq_refl Hrange Hpun 8 p l
                  0%nat false ltac:(lia) Hl1 Hl2 ltac:(lia)) as Hw.
    change (Z.of_nat 0) with 0%Z in Hw. rewrite Hw.
    rewrite Nat.sub_0_r. simpl skipn at 1. rewrite sep_joined_false.
    unfold ipv6_text. rewrite !append_assoc. reflexivity.
Qed.

(** C5.  For an address of sixteen bytes, [host_address_to_str] writes
    the dotted quad of the first four bytes of an IPv4 address, and for
    an IPv6 address the bracketed groups in lowercase hexadecimal
    without leading zeros, with ["::"] in place of the longest run of
    zero groups (of length one or more), the earliest one among the
    longest. *)
Theorem host_address_to_str_canonical little_endian a :
  length (ip a) = 16%nat ->
  Forall byte_ok (ip a) ->
  canonical_host_text a (host_address_to_str little_endian a).
Proof.
  intros Hlen Hip. destruct a as [ty bytes]. simpl in Hlen, Hip.
  unfold canonical_host_text. simpl type. simpl ip.
  destruct ty.
  - apply (host_address_to_str_inet little_endian bytes); [lia|exact Hip].
  - apply host_address_to_str_inet6, Hip.
Qed.

(** *** inet_pton on the text of an IPv6 address *)

Lemma bytes_of_app l1 l2 :
  bytes_of (l1 ++ l2)%list = (bytes_of l1 ++ bytes_of l2)%list.
Proof. apply flat_map_app. Qed.

Lemma bytes_of_length l : length (bytes_of l) = (2 * length l)%nat.
Proof. induction l as [|g l IH]; simpl; [reflexivity|]. rewrite IH. lia. Qed.

Lemma bytes_of_zeros n : bytes_of (repeat 0%Z n) = repeat 0%Z (2 * n).
Proof.
  induction n as [|n IH]; [reflexivity|].
  replace (2 * S n)%nat with (S (S (2 * n))) by lia. simpl. f_equal. f_equal. exact IH.
Qed.

Lemma group_bytes_pair b0 b1 :
  byte_ok b0 -> byte_ok b1 -> group_bytes (b0 * 256 + b1) = [b0; b1].
Proof.
  unfold byte_ok, group_bytes. intros H0 H1.
  destruct (word_bytes (b0 * 256 + b1)) as [-> ->].
  assert (Hhigh : ((b0 * 256 + b1) / 256 = b0)%Z)
    by (rewrite Z.div_add_l by lia; rewrite Z.div_small by lia; lia).
  assert (Hlow : ((b0 * 256 + b1) mod 256 = b1)%Z)
    by (rewrite Z.add_comm, Z.mod_add by lia; apply Z.mod_small; lia).
  rewrite Hhigh, Hlow, Z.mod_small by lia. reflexivity.
Qed.

Lemma bytes_of_group_values ip :
  length ip = 16%nat -> Forall byte_ok ip -> bytes_of (group_values ip) = ip.
Proof.
  intros Hlen Hip.
  do 16 (destruct ip as [|? ip]; [discriminate|]).
  destruct ip; [|discriminate].
  repeat match goal with
         | H : Forall _ (_ :: _) |- _ => inversion H; subst; clear H
         end.
  unfold group_values, bytes_of.
  cbn [map seq flat_map nth Nat.mul Nat.add app].
  rewrite !group_bytes_pair by assumption. reflexivity.
Qed.

Lemma inet_pton6_loop_xdigits s :
  forall rest curtok tmp colonp seen val seen' val',
    scan_xdigits s seen val = Some (seen', val') ->
    Libc.inet_pton6_loop (s ++ rest) curtok tmp colonp seen val
    = Libc.inet_pton6_loop rest curtok tmp colonp seen' val'.
Proof.
  induction s as [|ch s IH]; intros rest curtok tmp colonp seen val seen' val' Hscan.
  - injection Hscan as <- <-. reflexivity.
  - rewrite append_cons. simpl in Hscan |- *.
    destruct (0 <=? Libc.hex_digit_value ch)%Z; [|discriminate].
    destruct (seen =? 4)%Z; [discriminate|].
    destruct (65535 <? Z.lor (Z.shiftl val 4) (Libc.hex_digit_value ch))%Z;
      [discriminate|].
    apply IH, Hscan.
Qed.

Lemma inet_pton6_loop_group g rest curtok tmp colonp :
  (0 <= g < 65536)%Z ->
  exists k, (0 < k)%Z
    /\ Libc.inet_pton6_loop (hex_of g ++ rest) curtok tmp colonp 0 0
       = Libc.inet_pton6_loop rest curtok tmp colonp k g.
Proof.
  intros Hg. destruct (hex_of_scan g Hg) as (k & Hscan & Hk).
  exists k. split; [exact Hk|]. apply inet_pton6_loop_xdigits, Hscan.
Qed.

(** A colon after the digits of a group stores the group. *)
Lemma inet_pton6_loop_flush rest curtok tmp colonp k g :
  (0 < k)%Z -> rest <> EmptyString -> (length tmp + 2 <= 16)%nat ->
  Libc.inet_pton6_loop (String ":" rest) curtok tmp colonp k g
  = Libc.inet_pton6_loop rest rest (tmp ++ group_bytes g)%list colonp 0 0.
Proof.
  intros Hk Hrest Hlen. destruct rest as [|c rest]; [congruence|].
  simpl. destruct (Z.eqb_spec k 0); [lia|].
  unfold Libc.zlen. destruct (Z.ltb_spec 16 (Z.of_nat (length tmp) + 2)); [lia|].
  reflexivity.
Qed.

(** A colon with no digit before it marks the place of the zeroes. *)
Lemma inet_pton6_loop_mark rest curtok tmp val :
  Libc.inet_pton6_loop (String ":" rest) curtok tmp None 0 val
  = Libc.inet_pton6_loop rest rest tmp (Some (length tmp)) 0 val.
Proof. reflexivity. Qed.

Lemma hex_of_first_char g :
  (0 <= g < 65536)%Z ->
  exists c t, hex_of g = String c t /\ is_xdigit c = true.
Proof.
  intros Hg. destruct (hex_of_xdigits g Hg) as [Hall Hne].
  destruct (hex_of g) as [|c t]; [congruence|].
  exists c, t. split; [reflexivity|].
  simpl in Hall. apply andb_true_iff in Hall. apply Hall.
Qed.

Lemma colon_joined_first_char g l rest :
  (0 <= g < 65536)%Z ->
  exists c t, colon_joined (g :: l) ++ rest = String c t /\ is_xdigit c = true.
Proof.
  intros Hg. destruct (hex_of_first_char g Hg) as (c & t & Heq & Hc).
  rewrite colon_joined_cons, Heq. eexists c, _. split; [|exact Hc].
  rewrite append_assoc, append_cons. reflexivity.
Qed.

(** Reading a non-empty colon-separated list of groups: all but the
    last one are stored, the last one is held in [val]. *)
Lemma inet_pton6_loop_groups gs :
  forall rest curtok tmp colonp,
    gs <> [] ->
    Forall (fun g => 0 <= g < 65536)%Z gs ->
    (length tmp + 2 * length gs <= 16)%nat ->
    exists curtok' k,
      (0 < k)%Z
      /\ Libc.inet_pton6_loop (colon_joined gs ++ rest) curtok tmp colonp 0 0
         = Libc.inet_pton6_loop rest curtok'
             (tmp ++ bytes_of (removelast gs))%list colonp k (List.last gs 0%Z).
Proof.
  induction gs as [|g gs IH]; intros rest curtok tmp colonp Hne Hrange Hlen;
    [congruence|].
  inversion Hrange as [|? ? Hg Hrest]; subst.
  rewrite colon_joined_cons, append_assoc.
  destruct (inet_pton6_loop_group g (sep_joined true gs ++ rest) curtok tmp colonp Hg)
    as (k & Hk & ->).
  destruct gs as [|g' gs].
  - exists curtok, k. split; [exact Hk|].
    change (bytes_of (removelast [g])) with (@nil Z).
    rewrite app_nil_r. reflexivity.
  - change (sep_joined true (g' :: gs)) with (":" ++ colon_joined (g' :: gs)).
    rewrite append_assoc, append_cons, append_nil_l.
    inversion Hrest as [|? ? Hg' _]; subst.
    destruct (colon_joined_first_char g' gs rest Hg') as (c & t & Hfirst & _).
    simpl length in Hlen.
    rewrite inet_pton6_loop_flush; [|exact Hk|rewrite Hfirst; discriminate|lia].
    destruct (IH rest (colon_joined (g' :: gs) ++ rest)
                (tmp ++ group_bytes g)%list colonp)
      as (curtok' & k' & Hk' & ->); [discriminate|exact Hrest| |].
    { rewrite length_app. simpl length. lia. }
    exists curtok', k'. split; [exact Hk'|].
    change (removelast (g :: g' :: gs)) with (g :: removelast (g' :: gs)).
    change (List.last (g :: g' :: gs) 0%Z) with (List.last (g' :: gs) 0%Z).
    change (bytes_of (g :: removelast (g' :: gs)))
      with (group_bytes g ++ bytes_of (removelast (g' :: gs)))%list.
    rewrite <- app_assoc. reflexivity.
Qed.

Lemma bytes_of_removelast gs :
  gs <> [] ->
  (bytes_of (removelast gs) ++ group_bytes (List.last gs 0%Z))%list = bytes_of gs.
Proof.
  intros Hne. rewrite (app_removelast_last 0%Z Hne) at 3.
  rewrite bytes_of_app. unfold bytes_of at 3. cbn [flat_map].
  rewrite app_nil_r. reflexivity.
Qed.

Lemma inet_pton6_finish_group tmp colonp k g :
  (0 < k)%Z -> (length tmp + 2 <= 16)%nat ->
  Libc.inet_pton6_finish tmp colonp k g
  = Libc.inet_pton6_finish (tmp ++ group_bytes g)%list colonp 0 0.
Proof.
  intros Hk Hlen. unfold Libc.inet_pton6_finish, Libc.zlen.
  destruct (Z.ltb_spec 0 k); [|lia].
  destruct (Z.ltb_spec 16 (Z.of_nat (length tmp) + 2)); [lia|].
  reflexivity.
Qed.

Lemma inet_pton6_loop_end curtok tmp colonp seen val :
  Libc.inet_pton6_loop EmptyString curtok tmp colonp seen val
  = Libc.inet_pton6_finish tmp colonp seen val.
Proof. reflexivity. Qed.

(** The whole eight groups, without ["::"]. *)
Lemma inet_pton6_full gs :
  length gs = 8%nat ->
  Forall (fun g => 0 <= g < 65536)%Z gs ->
  Libc.inet_pton6 (colon_joined gs) = Some (bytes_of gs).
Proof.
  intros Hlen Hrange.
  destruct gs as [|g gs]; [discriminate|].
  inversion Hrange as [|? ? Hg _]; subst.
  destruct (colon_joined_first_char g gs EmptyString Hg) as (c & t & Hfirst & Hc).
  rewrite append_nil_r in Hfirst.
  assert (Hstart : Libc.inet_pton6 (colon_joined (g :: gs))
                   = Libc.inet_pton6_loop (colon_joined (g :: gs))
                       (colon_joined (g :: gs)) [] None 0 0).
  { rewrite Hfirst. unfold Libc.inet_pton6.
    destruct (Ascii.eqb_spec c ":") as [->|_]; [discriminate|reflexivity]. }
  rewrite Hstart. rewrite <- (append_nil_r (colon_joined (g :: gs))) at 1.
  destruct (inet_pton6_loop_groups (g :: gs) EmptyString (colon_joined (g :: gs))
              [] None) as (curtok' & k & Hk & ->);
    [discriminate|exact Hrange|simpl length in *; lia|].
  rewrite inet_pton6_loop_end.
  assert (Hl : length (bytes_of (removelast (g :: gs))) = 14%nat).
  { rewrite bytes_of_length.
    pose proof (f_equal (@length Z) (app_removelast_last 0%Z
                  (l := g :: gs) ltac:(discriminate))) as Hl.
    rewrite length_app, Hlen in Hl.
    change (length [List.last (g :: gs) 0%Z]) with 1%nat in Hl. lia. }
  change ([] ++ bytes_of (removelast (g :: gs)))%list
    with (bytes_of (removelast (g :: gs))).
  rewrite inet_pton6_finish_group; [|exact Hk|rewrite Hl; lia].
  rewrite bytes_of_removelast by discriminate.
  unfold Libc.inet_pton6_finish, Libc.zlen.
  change (0 <? 0)%Z with false. cbv iota.
  rewrite bytes_of_length, Hlen. reflexivity.
Qed.

(** An address with ["::"]: the groups before it, the groups after it,
    and zeroes in between up to sixteen bytes. *)
Lemma inet_pton6_run pre post :
  Forall (fun g => 0 <= g < 65536)%Z pre ->
  Forall (fun g => 0 <= g < 65536)%Z post ->
  (length pre + length post < 8)%nat ->
  Libc.inet_pton6 (colon_joined pre ++ "::" ++ colon_joined post)
  = Some (bytes_of pre
          ++ repeat 0%Z (16 - 2 * (length pre + length post))
          ++ bytes_of post)%list.
Proof.
  intros Hpre Hpost Hlen.
  assert (HA : exists curtok,
             Libc.inet_pton6 (colon_joined pre ++ "::" ++ colon_joined post)
             = Libc.inet_pton6_loop (colon_joined post) curtok (bytes_of pre)
                 (Some (length (bytes_of pre))) 0 0).
  { destruct pre as [|g pre].
    - exists (colon_joined post). reflexivity.
    - inversion Hpre as [|? ? Hg _]; subst.
      destruct (colon_joined_first_char g pre ("::" ++ colon_joined post) Hg)
        as (c & t & Hfirst & Hc).
      assert (Hstart :
               Libc.inet_pton6 (colon_joined (g :: pre) ++ "::" ++ colon_joined post)
               = Libc.inet_pton6_loop
                   (colon_joined (g :: pre) ++ "::" ++ colon_joined post)
                   (colon_joined (g :: pre) ++ "::" ++ colon_joined post)
                   [] None 0 0).
      { rewrite Hfirst. unfold Libc.inet_pton6.
        destruct (Ascii.eqb_spec c ":") as [->|_]; [discriminate|reflexivity]. }
      rewrite Hstart.
      destruct (inet_pton6_loop_groups (g :: pre) ("::" ++ colon_joined post)
                  (colon_joined (g :: pre) ++ "::" ++ colon_joined post) [] None)
        as (curtok' & k & Hk & ->);
        [discriminate|exact Hpre|simpl length in *; lia|].
      change ("::" ++ colon_joined post)
        with (String ":" (String ":" (colon_joined post))).
      change ([] ++ bytes_of (removelast (g :: pre)))%list
        with (bytes_of (removelast (g :: pre))).
      rewrite inet_pton6_loop_flush; [|exact Hk|discriminate|].
      + rewrite bytes_of_removelast by discriminate.
        rewrite inet_pton6_loop_mark. eexists. reflexivity.
      + rewrite bytes_of_length.
        pose proof (f_equal (@length Z) (app_removelast_last 0%Z
                      (l := g :: pre) ltac:(discriminate))) as Hl.
        rewrite length_app in Hl.
        change (length [List.last (g :: pre) 0%Z]) with 1%nat in Hl. lia. }
  destruct HA as (curtok & ->).
  pose proof (bytes_of_length pre) as Lpre.
  destruct post as [|h post].
  - change (colon_joined []) with EmptyString. rewrite inet_pton6_loop_end.
    unfold Libc.inet_pton6_finish, Libc.zlen.
    change (0 <? 0)%Z with false. cbv iota.
    destruct (Z.eqb_spec (Z.of_nat (length (bytes_of pre))) 16) as [E|_];
      [exfalso; simpl length in Hlen; lia|].
    rewrite firstn_all, skipn_all, Lpre.
    replace (length pre + length (@nil Z))%nat with (length pre)
      by (simpl length; lia).
    reflexivity.
  - rewrite <- (append_nil_r (colon_joined (h :: post))).
    destruct (inet_pton6_loop_groups (h :: post) EmptyString curtok (bytes_of pre)
                (Some (length (bytes_of pre))))
      as (curtok' & k & Hk & ->);
      [discriminate|exact Hpost|simpl length in *; lia|].
    rewrite inet_pton6_loop_end.
    assert (Hl : (length (removelast (h :: post)) + 1 = length (h :: post))%nat).
    { pose proof (f_equal (@length Z) (app_removelast_last 0%Z
                    (l := h :: post) ltac:(discriminate))) as Hl.
      rewrite length_app in Hl.
      change (length [List.last (h :: post) 0%Z]) with 1%nat in Hl. lia. }
    rewrite inet_pton6_finish_group;
      [|exact Hk|rewrite length_app, !bytes_of_length; lia].
    rewrite <- app_assoc, bytes_of_removelast by discriminate.
    unfold Libc.inet_pton6_finish, Libc.zlen.
    change (0 <? 0)%Z with false. cbv iota.
    rewrite length_app, !bytes_of_length.
    destruct (Z.eqb_spec (Z.of_nat (2 * length pre + 2 * length (h :: post))) 16)
      as [E|_]; [exfalso; lia|].
    rewrite <- Lpre, take_app_length, drop_app_length, Lpre.
    replace (16 - (2 * length pre + 2 * length (h :: post)))%nat
      with (16 - 2 * (length pre + length (h :: post)))%nat by lia.
    reflexivity.
Qed.

(** A run of zero groups splits the list of groups in three. *)
Lemma zero_run_split gs p l :
  is_zero_run gs p l ->
  gs = (firstn p gs ++ repeat 0%Z l ++ skipn (p + l) gs)%list.
Proof.
  intros (Hl & Hlen & Hzero).
  rewrite <- (firstn_skipn p gs) at 1. f_equal.
  rewrite <- (firstn_skipn l (skipn p gs)) at 1.
  rewrite drop_drop. f_equal.
  apply (nth_ext _ _ 1%Z 1%Z).
  - rewrite length_take, length_drop, repeat_length. lia.
  - intros i Hi. rewrite length_take, length_drop in Hi.
    rewrite nth_firstn. destruct (Nat.ltb_spec i l); [|lia].
    rewrite nth_skipn, nth_repeat_lt by lia. apply Hzero. lia.
Qed.

(** [inet_pton] reads back the body of the text of an IPv6 address. *)
Lemma inet_pton6_ipv6_body ip run :
  length ip = 16%nat -> Forall byte_ok ip ->
  match run with
  | Some (p, l) => longest_earliest_run (group_values ip) p l
  | None => True
  end ->
  Libc.inet_pton6
    match run with
    | Some (p, l) =>
        colon_joined (firstn p (group_values ip)) ++ "::"
        ++ colon_joined (skipn (p + l) (group_values ip))
    | None => colon_joined (group_values ip)
    end
  = Some ip.
Proof.
  intros Hlen Hip Hrun.
  pose proof (group_values_range ip Hip) as Hrange.
  pose proof (bytes_of_group_values ip Hlen Hip) as Hbytes.
  destruct run as [[p l]|].
  - destruct Hrun as [Hrun _]. pose proof Hrun as (Hl & Hpl & _).
    rewrite group_values_length in Hpl.
    rewrite inet_pton6_run.
    + rewrite length_take, length_drop, group_values_length.
      replace (16 - 2 * (p `min` 8 + (8 - (p + l))))%nat with (2 * l)%nat by lia.
      rewrite <- bytes_of_zeros, <- !bytes_of_app, <- zero_run_split by exact Hrun.
      rewrite Hbytes. reflexivity.
    + apply Forall_take, Hrange.
    + apply Forall_drop, Hrange.
    + rewrite length_take, length_drop, group_values_length. lia.
  - rewrite inet_pton6_full; [rewrite Hbytes; reflexivity|reflexivity|exact Hrange].
Qed.

(** *** split_string *)

Lemma split_at_last_none delim s :
  forall depth,
    Helpers.delim_outside delim depth s = false <->
    Helpers.split_at_last delim depth s = None.
Proof.
  induction s as [|c s IH]; intros depth; simpl; [split; reflexivity|].
  specialize (IH (Helpers.next_depth depth c)).
  destruct (Helpers.split_at_last delim (Helpers.next_depth depth c) s)
    as [[pre suf]|].
  - split; [|discriminate]. intros H. apply orb_false_iff in H.
    destruct H as [_ H]. apply IH in H. discriminate.
  - rewrite (proj2 IH eq_refl), orb_false_r.
    destruct (Ascii.eqb c delim && Nat.eqb depth 0); split;
      (reflexivity || discriminate).
Qed.

(** A [delim] met at depth zero and not met outside brackets
    afterwards is where the string is split. *)
Lemma split_at_last_intro delim p h :
  forall depth,
    Helpers.bracket_depth depth h = 0%nat ->
    Helpers.delim_outside delim (Helpers.next_depth 0 delim) p = false ->
    Helpers.split_at_last delim depth (h ++ String delim p) = Some (h, p).
Proof.
  induction h as [|c h IH]; intros depth Hd Hp.
  - simpl in Hd. subst depth. rewrite append_nil_l. simpl.
    rewrite (proj1 (split_at_last_none _ _ _) Hp), Ascii.eqb_refl. reflexivity.
  - rewrite append_cons. simpl. rewrite (IH _ Hd Hp). reflexivity.
Qed.

(** And the string is split nowhere else. *)
Lemma split_at_last_elim delim s :
  forall depth h p,
    Helpers.split_at_last delim depth s = Some (h, p) ->
    s = h ++ String delim p
    /\ Helpers.bracket_depth depth h = 0%nat
    /\ Helpers.delim_outside delim (Helpers.next_depth 0 delim) p = false.
Proof.
  induction s as [|c s IH]; intros depth h p H; [discriminate|].
  simpl in H.
  destruct (Helpers.split_at_last delim (Helpers.next_depth depth c) s)
    as [[pre suf]|] eqn:Hrec.
  - injection H as <- <-. destruct (IH _ _ _ Hrec) as (-> & Hd & Hp).
    repeat split; assumption.
  - destruct (Ascii.eqb_spec c delim) as [->|_]; [|discriminate].
    destruct (Nat.eqb_spec depth 0) as [->|_]; [|discriminate].
    injection H as <- <-. repeat split.
    apply split_at_last_none, Hrec.
Qed.

Lemma bracket_depth_free s :
  forall depth, all_chars not_bracket s = true ->
                Helpers.bracket_depth depth s = depth.
Proof.
  induction s as [|c s IH]; intros depth H; [reflexivity|].
  simpl in H. apply andb_true_iff in H. destruct H as [Hc Hs].
  simpl. rewrite <- (IH depth Hs) at 2. f_equal.
  unfold not_bracket in Hc. apply andb_true_iff in Hc. destruct Hc as [H1 H2].
  unfold Helpers.next_depth.
  destruct (Ascii.eqb c "["); [discriminate|].
  destruct (Ascii.eqb c "]"); [discriminate|reflexivity].
Qed.

Lemma delim_outside_free delim s :
  forall depth, all_chars (fun c => negb (Ascii.eqb c delim)) s = true ->
                Helpers.delim_outside delim depth s = false.
Proof.
  induction s as [|c s IH]; intros depth H; [reflexivity|].
  simpl in H. apply andb_true_iff in H. destruct H as [Hc Hs].
  simpl. rewrite (IH _ Hs). destruct (Ascii.eqb c delim); [discriminate|reflexivity].
Qed.

(** *** Character classes *)

Lemma isdigit_facts c :
  Libc.isdigit c = true ->
  not_bracket c = true /\ Ascii.eqb c ":" = false /\ Ascii.eqb c "[" = false
  /\ Libc.isspace c = false.
Proof.
  intros H. repeat split.
  - unfold not_bracket.
    destruct (Ascii.eqb_spec c "[") as [->|_]; [discriminate|].
    destruct (Ascii.eqb_spec c "]") as [->|_]; [discriminate|reflexivity].
  - destruct (Ascii.eqb_spec c ":") as [->|_]; [discriminate|reflexivity].
  - destruct (Ascii.eqb_spec c "[") as [->|_]; [discriminate|reflexivity].
  - unfold Libc.isdigit, Libc.isspace in *.
    apply andb_true_iff in H. destruct H as [H1 H2].
    apply Z.leb_le in H1. apply Z.leb_le in H2.
    destruct (Z.eqb_spec (Libc.code c) 32); [lia|].
    destruct (Z.leb_spec 9 (Libc.code c)); [|reflexivity].
    destruct (Z.leb_spec (Libc.code c) 13); [lia|reflexivity].
Qed.

Lemma xdigit_or_colon_not_bracket c :
  xdigit_or_colon c = true -> not_bracket c = true.
Proof.
  intros H. unfold not_bracket.
  destruct (Ascii.eqb_spec c "[") as [->|_]; [discriminate|].
  destruct (Ascii.eqb_spec c "]") as [->|_]; [discriminate|reflexivity].
Qed.

Lemma digit_or_dot_not_bracket c :
  digit_or_dot c = true -> not_bracket c = true.
Proof.
  intros H. unfold not_bracket.
  destruct (Ascii.eqb_spec c "[") as [->|_]; [discriminate|].
  destruct (Ascii.eqb_spec c "]") as [->|_]; [discriminate|reflexivity].
Qed.

Lemma colon_joined_chars l :
  Forall (fun g => 0 <= g < 65536)%Z l ->
  all_chars xdigit_or_colon (colon_joined l) = true.
Proof.
  intros Hl. induction Hl as [|g l Hg _ IH]; [reflexivity|].
  rewrite colon_joined_cons, all_chars_append.
  apply andb_true_iff. split.
  - apply (all_chars_weaken is_xdigit).
    + intros c Hc. unfold xdigit_or_colon. rewrite Hc. reflexivity.
    + apply hex_of_xdigits, Hg.
  - destruct l as [|g' l]; [reflexivity|].
    change (sep_joined true (g' :: l)) with (String ":" (colon_joined (g' :: l))).
    simpl. exact IH.
Qed.

Lemma fmt_u_octet_chars b :
  (0 <= b < 256)%Z -> all_chars digit_or_dot (Libc.fmt_u b) = true.
Proof.
  intros Hb. apply (all_chars_weaken Libc.isdigit).
  - intros c Hc. unfold digit_or_dot. rewrite Hc. reflexivity.
  - apply octet_text, Hb.
Qed.

(** *** C4: parsing the printed form *)

Lemma store_bytes_all bytes :
  length bytes = 16%nat -> store_bytes bytes (repeat 0%Z 16) = bytes.
Proof.
  intros Hlen. unfold store_bytes. rewrite Hlen. simpl skipn. apply app_nil_r.
Qed.

Lemma skip_spaces_not_space c s :
  Libc.isspace c = false -> skip_spaces (String c s) = String c s.
Proof. intros H. simpl. rewrite H. reflexivity. Qed.

Lemma ipv6_text_body gs run : ipv6_text gs run = String "[" (ipv6_body gs run ++ "]").
Proof.
  destruct run as [[p l]|]; unfold ipv6_text, ipv6_body.
  - rewrite append_cons, append_nil_l, !append_assoc. reflexivity.
  - reflexivity.
Qed.

Lemma ipv6_body_chars gs run :
  Forall (fun g => 0 <= g < 65536)%Z gs ->
  all_chars xdigit_or_colon (ipv6_body gs run) = true.
Proof.
  intros Hgs. destruct run as [[p l]|]; unfold ipv6_body.
  - rewrite !all_chars_append, !colon_joined_chars;
      [reflexivity|apply Forall_drop, Hgs|apply Forall_take, Hgs].
  - apply colon_joined_chars, Hgs.
Qed.

Section Roundtrip.

(** What the two helpers that are not among the sources must do for
    the printed form to be read back: [split_string] cuts at a
    delimiter that follows balanced brackets and is the last one of
    the text, and [parse_long] reads the decimal form of a 16-bit
    number as that number. *)
Variable split_string : string -> ascii -> option (string * string).
Variable parse_long : string -> option Z.

Hypothesis split_string_last : forall h p delim,
  Helpers.bracket_depth 0 h = 0%nat ->
  all_chars (fun c => negb (Ascii.eqb c delim)) p = true ->
  split_string (h ++ String delim p) delim = Some (h, p).

Hypothesis parse_long_decimal : forall n,
  (0 <= n < 65536)%Z -> parse_long (Libc.fmt_u n) = Some n.

Lemma host_from_str_inet6 ip run out :
  length ip = 16%nat -> Forall byte_ok ip ->
  match run with
  | Some (p, l) => longest_earliest_run (group_values ip) p l
  | None => True
  end ->
  host_address_from_str split_string (ipv6_text (group_values ip) run) out
  = (STATUS_SUCCESS, mk_HostAddress NETWORK_INET6 ip).
Proof.
  intros Hlen Hip Hrun. rewrite ipv6_text_body.
  unfold host_address_from_str.
  rewrite skip_spaces_not_space by reflexivity.
  change (Libc.first_char (String "[" ?s)) with "["%char.
  cbn [Libc.first_char Libc.string_tail]. rewrite Ascii.eqb_refl.
  rewrite split_string_last; [|apply bracket_depth_free|reflexivity].
  - unfold Libc.inet_pton. change (Libc.AF_INET6 =? Libc.AF_INET)%Z with false.
    rewrite Z.eqb_refl. cbv iota.
    pose proof (inet_pton6_ipv6_body ip run Hlen Hip Hrun) as Hparse.
    unfold ipv6_body. rewrite Hparse.
    cbn [NetworkC.ip zero_HostAddress]. rewrite store_bytes_all by exact Hlen. reflexivity.
  - apply (all_chars_weaken xdigit_or_colon).
    + apply xdigit_or_colon_not_bracket.
    + apply ipv6_body_chars, group_values_range, Hip.
Qed.

Lemma host_from_str_inet ip out :
  length ip = 16%nat -> Forall byte_ok ip ->
  skipn 4 ip = repeat 0%Z 12 ->
  host_address_from_str split_string
    (Libc.fmt_u (nth 0 ip 0%Z) ++ "." ++ Libc.fmt_u (nth 1 ip 0%Z) ++ "."
     ++ Libc.fmt_u (nth 2 ip 0%Z) ++ "." ++ Libc.fmt_u (nth 3 ip 0%Z)) out
  = (STATUS_SUCCESS, mk_HostAddress NETWORK_INET ip).
Proof.
  intros Hlen Hip Hpad.
  pose proof (nth_byte_ok ip 0 Hip) as H0. pose proof (nth_byte_ok ip 1 Hip) as H1.
  pose proof (nth_byte_ok ip 2 Hip) as H2. pose proof (nth_byte_ok ip 3 Hip) as H3.
  pose proof (inet_pton4_dotted _ _ _ _ H0 H1 H2 H3) as Hparse.
  destruct (octet_text _ H0) as (_ & Hdig & _ & Hne).
  destruct (Libc.fmt_u (nth 0 ip 0%Z)) as [|c t] eqn:Hfirst; [congruence|].
  simpl in Hdig. apply andb_true_iff in Hdig. destruct Hdig as [Hc _].
  destruct (isdigit_facts c Hc) as (_ & _ & Hnb & Hsp).
  unfold host_address_from_str. rewrite append_cons in *.
  rewrite skip_spaces_not_space by exact Hsp.
  cbn [Libc.first_char]. rewrite Hnb.
  unfold Libc.inet_pton at 1. rewrite Z.eqb_refl.
  rewrite Hparse. cbn [NetworkC.ip zero_HostAddress]. do 2 f_equal.
  unfold store_bytes. simpl length. simpl skipn.
  rewrite <- (firstn_skipn 4 ip) at 5. rewrite Hpad.
  do 4 (destruct ip as [|? ip]; [discriminate|]). reflexivity.
Qed.

(** Parsing gives back the host address whose text it is given. *)
Lemma host_address_roundtrip little_endian a out :
  well_formed_host a ->
  host_address_from_str split_string
    (host_address_to_str little_endian a) out
  = (STATUS_SUCCESS, a).
Proof.
  intros (Hlen & Hip & Hpad). destruct a as [ty bytes]. simpl in *.
  destruct ty.
  - rewrite (proj1 (host_address_to_str_inet little_endian bytes ltac:(lia) Hip)).
    apply host_from_str_inet; auto.
  - destruct (host_address_to_str_inet6 little_endian bytes Hip)
      as [(p & l & Hrun & ->)|(_ & ->)].
    + apply (host_from_str_inet6 bytes (Some (p, l))); assumption.
    + apply (host_from_str_inet6 bytes None); auto.
Qed.

(** The text of a host address leaves the bracket depth at zero. *)
Lemma host_text_depth little_endian a :
  length (ip a) = 16%nat -> Forall byte_ok (ip a) ->
  Helpers.bracket_depth 0 (host_address_to_str little_endian a) = 0%nat.
Proof.
  intros Hlen Hip. destruct a as [ty bytes]. simpl in *. destruct ty.
  - rewrite (proj1 (host_address_to_str_inet little_endian bytes ltac:(lia) Hip)).
    apply bracket_depth_free. apply (all_chars_weaken digit_or_dot).
    + apply digit_or_dot_not_bracket.
    + rewrite !all_chars_append, !fmt_u_octet_chars by (apply nth_byte_ok, Hip).
      reflexivity.
  - assert (Hbody : forall run,
               Helpers.bracket_depth 0 (ipv6_text (group_values bytes) run) = 0%nat).
    { intros run. rewrite ipv6_text_body.
      change (Helpers.bracket_depth 0 (String "[" ?s))
        with (Helpers.bracket_depth 1 s).
      cbn [Helpers.bracket_depth].
      change (Helpers.next_depth 0 "[") with 1%nat.
      assert (Happ : forall s d,
                 all_chars not_bracket s = true ->
                 Helpers.bracket_depth d (s ++ "]")
                 = Helpers.next_depth d "]").
      { induction s as [|c s IH]; intros d Hs; [reflexivity|].
        simpl in Hs. apply andb_true_iff in Hs. destruct Hs as [Hc Hs].
        rewrite append_cons. cbn [Helpers.bracket_depth]. rewrite IH by exact Hs.
        f_equal. apply (bracket_depth_free (String c EmptyString) d).
        simpl. rewrite Hc. reflexivity. }
      rewrite Happ; [reflexivity|].
      apply (all_chars_weaken xdigit_or_colon);
        [apply xdigit_or_colon_not_bracket|].
      apply ipv6_body_chars, group_values_range, Hip. }
    destruct (host_address_to_str_inet6 little_endian bytes Hip)
      as [(p & l & _ & ->)|(_ & ->)]; apply Hbody.
Qed.

(** C4.  For every well-formed socket address whose port is between 1
    and 65535, [socket_address_from_str] succeeds on the text
    [socket_address_to_str] writes and stores the address itself,
    whatever [split_string] and [parse_long] are as long as they cut at
    the last delimiter and read decimal numbers. *)
Theorem socket_address_roundtrip little_endian a out :
  well_formed_socket a ->
  (1 <= port_number little_endian a <= 65535)%Z ->
  socket_address_from_str split_string parse_long little_endian
    (socket_address_to_str little_endian a) out
  = (STATUS_SUCCESS, a).
Proof.
  intros [Hhost Hport] Hnum. unfold port_number in Hnum.
  destruct (port_text (Libc.ntohs little_endian (port a)) ltac:(lia))
    as (_ & Hdig & Hlen & Hne).
  pose proof (parse_long_decimal (Libc.ntohs little_endian (port a)) ltac:(lia))
    as Hparse.
  assert (Htext : socket_address_to_str little_endian a
                  = host_address_to_str little_endian (host a)
                    ++ String ":" (Libc.fmt_u (Libc.ntohs little_endian (port a)))).
  { unfold socket_address_to_str, Libc.strcat, Libc.snprintf.
    rewrite substring_whole; [reflexivity|].
    simpl String.length. change (Z.to_nat (10 - 1)) with 9%nat. lia. }
  rewrite Htext. unfold socket_address_from_str.
  rewrite split_string_last.
  - destruct (Libc.fmt_u (Libc.ntohs little_endian (port a))) as [|c t] eqn:Hfmt;
      [congruence|].
    rewrite Hparse.
    rewrite (host_address_roundtrip little_endian (host a) _ Hhost).
    cbn [NetworkC.port]. rewrite htons_ntohs by exact Hport.
    destruct a. reflexivity.
  - destruct Hhost as (Hl & Hb & _). apply host_text_depth; assumption.
  - apply (all_chars_weaken Libc.isdigit); [|exact Hdig].
    intros c Hc. destruct (isdigit_facts c Hc) as (_ & -> & _). reflexivity.
Qed.

End Roundtrip.

(** The helpers as modelled meet the two requirements. *)
Lemma helpers_split_string_last h p delim :
  Helpers.bracket_depth 0 h = 0%nat ->
  all_chars (fun c => negb (Ascii.eqb c delim)) p = true ->
  Helpers.split_string (h ++ String delim p) delim = Some (h, p).
Proof.
  intros Hh Hp. unfold Helpers.split_string.
  apply split_at_last_intro; [exact Hh|]. apply delim_outside_free, Hp.
Qed.

Lemma helpers_parse_long_decimal n :
  (0 <= n < 65536)%Z -> Helpers.parse_long (Libc.fmt_u n) = Some n.
Proof. intros Hn. apply (port_text n Hn). Qed.

Lemma host_address_to_str_canonical_witness :
  host_address_to_str true sample_inet6 = "[1::3:0:0:6:7]"
  /\ canonical_host_text sample_inet6 "[1::3:0:0:6:7]"
  /\ canonical_host_text sample_inet "127.0.0.1".
Proof.
  split; [reflexivity|]. split.
  - apply (host_address_to_str_canonical true sample_inet6); [reflexivity|].
    repeat constructor; unfold byte_ok; lia.
  - apply (host_address_to_str_canonical true sample_inet); [reflexivity|].
    repeat constructor; unfold byte_ok; lia.
Defined.

Lemma socket_address_roundtrip_witness :
  socket_address_to_str true (loopback6_1080 true) = "[::1]:1080"
  /\ socket_address_from_str Helpers.split_string Helpers.parse_long true
       "[::1]:1080" zero_SocketAddress
     = (STATUS_SUCCESS, loopback6_1080 true).
Proof.
  split; [reflexivity|].
  apply (socket_address_roundtrip Helpers.split_string Helpers.parse_long
           helpers_split_string_last helpers_parse_long_decimal
           true (loopback6_1080 true) zero_SocketAddress).
  - split; [split; [reflexivity|split]|].
    + repeat constructor; unfold byte_ok; lia.
    + discriminate.
    + vm_compute. split; [discriminate|reflexivity].
  - vm_compute. split; discriminate.
Defined.

(** *** C6: what socket_address_from_str accepts *)

Lemma ntohs_htons little_endian n :
  Libc.ntohs little_endian (Libc.htons little_endian n) = (n mod 65536)%Z.
Proof.
  pose proof (Z.mod_pos_bound n 65536 ltac:(lia)) as Hn.
  assert (H : Libc.htons little_endian n
              = Libc.ntohs little_endian (n mod 65536)%Z).
  { unfold Libc.ntohs, Libc.htons. rewrite Z.mod_mod by lia. reflexivity. }
  rewrite H. unfold Libc.ntohs at 1. apply htons_ntohs, Hn.
Qed.

Lemma parse_digits_decimal s :
  forall acc n, Helpers.parse_digits s acc = Some n ->
                all_chars Libc.isdigit s = true.
Proof.
  induction s as [|c s IH]; intros acc n H; [reflexivity|].
  simpl in H |- *. destruct (Libc.isdigit c); [|discriminate].
  apply (IH _ _ H).
Qed.

(** C6 (as the code has it).  [socket_address_from_str] splits its
    input at the last [:] outside brackets and fails when there is
    none.  It succeeds exactly when the port field is a non-empty
    decimal number and the host field parses; the number is stored
    in network byte order after conversion to 16 bits, so the port is
    the number modulo 65536: no range is checked. *)
Theorem socket_from_str_port_unchecked little_endian str out :
  match Helpers.split_string str ":" with
  | None =>
      socket_address_from_str Helpers.split_string Helpers.parse_long
        little_endian str out = (STATUS_FAILURE, out)
  | Some (host_str, port_str) =>
      str = host_str ++ String ":" port_str
      /\ Helpers.bracket_depth 0 host_str = 0%nat
      /\ Helpers.delim_outside ":" 0 port_str = false
      /\ match Helpers.parse_long port_str,
               host_address_from_str Helpers.split_string host_str
                 zero_HostAddress with
         | Some n, (STATUS_SUCCESS, h) =>
             all_chars Libc.isdigit port_str = true
             /\ port_str <> EmptyString
             /\ socket_address_from_str Helpers.split_string Helpers.parse_long
                  little_endian str out
                = (STATUS_SUCCESS,
                   mk_SocketAddress h (Libc.htons little_endian n))
             /\ port_number little_endian
                  (mk_SocketAddress h (Libc.htons little_endian n))
                = (n mod 65536)%Z
         | _, _ =>
             socket_address_from_str Helpers.split_string Helpers.parse_long
               little_endian str out = (STATUS_FAILURE, out)
         end
  end.
Proof.
  unfold socket_address_from_str.
  destruct (Helpers.split_string str ":") as [[host_str port_str]|] eqn:Hsplit;
    [|reflexivity].
  destruct (split_at_last_elim _ _ _ _ _ Hsplit) as (Hstr & Hdepth & Hout).
  split; [exact Hstr|]. split; [exact Hdepth|]. split; [exact Hout|].
  destruct port_str as [|c port_str]; [reflexivity|].
  destruct (Helpers.parse_long (String c port_str)) as [n|] eqn:Hparse.
  - cbn [host zero_SocketAddress NetworkC.port].
    destruct (host_address_from_str Helpers.split_string host_str zero_HostAddress)
      as [[] h]; [|reflexivity].
    split; [exact (parse_digits_decimal _ _ _ Hparse)|].
    split; [discriminate|]. split; [reflexivity|].
    unfold port_number. cbn [NetworkC.port]. apply ntohs_htons.
  - destruct (host_address_from_str Helpers.split_string host_str zero_HostAddress)
      as [[] h]; reflexivity.
Qed.

Lemma socket_from_str_port_unchecked_witness :
  socket_address_from_str Helpers.split_string Helpers.parse_long true
    "[::1]:1080" zero_SocketAddress
  = (STATUS_SUCCESS, loopback6_1080 true)
  /\ socket_address_from_str Helpers.split_string Helpers.parse_long true
       "[::1]" zero_SocketAddress
     = (STATUS_FAILURE, zero_SocketAddress).
Proof.
  split.
  - pose proof (socket_from_str_port_unchecked true "[::1]:1080"
                  zero_SocketAddress) as H.
    exact (proj1 (proj2 (proj2 (proj2 (proj2 (proj2 H)))))).
  - exact (socket_from_str_port_unchecked true "[::1]" zero_SocketAddress).
Defined.

(** C6, the claim as stated, fails: a port field of 0 and port fields
    above 65535 are accepted; 65536 gives port 0 and 70000 gives port
    4464. *)
Lemma port_out_of_range_accepted :
  socket_address_from_str Helpers.split_string Helpers.parse_long true
    "127.0.0.1:0" zero_SocketAddress
  = (STATUS_SUCCESS, mk_SocketAddress sample_inet 0)
  /\ socket_address_from_str Helpers.split_string Helpers.parse_long true
       "127.0.0.1:65536" zero_SocketAddress
     = (STATUS_SUCCESS, mk_SocketAddress sample_inet 0)
  /\ socket_address_from_str Helpers.split_string Helpers.parse_long true
       "127.0.0.1:70000" zero_SocketAddress
     = (STATUS_SUCCESS, mk_SocketAddress sample_inet (Libc.htons true 4464)).
Proof. repeat split; vm_compute; reflexivity. Qed.

End NetworkFacts.

(** ** More on the interface manager *)

Module InterfaceMore.
Import InterfaceC InterfaceSpec ManagerSpec.
Local Open Scope cmd_scope.

(** X1.  A description that [interface_manager_add_from_string] accepts
    gives one new object, unused and with port 0, of the IPv6 family
    exactly when the description starts with a bracket; the object is
    linked in front of the chain of its family, and the other chain and
    the objects that were there stay as they were. *)
Theorem add_from_string_effect desc s p s' :
  length (ifaces s) = INTERFACE_N_TYPES ->
  interface_manager_add_from_string desc s = Ok p s' ->
  exists i o,
    heap s !! p = None
    /\ heap s' !! p = Some o
    /\ use_count o = 0 /\ sa_port (addr o) = 0
    /\ family_index (addr o) = Some i
    /\ i = (if Ascii.eqb (Libc.first_char desc) "["
            then INTERFACE_OFF_INET6 else INTERFACE_OFF_INET)
    /\ (forall q, q <> p -> heap s' !! q = heap s !! q)
    /\ nth i (ifaces s') [] = p :: nth i (ifaces s) []
    /\ forall j, j <> i -> nth j (ifaces s') [] = nth j (ifaces s) [].
Proof.
  intros Hlen. unfold interface_manager_add_from_string.
  destruct (Ascii.eqb (Libc.first_char desc) "["); cbn [negb].
  - destruct (until_char "]" desc) as [desc_cp|]; [|discriminate].
    destruct (Libc.inet_pton Libc.AF_INET6 (Libc.string_tail desc_cp))
      as [bytes|]; [|discriminate].
    intros H. apply InterfaceFacts.link_new_effect in H.
    destruct H as (H1 & H2 & H3).
    exists INTERFACE_OFF_INET6,
      (mk_Interface (mk_sockaddr Libc.AF_INET6 0 bytes) 28 0).
    rewrite H2, H3. split; [exact H1|].
    split; [apply lookup_insert_eq|]. do 4 (split; [reflexivity|]).
    split; [intros q Hq; apply lookup_insert_ne; congruence|]. split.
    + rewrite InterfaceFacts.nth_list_insert, Nat.eqb_refl; [reflexivity|].
      rewrite Hlen. unfold INTERFACE_OFF_INET6, INTERFACE_N_TYPES. lia.
    + intros j Hj. rewrite InterfaceFacts.nth_list_insert.
      * destruct (Nat.eqb_spec j INTERFACE_OFF_INET6); [contradiction|reflexivity].
      * rewrite Hlen. unfold INTERFACE_OFF_INET6, INTERFACE_N_TYPES. lia.
  - destruct (Libc.inet_pton Libc.AF_INET desc) as [bytes|]; [|discriminate].
    intros H. apply InterfaceFacts.link_new_effect in H.
    destruct H as (H1 & H2 & H3).
    exists INTERFACE_OFF_INET,
      (mk_Interface (mk_sockaddr Libc.AF_INET 0 bytes) 16 0).
    rewrite H2, H3. split; [exact H1|].
    split; [apply lookup_insert_eq|]. do 4 (split; [reflexivity|]).
    split; [intros q Hq; apply lookup_insert_ne; congruence|]. split.
    + rewrite InterfaceFacts.nth_list_insert, Nat.eqb_refl; [reflexivity|].
      rewrite Hlen. unfold INTERFACE_OFF_INET, INTERFACE_N_TYPES. lia.
    + intros j Hj. rewrite InterfaceFacts.nth_list_insert.
      * destruct (Nat.eqb_spec j INTERFACE_OFF_INET); [contradiction|reflexivity].
      * rewrite Hlen. unfold INTERFACE_OFF_INET, INTERFACE_N_TYPES. lia.
Qed.

Lemma add_from_string_effect_witness :
  exists i o,
    heap with_loopback6 !! 3%positive = Some o
    /\ use_count o = 0
    /\ i = INTERFACE_OFF_INET6
    /\ nth i (ifaces with_loopback6) [] = [3%positive]
    /\ nth INTERFACE_OFF_INET (ifaces with_loopback6) [] = [2%positive; 1%positive].
Proof.
  destruct (add_from_string_effect "[::1]" (two_inet_state 0 0) 3%positive
              with_loopback6 eq_refl ltac:(vm_compute; reflexivity))
    as (i & o & _ & Ho & Hu & _ & _ & Hi & _ & Hn & Hrest).
  exists i, o. split; [exact Ho|]. split; [exact Hu|]. split; [exact Hi|].
  split; [rewrite Hn, Hi; reflexivity|].
  rewrite Hrest; [reflexivity|]. rewrite Hi. discriminate.
Defined.

Lemma inet_pton4_loop_chars src :
  forall done cur saw octets r,
    Libc.inet_pton4_loop src done cur saw octets = Some r ->
    NetworkSpec.all_chars NetworkSpec.digit_or_dot src = true.
Proof.
  induction src as [|ch src IH]; intros done cur saw octets r H; [reflexivity|].
  cbn [Libc.inet_pton4_loop] in H. cbn [NetworkSpec.all_chars].
  unfold NetworkSpec.digit_or_dot at 1.
  destruct (Libc.isdigit ch).
  - cbn [orb andb].
    destruct (saw && (cur =? 0)); [discriminate|].
    destruct (255 <? cur * 10 + (Libc.code ch - 48)); [discriminate|].
    destruct saw; [exact (IH _ _ _ _ _ H)|].
    destruct (4 <? octets + 1); [discriminate|]. exact (IH _ _ _ _ _ H).
  - destruct (Ascii.eqb ch "."); cbn [andb orb] in *; [|discriminate].
    destruct saw; [|discriminate].
    destruct (octets =? 4); [discriminate|]. exact (IH _ _ _ _ _ H).
Qed.

Lemma until_char_none c s :
  NetworkSpec.all_chars (fun x => negb (Ascii.eqb x c)) s = true ->
  until_char c s = None.
Proof.
  induction s as [|a s IH]; [reflexivity|].
  cbn [NetworkSpec.all_chars until_char]. intros H.
  apply andb_true_iff in H. destruct H as [Ha Hs].
  apply negb_true_iff in Ha. rewrite Ha, (IH Hs). reflexivity.
Qed.

Lemma until_char_cut c s rest :
  NetworkSpec.all_chars (fun x => negb (Ascii.eqb x c)) s = true ->
  until_char c (s ++ String c rest) = Some s.
Proof.
  induction s as [|a s IH].
  - intros _. rewrite NetworkFacts.append_nil_l. cbn [until_char].
    rewrite Ascii.eqb_refl. reflexivity.
  - cbn [NetworkSpec.all_chars]. intros H.
    apply andb_true_iff in H. destruct H as [Ha Hs].
    apply negb_true_iff in Ha.
    rewrite NetworkFacts.append_cons. cbn [until_char].
    rewrite Ha, (IH Hs). reflexivity.
Qed.

(** X2.  [interface_manager_add_from_string] ends the process with
    "Invalid address" for the empty description, for a description
    without a leading bracket that holds anything but digits and dots
    (so for the [addr@metric] form of the usage text), and for a
    bracketed description whose bracket is never closed. *)
Theorem add_from_string_refuses desc s :
  desc = EmptyString
  \/ (Ascii.eqb (Libc.first_char desc) "[" = false
      /\ NetworkSpec.all_chars NetworkSpec.digit_or_dot desc = false)
  \/ (Ascii.eqb (Libc.first_char desc) "[" = true
      /\ NetworkSpec.all_chars (fun x => negb (Ascii.eqb x "]")) desc = true) ->
  interface_manager_add_from_string desc s = Abend "Invalid address".
Proof.
  intros [->|[[Hb Hc]|[Hb Hc]]]; unfold interface_manager_add_from_string.
  - reflexivity.
  - rewrite Hb. cbn [negb]. unfold Libc.inet_pton. rewrite Z.eqb_refl.
    unfold Libc.inet_pton4.
    destruct (Libc.inet_pton4_loop desc [] 0 false 0) as [r|] eqn:Hr;
      [|reflexivity].
    apply inet_pton4_loop_chars in Hr. congruence.
  - rewrite Hb. cbn [negb]. rewrite (until_char_none _ _ Hc). reflexivity.
Qed.

Lemma add_from_string_refuses_witness :
  interface_manager_add_from_string "10.0.0.1@5" interface_manager_new
  = Abend "Invalid address"
  /\ interface_manager_add_from_string "[::1" interface_manager_new
     = Abend "Invalid address".
Proof.
  split.
  - apply (add_from_string_refuses "10.0.0.1@5" interface_manager_new).
    right. left. split; reflexivity.
  - apply (add_from_string_refuses "[::1" interface_manager_new).
    right. right. split; reflexivity.
Defined.



(** X4.  The text [host_address_to_str] writes for a well-formed host
    address is a description [interface_manager_add_from_string]
    accepts, and the new interface holds the bytes of that address (the
    four octets for IPv4, the sixteen bytes for IPv6), port 0 and use
    count 0. *)
Theorem add_from_string_reads_printed little_endian a s :
  NetworkSpec.well_formed_host a ->
  exists p s',
    interface_manager_add_from_string
      (NetworkC.host_address_to_str little_endian a) s = Ok p s'
    /\ heap s' !! p
       = Some match NetworkC.type a with
              | NetworkC.NETWORK_INET =>
                  mk_Interface
                    (mk_sockaddr Libc.AF_INET 0 (firstn 4 (NetworkC.ip a))) 16 0
              | NetworkC.NETWORK_INET6 =>
                  mk_Interface
                    (mk_sockaddr Libc.AF_INET6 0 (NetworkC.ip a)) 28 0
              end.
Proof.
  intros (Hlen & Hip & Hpad). destruct a as [ty bytes]. cbn [NetworkC.type NetworkC.ip] in *.
  unfold interface_manager_add_from_string. destruct ty.
  - rewrite (proj1 (NetworkFacts.host_address_to_str_inet little_endian bytes
                      ltac:(lia) Hip)).
    pose proof (NetworkFacts.nth_byte_ok bytes 0 Hip) as H0.
    pose proof (NetworkFacts.nth_byte_ok bytes 1 Hip) as H1.
    pose proof (NetworkFacts.nth_byte_ok bytes 2 Hip) as H2.
    pose proof (NetworkFacts.nth_byte_ok bytes 3 Hip) as H3.
    pose proof (NetworkFacts.inet_pton4_dotted _ _ _ _ H0 H1 H2 H3) as Hparse.
    destruct (NetworkFacts.octet_text _ H0) as (_ & Hdig & _ & Hne).
    destruct (Libc.fmt_u (nth 0 bytes 0)) as [|c t] eqn:Hfirst; [congruence|].
    cbn [NetworkSpec.all_chars] in Hdig. apply andb_true_iff in Hdig.
    destruct Hdig as [Hc _].
    destruct (NetworkFacts.isdigit_facts c Hc) as (_ & _ & Hnb & _).
    rewrite NetworkFacts.append_cons in *. cbn [Libc.first_char].
    rewrite Hnb. cbn [negb]. unfold Libc.inet_pton. rewrite Z.eqb_refl.
    rewrite Hparse. unfold link_new. eexists. eexists.
    split; [reflexivity|]. cbn [heap]. rewrite lookup_insert_eq.
    do 4 (destruct bytes as [|? bytes]; [discriminate|]). reflexivity.
  - assert (Htext : exists run,
               NetworkC.host_address_to_str little_endian
                 (NetworkC.mk_HostAddress NetworkC.NETWORK_INET6 bytes)
               = NetworkSpec.ipv6_text (NetworkSpec.group_values bytes) run
               /\ match run with
                  | Some (p, l) =>
                      NetworkSpec.longest_earliest_run
                        (NetworkSpec.group_values bytes) p l
                  | None => True
                  end).
    { destruct (NetworkFacts.host_address_to_str_inet6 little_endian bytes Hip)
        as [(p & l & Hrun & Ht)|(_ & Ht)].
      - exists (Some (p, l)). split; assumption.
      - exists None. split; [assumption|exact I]. }
    destruct Htext as (run & -> & Hrun).
    rewrite NetworkFacts.ipv6_text_body. cbn [Libc.first_char].
    rewrite Ascii.eqb_refl. cbn [negb until_char].
    change (Ascii.eqb "[" "]") with false. cbv iota.
    rewrite until_char_cut.
    + cbn [Libc.string_tail]. unfold Libc.inet_pton.
      change (Libc.AF_INET6 =? Libc.AF_INET) with false. rewrite Z.eqb_refl.
      cbv iota.
      pose proof (NetworkFacts.inet_pton6_ipv6_body bytes run Hlen Hip Hrun)
        as Hparse.
      unfold NetworkSpec.ipv6_body. rewrite Hparse.
      unfold link_new. eexists. eexists.
      split; [reflexivity|]. cbn [heap]. apply lookup_insert_eq.
    + apply (NetworkFacts.all_chars_weaken NetworkSpec.xdigit_or_colon).
      * intros c Hc. apply NetworkFacts.xdigit_or_colon_not_bracket in Hc.
        unfold NetworkSpec.not_bracket in Hc. apply andb_true_iff in Hc.
        apply Hc.
      * apply NetworkFacts.ipv6_body_chars, NetworkFacts.group_values_range, Hip.
Qed.

Lemma add_from_string_reads_printed_witness :
  exists p s',
    interface_manager_add_from_string "[1::3:0:0:6:7]" interface_manager_new
    = Ok p s'
    /\ heap s' !! p
       = Some (mk_Interface
                 (mk_sockaddr Libc.AF_INET6 0
                    [0; 1; 0; 0; 0; 0; 0; 3; 0; 0; 0; 0; 0; 6; 0; 7]) 28 0).
Proof.
  apply (add_from_string_reads_printed true NetworkSpec.sample_inet6
           interface_manager_new).
  split; [reflexivity|]. split; [|discriminate].
  repeat constructor; unfold NetworkSpec.byte_ok; lia.
Defined.

Lemma add_all_listed descs :
  forall s ps s',
    add_all descs s = Ok ps s' ->
    (forall p o, heap s !! p = Some o ->
       exists i, family_index (addr o) = Some i) ->
    List.NoDup ps
    /\ (forall p, In p ps -> heap s !! p = None)
    /\ (forall p, is_Some (heap s' !! p) <-> In p ps \/ is_Some (heap s !! p))
    /\ forall p o, heap s' !! p = Some o ->
         exists i, family_index (addr o) = Some i.
Proof.
  induction descs as [|d rest IH]; intros s ps s' H Hfam.
  - injection H as <- <-. split; [apply List.NoDup_nil|].
    split; [intros p []|]. split; [|exact Hfam].
    intros p. split; [auto|]. intros [[]|Hp]. exact Hp.
  - simpl in H. unfold bind in H.
    destruct (interface_manager_add_from_string d s) as [p s1| |] eqn:Hadd;
      try discriminate.
    destruct (add_all rest s1) as [ps1 s2| |] eqn:Hrest; try discriminate.
    injection H as <- <-.
    apply InterfaceFacts.add_from_string_links in Hadd.
    destruct Hadd as (i0 & o & Hfresh & _ & Hfo & _ & Hheap & _).
    destruct (IH s1 ps1 s2 Hrest) as (Hnd & Hnew & Hdom & Hfam2).
    { intros q o'. rewrite Hheap.
      destruct (decide (p = q)) as [<-|Hne].
      - rewrite lookup_insert_eq. intros [= <-]. exists i0. exact Hfo.
      - rewrite lookup_insert_ne by exact Hne. apply Hfam. }
    assert (Hp1 : heap s1 !! p = Some o)
      by (rewrite Hheap; apply lookup_insert_eq).
    split; [|split; [|split; [|exact Hfam2]]].
    + apply List.NoDup_cons; [|exact Hnd]. intros Hin.
      rewrite (Hnew p Hin) in Hp1. discriminate.
    + intros q [<-|Hq]; [exact Hfresh|].
      specialize (Hnew q Hq). rewrite Hheap in Hnew.
      apply lookup_insert_None in Hnew. apply Hnew.
    + intros q. rewrite Hdom, Hheap. simpl. split.
      * intros [Hq|Hq]; [left; right; exact Hq|].
        destruct (decide (p = q)) as [<-|Hne]; [left; left; reflexivity|].
        rewrite lookup_insert_ne in Hq by exact Hne. right. exact Hq.
      * intros [[<-|Hq]|Hq].
        -- right. rewrite lookup_insert_eq. eexists. reflexivity.
        -- left. exact Hq.
        -- right. destruct (decide (p = q)) as [<-|Hne].
           ++ rewrite lookup_insert_eq. eexists. reflexivity.
           ++ rewrite lookup_insert_ne by exact Hne. exact Hq.
Qed.

Lemma heap_listed_update ps s p o o' :
  heap_listed ps s -> heap s !! p = Some o -> addr o' = addr o ->
  heap_listed ps (mk_State (ifaces s) (<[p := o']> (heap s))).
Proof.
  intros (Hnd & Hdom & Hfam) Hp Ha. split; [exact Hnd|]. cbn [heap]. split.
  - intros q. rewrite Hdom.
    destruct (decide (p = q)) as [<-|Hne].
    + rewrite lookup_insert_eq, Hp. split; intros _; eexists; reflexivity.
    + rewrite lookup_insert_ne by exact Hne. reflexivity.
  - intros q oq.
    destruct (decide (p = q)) as [<-|Hne].
    + rewrite lookup_insert_eq. intros [= <-]. rewrite Ha. apply (Hfam p o Hp).
    + rewrite lookup_insert_ne by exact Hne. apply Hfam.
Qed.

(** In every state of a run the heap holds the configured interfaces
    and nothing else, and the manager has its two chains. *)
Lemma reachable_listed ps s live :
  reachable ps s live ->
  heap_listed ps s /\ length (ifaces s) = INTERFACE_N_TYPES.
Proof.
  induction 1 as [descs s Hc | s live sr br mask p s' R IH Hacq
                 | s live p s' R IH Hpos Hrel].
  - destruct (InterfaceFacts.configured_inv_holds _ _ _ Hc) as (Hlen & _).
    split; [|exact Hlen].
    destruct (add_all_listed descs interface_manager_new ps s Hc)
      as (Hnd & _ & Hdom & Hfam).
    { intros p o Hp. simpl in Hp. rewrite lookup_empty in Hp. discriminate. }
    split; [exact Hnd|]. split; [|exact Hfam].
    intros p. rewrite Hdom. simpl. rewrite lookup_empty. split; [auto|].
    intros [Hp|[x Hx]]; [exact Hp|discriminate].
  - destruct (InterfaceFacts.reachable_run_inv _ _ _ R) as (Hwf & _).
    destruct (InterfaceFacts.acquire_effect _ _ _ _ _ _ Hwf Hacq)
      as (_ & o & Ho & ->).
    destruct IH as [IH Hlen]. split; [|exact Hlen].
    eapply heap_listed_update; [exact IH|exact Ho|reflexivity].
  - apply InterfaceFacts.interface_close_effect in Hrel.
    destruct Hrel as (o & Ho & ->).
    destruct IH as [IH Hlen]. split; [|exact Hlen].
    eapply heap_listed_update; [exact IH|exact Ho|reflexivity].
Qed.

(** Releasing a chain of distinct objects takes exactly them off the
    heap. *)
Lemma released_lookup l :
  forall h q,
    released h l !! q = if existsb (Pos.eqb q) l then None else h !! q.
Proof.
  induction l as [|p l IH]; intros h q; [reflexivity|].
  unfold released in *. cbn [fold_left existsb]. rewrite IH.
  destruct (existsb (Pos.eqb q) l); [rewrite orb_true_r; reflexivity|].
  rewrite orb_false_r. destruct (Pos.eqb_spec q p) as [->|Hne].
  - apply lookup_delete_eq.
  - apply lookup_delete_ne. congruence.
Qed.

Lemma existsb_eqb_in q l : existsb (Pos.eqb q) l = true <-> In q l.
Proof.
  rewrite existsb_exists. split.
  - intros (x & Hx & He). apply Pos.eqb_eq in He. subst. exact Hx.
  - intros H. exists q. split; [exact H|apply Pos.eqb_refl].
Qed.

Lemma free_chain_releases l :
  forall s,
    List.NoDup l -> (forall p, In p l -> is_Some (heap s !! p)) ->
    free_chain l s = Ok tt (mk_State (ifaces s) (released (heap s) l)).
Proof.
  induction l as [|p l IH]; intros s Hnd Hall.
  - unfold released. simpl. unfold ret. destruct s; reflexivity.
  - apply List.NoDup_cons_iff in Hnd. destruct Hnd as [Hp Hnd].
    destruct (Hall p (or_introl eq_refl)) as [o Ho].
    cbn [free_chain]. unfold bind at 1 2. unfold load, g_free. rewrite Ho.
    cbv beta iota. cbn [heap]. rewrite Ho. cbv beta iota.
    rewrite IH; [reflexivity|exact Hnd|].
    intros q Hq. cbn [heap]. rewrite lookup_delete_ne.
    + apply Hall. right. exact Hq.
    + intros ->. contradiction.
Qed.

Lemma in_family_exclusive h i j p :
  in_family h i p = true -> in_family h j p = true -> i = j.
Proof.
  unfold in_family. destruct (family_of h p) as [k|]; [|discriminate].
  intros Hi Hj. apply Nat.eqb_eq in Hi, Hj. congruence.
Qed.

(** X5.  In every state of a run [interface_manager_free] returns and
    leaves no object on the heap: each interface that was added is
    released, and none is released twice. *)
Theorem free_releases_all ps s live :
  reachable ps s live ->
  interface_manager_free s = Ok tt (mk_State [] ∅).
Proof.
  intros R.
  destruct (InterfaceFacts.reachable_run_inv _ _ _ R) as (Hwf & Hchains & _).
  destruct (reachable_listed _ _ _ R) as ((Hnd & Hdom & Hfam) & Hlen).
  pose proof (Hchains 0%nat ltac:(unfold INTERFACE_N_TYPES; lia)) as Hc0.
  pose proof (Hchains 1%nat ltac:(unfold INTERFACE_N_TYPES; lia)) as Hc1.
  set (c0 := nth 0 (ifaces s) []) in *.
  set (c1 := nth 1 (ifaces s) []) in *.
  assert (Hnd0 : List.NoDup c0).
  { rewrite Hc0. apply List.NoDup_rev, List.NoDup_filter, Hnd. }
  assert (Hnd1 : List.NoDup c1).
  { rewrite Hc1. apply List.NoDup_rev, List.NoDup_filter, Hnd. }
  assert (Hin : forall i c p, c = rev (List.filter (in_family (heap s) i) ps) ->
                  (In p c <-> In p ps /\ in_family (heap s) i p = true)).
  { intros i c p ->. rewrite <- in_rev, filter_In. reflexivity. }
  assert (Hall0 : forall p, In p c0 -> is_Some (heap s !! p)).
  { intros p Hp. destruct (Hwf 0%nat p Hp) as (o & Ho & _). exists o. exact Ho. }
  unfold interface_manager_free, bind.
  cbn [free_loop INTERFACE_N_TYPES]. unfold bind, chain. fold c0.
  rewrite (free_chain_releases c0 s Hnd0 Hall0). cbn [ifaces]. fold c1.
  rewrite free_chain_releases; [| exact Hnd1 |].
  - unfold ret. cbn [heap]. f_equal. f_equal. apply map_eq. intros q.
    rewrite lookup_empty, !released_lookup.
    destruct (existsb (Pos.eqb q) c1) eqn:H1; [reflexivity|].
    destruct (existsb (Pos.eqb q) c0) eqn:H0; [reflexivity|].
    destruct (heap s !! q) as [o|] eqn:Hq; [exfalso|reflexivity].
    destruct (Hfam q o Hq) as (i & Hi).
    assert (Hps : In q ps) by (apply Hdom; exists o; exact Hq).
    assert (Hif : in_family (heap s) i q = true).
    { unfold in_family, family_of. rewrite Hq, Hi. apply Nat.eqb_refl. }
    pose proof (InterfaceFacts.family_index_bound _ _ Hi) as Hb.
    unfold INTERFACE_N_TYPES in Hb.
    assert (Hcase : i = 0%nat \/ i = 1%nat) by lia.
    destruct Hcase as [-> | ->].
    + assert (Hq0 : In q c0) by (apply (Hin 0%nat); [exact Hc0|split; assumption]).
      apply existsb_eqb_in in Hq0. congruence.
    + assert (Hq1 : In q c1) by (apply (Hin 1%nat); [exact Hc1|split; assumption]).
      apply existsb_eqb_in in Hq1. congruence.
  - intros p Hp. cbn [heap]. rewrite released_lookup.
    destruct (existsb (Pos.eqb p) c0) eqn:H0.
    + apply existsb_eqb_in in H0.
      apply (Hin 0%nat _ _ Hc0) in H0. apply (Hin 1%nat _ _ Hc1) in Hp.
      pose proof (in_family_exclusive _ _ _ _ (proj2 H0) (proj2 Hp)).
      discriminate.
    + destruct (Hwf 1%nat p Hp) as (o & Ho & _). exists o. exact Ho.
Qed.

Lemma free_releases_all_witness :
  interface_manager_free (two_inet_state 0 0) = Ok tt (mk_State [] ∅).
Proof.
  apply (free_releases_all [1%positive; 2%positive] (two_inet_state 0 0)
           (fun _ => 0)).
  apply (reach_configured _ two_inet_descs).
  apply InterfaceFacts.configured_two_inet.
Defined.

(** X6.  In every state of a run, [interface_open] on a configured
    interface never ends in the unknown-family abort and never faults:
    it returns exactly when [socket()] and [bind()] both succeed, having
    added one to the use count (in 32 bits), and otherwise the process
    ends with the name of the call that failed. *)
Theorem interface_open_managed ps s live p socket_ret bind_ret :
  reachable ps s live -> In p ps ->
  match interface_open socket_ret bind_ret p s with
  | Ok _ s' =>
      0 <= socket_ret /\ 0 <= bind_ret
      /\ count_of (heap s') p = wrap_int (count_of (heap s) p + 1)
  | Abend msg =>
      (socket_ret < 0 /\ msg = "socket()"%string)
      \/ (0 <= socket_ret /\ bind_ret < 0 /\ msg = "bind()"%string)
  | Fault => False
  end.
Proof.
  intros R Hp.
  destruct (reachable_listed _ _ _ R) as ((_ & Hdom & Hfam) & _).
  destruct (proj1 (Hdom p) Hp) as [o Ho].
  destruct (Hfam p o Ho) as (i & Hi).
  destruct (Z.ltb_spec socket_ret 0) as [Hs|Hs].
  - assert (E : interface_open socket_ret bind_ret p s = Abend "socket()").
    { unfold interface_open, bind, load. rewrite Ho.
      unfold find_namespace, ret, abort. unfold family_index in Hi.
      destruct (sa_family (addr o) =? Libc.AF_LOCAL);
        [|destruct (sa_family (addr o) =? Libc.AF_INET);
          [|destruct (sa_family (addr o) =? Libc.AF_INET6); [|discriminate]]];
        (destruct (Z.ltb_spec socket_ret 0); [reflexivity|lia]). }
    rewrite E. left. split; [exact Hs|reflexivity].
  - destruct (Z.ltb_spec bind_ret 0) as [Hb|Hb].
    + assert (E : interface_open socket_ret bind_ret p s = Abend "bind()").
      { unfold interface_open, bind, load. rewrite Ho.
        unfold find_namespace, ret, abort. unfold family_index in Hi.
        destruct (sa_family (addr o) =? Libc.AF_LOCAL);
          [|destruct (sa_family (addr o) =? Libc.AF_INET);
            [|destruct (sa_family (addr o) =? Libc.AF_INET6); [|discriminate]]];
          (destruct (Z.ltb_spec socket_ret 0); [lia|];
           destruct (Z.ltb_spec bind_ret 0); [reflexivity|lia]). }
      rewrite E. right. repeat split; assumption.
    + rewrite (InterfaceFacts.interface_open_succeeds _ _ _ _ _ _ Ho Hi Hs Hb).
      split; [exact Hs|]. split; [exact Hb|].
      unfold count_of. cbn [heap]. rewrite lookup_insert_eq, Ho. reflexivity.
Qed.

Lemma interface_open_managed_witness :
  match interface_open 3 0 1%positive (two_inet_state 0 0) with
  | Ok _ s' =>
      0 <= 3 /\ 0 <= 0
      /\ count_of (heap s') 1%positive
         = wrap_int (count_of (heap (two_inet_state 0 0)) 1%positive + 1)
  | Abend msg =>
      (3 < 0 /\ msg = "socket()"%string)
      \/ (0 <= 3 /\ 0 < 0 /\ msg = "bind()"%string)
  | Fault => False
  end.
Proof.
  apply (interface_open_managed [1%positive; 2%positive] (two_inet_state 0 0)
           (fun _ => 0) 1%positive 3 0).
  - apply (reach_configured _ two_inet_descs).
    apply InterfaceFacts.configured_two_inet.
  - left. reflexivity.
Defined.

Lemma manager_wf_update s p o o' :
  manager_wf s -> heap s !! p = Some o -> addr o' = addr o ->
  manager_wf (mk_State (ifaces s) (<[p := o']> (heap s))).
Proof.
  intros Hwf Hp Ha i q Hq. cbn [ifaces heap] in *.
  destruct (Hwf i q Hq) as (oq & Hoq & Hf).
  destruct (decide (p = q)) as [<-|Hne].
  - exists o'. rewrite lookup_insert_eq. split; [reflexivity|].
    rewrite Ha. congruence.
  - exists oq. rewrite lookup_insert_ne by exact Hne. split; assumption.
Qed.

Lemma count_of_update h p o' q :
  count_of (<[p := o']> h) q = if Pos.eqb q p then use_count o' else count_of h q.
Proof.
  unfold count_of. destruct (Pos.eqb_spec q p) as [->|Hne].
  - rewrite lookup_insert_eq. reflexivity.
  - rewrite lookup_insert_ne by congruence. reflexivity.
Qed.

(** What a run of acquisitions keeps: the chains, their well-formedness,
    counts between 0 and the number of acquisitions, and the balance of
    the interfaces the mask selects. *)
Lemma acquire_run_inv addr_type n s0 s :
  acquire_run addr_type n s0 s ->
  configured_inv s0 ->
  Z.of_nat n <= INT_MAX ->
  manager_wf s /\ ifaces s = ifaces s0
  /\ (forall q, 0 <= count_of (heap s) q <= Z.of_nat n)
  /\ balanced (heap s) (candidates s addr_type).
Proof.
  induction 1 as [s|n s s1 sr br p s2 Hrun IH Hacq]; intros Hinv Hn.
  - destruct Hinv as (_ & Hwf & Hzero).
    assert (Hc : forall q, count_of (heap s) q = 0).
    { intros q. unfold count_of. destruct (heap s !! q) as [o|] eqn:Hq;
        [apply (Hzero q o Hq)|reflexivity]. }
    split; [exact Hwf|]. split; [reflexivity|]. split.
    + intros q. rewrite Hc. simpl. lia.
    + intros q1 q2 _ _. rewrite !Hc. lia.
  - destruct IH as (Hwf & Hif & Hrange & Hbal); [exact Hinv|lia|].
    destruct (InterfaceFacts.acquire_effect _ _ _ _ _ _ Hwf Hacq)
      as (Hget & o & Ho & ->).
    destruct (InterfaceFacts.get_first_least s1 addr_type Hwf)
      as (r & Hr & Hfl).
    rewrite Hget in Hr. injection Hr as <-.
    destruct Hfl as (l1 & l2 & Hcands & Hl1 & Hl2).
    assert (Hmin : forall q, In q (candidates s1 addr_type) ->
                     count_of (heap s1) p <= count_of (heap s1) q).
    { intros q Hq. rewrite Hcands in Hq.
      apply in_app_or in Hq. destruct Hq as [Hq|[<-|Hq]].
      - specialize (Hl1 q Hq). lia.
      - lia.
      - apply Hl2, Hq. }
    assert (Hpc : count_of (heap s1) p = use_count o)
      by (apply InterfaceFacts.count_of_lookup, Ho).
    assert (Hwrap : wrap_int (use_count o + 1) = use_count o + 1).
    { apply InterfaceFacts.wrap_int_small. pose proof (Hrange p).
      unfold INT_MIN, INT_MAX in *. lia. }
    assert (Hcand : candidates
                      (mk_State (ifaces s1)
                         (<[p := mk_Interface (addr o) (len o)
                                   (wrap_int (use_count o + 1))]> (heap s1)))
                      addr_type = candidates s1 addr_type) by reflexivity.
    split; [eapply manager_wf_update; [exact Hwf|exact Ho|reflexivity]|].
    split; [exact Hif|]. cbn [heap]. split.
    + intros q. rewrite count_of_update. cbn [use_count]. rewrite Hwrap.
      pose proof (Hrange q). pose proof (Hrange p).
      destruct (Pos.eqb q p); lia.
    + rewrite Hcand. intros q1 q2 H1 H2. rewrite !count_of_update.
      cbn [use_count]. rewrite Hwrap.
      pose proof (Hmin q1 H1). pose proof (Hmin q2 H2).
      pose proof (Hbal q1 q2 H1 H2).
      assert (Hp : In p (candidates s1 addr_type)).
      { rewrite Hcands. apply in_or_app. right. left. reflexivity. }
      pose proof (Hbal q1 p H1 Hp).
      destruct (Pos.eqb q1 p), (Pos.eqb q2 p); lia.
Qed.

(** X7.  After any number of acquisitions in a row for one family mask
    on a freshly configured manager (fewer than 2^31 of them), the use
    counts of the interfaces the mask selects differ by at most
    one. *)
Theorem acquire_run_balanced descs ps s0 addr_type n s :
  configured descs = Ok ps s0 ->
  acquire_run addr_type n s0 s ->
  Z.of_nat n <= INT_MAX ->
  balanced (heap s) (candidates s addr_type).
Proof.
  intros Hc Hrun Hn.
  apply (acquire_run_inv addr_type n s0 s Hrun); [|exact Hn].
  apply (InterfaceFacts.configured_inv_holds _ _ _ Hc).
Qed.

Lemma acquire_run_balanced_witness :
  balanced (heap (two_inet_state 1 1)) (candidates (two_inet_state 1 1) 1).
Proof.
  apply (acquire_run_balanced two_inet_descs [1%positive; 2%positive]
           (two_inet_state 0 0) 1 2 (two_inet_state 1 1)).
  - apply InterfaceFacts.configured_two_inet.
  - apply (run_snoc 1 1 (two_inet_state 0 0) (two_inet_state 0 1) 3 0
             1%positive).
    + apply (run_snoc 1 0 (two_inet_state 0 0) (two_inet_state 0 0) 3 0
               2%positive); [apply run_nil|].
      vm_compute. reflexivity.
    + vm_compute. reflexivity.
  - unfold INT_MAX. simpl. lia.
Defined.

(** X8.  Only the two low bits of the family mask reach
    [interface_manager_get]: masks that agree on them give the same
    answer, and a mask with neither bit set selects nothing. *)
Theorem get_mask_low_bits s addr_type :
  interface_manager_get addr_type s
  = interface_manager_get (Z.land addr_type 3) s
  /\ (Z.land addr_type 3 = 0 -> interface_manager_get addr_type s = Ok None s).
Proof.
  assert (H0 : Z.land (Z.land addr_type 3) (Z.shiftl 1 (Z.of_nat 0))
               = Z.land addr_type (Z.shiftl 1 (Z.of_nat 0))).
  { rewrite <- Z.land_assoc. reflexivity. }
  assert (H1 : Z.land (Z.land addr_type 3) (Z.shiftl 1 (Z.of_nat 1))
               = Z.land addr_type (Z.shiftl 1 (Z.of_nat 1))).
  { rewrite <- Z.land_assoc. reflexivity. }
  assert (E : interface_manager_get addr_type s
              = interface_manager_get (Z.land addr_type 3) s).
  { unfold interface_manager_get, INTERFACE_N_TYPES. cbn [get_loop].
    rewrite H0, H1. reflexivity. }
  split; [exact E|]. intros Hz. rewrite E, Hz. reflexivity.
Qed.

End InterfaceMore.

(** ** More on the argument loop *)

Module MainMore.
Import MainC MainSpec.







End MainMore.

(** ** More on the address texts *)

Module NetworkMore.
Import NetworkC NetworkSpec.

Lemma isdigit_value ch : Libc.isdigit ch = true -> 0 <= Libc.code ch - 48 <= 9.
Proof.
  unfold Libc.isdigit. intros H. apply andb_true_iff in H.
  destruct H as [H1 H2]. apply Z.leb_le in H1, H2. lia.
Qed.

(** What [inet_pton] stores is four, or sixteen, bytes. *)
Lemma inet_pton4_loop_bytes src :
  forall done cur saw octets r,
    Libc.inet_pton4_loop src done cur saw octets = Some r ->
    Forall byte_ok done -> byte_ok cur ->
    octets = Libc.zlen done + (if saw then 1 else 0) ->
    (saw = false -> octets < 4) -> octets <= 4 ->
    length r = 4%nat /\ Forall byte_ok r.
Proof.
  induction src as [|ch src IH]; intros done cur saw octets r H Hd Hc Ho Hs H4.
  - cbn [Libc.inet_pton4_loop] in H.
    destruct (Z.ltb_spec octets 4) as [|Hge]; [discriminate|].
    injection H as <-. destruct saw; [|specialize (Hs eq_refl); lia].
    unfold Libc.zlen in Ho. split.
    + rewrite length_app. simpl. lia.
    + apply Forall_app. split; [exact Hd|]. constructor; [exact Hc|constructor].
  - cbn [Libc.inet_pton4_loop] in H.
    destruct (Libc.isdigit ch) eqn:Hdig.
    + pose proof (isdigit_value ch Hdig) as Hv.
      destruct (saw && (cur =? 0)); [discriminate|].
      destruct (Z.ltb_spec 255 (cur * 10 + (Libc.code ch - 48))) as [|Hle];
        [discriminate|].
      assert (Hnew : byte_ok (cur * 10 + (Libc.code ch - 48)))
        by (unfold byte_ok in *; lia).
      destruct saw.
      * apply (IH _ _ _ _ _ H Hd Hnew Ho); [discriminate|exact H4].
      * destruct (Z.ltb_spec 4 (octets + 1)) as [|Hle4]; [discriminate|].
        apply (IH _ _ _ _ _ H Hd Hnew); [lia|discriminate|lia].
    + destruct (Ascii.eqb ch "." && saw) eqn:Hdot; [|discriminate].
      apply andb_true_iff in Hdot. destruct Hdot as [_ ->].
      destruct (Z.eqb_spec octets 4) as [|Hne]; [discriminate|].
      apply (IH _ _ _ _ _ H).
      * apply Forall_app. split; [exact Hd|]. constructor; [exact Hc|constructor].
      * unfold byte_ok. lia.
      * unfold Libc.zlen in *. rewrite length_app. simpl. lia.
      * intros _. lia.
      * exact H4.
Qed.

Lemma inet_pton4_bytes src r :
  Libc.inet_pton4 src = Some r -> length r = 4%nat /\ Forall byte_ok r.
Proof.
  intros H. apply (inet_pton4_loop_bytes src [] 0 false 0 r H).
  - constructor.
  - unfold byte_ok. lia.
  - reflexivity.
  - intros _. lia.
  - lia.
Qed.

Lemma land_255_byte x : byte_ok (Z.land x 255).
Proof.
  unfold byte_ok. change 255 with (Z.ones 8). rewrite Z.land_ones by lia.
  apply Z.mod_pos_bound. lia.
Qed.

Lemma Forall_repeat_zero n : Forall byte_ok (repeat 0 n).
Proof.
  induction n as [|n IH]; simpl; constructor; [unfold byte_ok; lia|exact IH].
Qed.

Lemma inet_pton6_finish_bytes tmp colonp seen val r :
  Libc.inet_pton6_finish tmp colonp seen val = Some r ->
  Forall byte_ok tmp -> (length tmp <= 16)%nat ->
  length r = 16%nat /\ Forall byte_ok r.
Proof.
  unfold Libc.inet_pton6_finish. intros H Ht Hl.
  assert (Hflush : forall tmp', 
             (if 0 <? seen
              then if 16 <? Libc.zlen tmp + 2 then None
                   else Some (tmp ++ [Z.land (Z.shiftr val 8) 255; Z.land val 255])
              else Some tmp) = Some tmp' ->
             Forall byte_ok tmp' /\ (length tmp' <= 16)%nat).
  { intros tmp' E. destruct (0 <? seen).
    - destruct (Z.ltb_spec 16 (Libc.zlen tmp + 2)) as [|Hle]; [discriminate|].
      injection E as <-. unfold Libc.zlen in Hle. split.
      + apply Forall_app. split; [exact Ht|].
        repeat constructor; apply land_255_byte.
      + rewrite length_app. simpl. lia.
    - injection E as <-. split; assumption. }
  destruct (if 0 <? seen
            then if 16 <? Libc.zlen tmp + 2 then None
                 else Some (tmp ++ [Z.land (Z.shiftr val 8) 255; Z.land val 255])
            else Some tmp) as [tmp'|] eqn:E; [|discriminate].
  destruct (Hflush tmp' eq_refl) as [Ht' Hl'].
  destruct colonp as [cp|].
  - destruct (Z.eqb_spec (Libc.zlen tmp') 16) as [|Hne]; [discriminate|].
    injection H as <-. unfold Libc.zlen in Hne. split.
    + rewrite !length_app, repeat_length, length_take, length_drop. lia.
    + apply Forall_app. split; [apply Forall_take, Ht'|].
      apply Forall_app. split; [apply Forall_repeat_zero|apply Forall_drop, Ht'].
  - destruct (Z.eqb_spec (Libc.zlen tmp') 16) as [He|]; [|discriminate].
    injection H as <-. unfold Libc.zlen in He. split; [lia|exact Ht'].
Qed.

Lemma inet_pton6_loop_bytes src :
  forall curtok tmp colonp seen val r,
    Libc.inet_pton6_loop src curtok tmp colonp seen val = Some r ->
    Forall byte_ok tmp -> (length tmp <= 16)%nat ->
    length r = 16%nat /\ Forall byte_ok r.
Proof.
  induction src as [|ch src IH]; intros curtok tmp colonp seen val r H Ht Hl.
  - cbn [Libc.inet_pton6_loop] in H.
    exact (inet_pton6_finish_bytes _ _ _ _ _ H Ht Hl).
  - cbn [Libc.inet_pton6_loop] in H.
    destruct (0 <=? Libc.hex_digit_value ch).
    + destruct (seen =? 4); [discriminate|].
      destruct (65535 <? Z.lor (Z.shiftl val 4) (Libc.hex_digit_value ch));
        [discriminate|].
      exact (IH _ _ _ _ _ _ H Ht Hl).
    + destruct (Ascii.eqb ch ":").
      * destruct (seen =? 0).
        -- destruct colonp; [discriminate|]. exact (IH _ _ _ _ _ _ H Ht Hl).
        -- destruct src as [|c' src']; [discriminate|].
           destruct (Z.ltb_spec 16 (Libc.zlen tmp + 2)) as [|Hle];
             [discriminate|].
           unfold Libc.zlen in Hle. apply (IH _ _ _ _ _ _ H).
           ++ apply Forall_app. split; [exact Ht|].
              repeat constructor; apply land_255_byte.
           ++ rewrite length_app. simpl. lia.
      * destruct (Ascii.eqb ch "." && (Libc.zlen tmp + 4 <=? 16)) eqn:Hdot;
          [|discriminate].
        apply andb_true_iff in Hdot. destruct Hdot as [_ Hfit].
        apply Z.leb_le in Hfit. unfold Libc.zlen in Hfit.
        destruct (Libc.inet_pton4 curtok) as [quad|] eqn:Hq; [|discriminate].
        destruct (inet_pton4_bytes _ _ Hq) as [Hq4 Hqb].
        apply (inet_pton6_finish_bytes _ _ _ _ _ H).
        -- apply Forall_app. split; assumption.
        -- rewrite length_app. lia.
Qed.

Lemma inet_pton6_bytes src r :
  Libc.inet_pton6 src = Some r -> length r = 16%nat /\ Forall byte_ok r.
Proof.
  unfold Libc.inet_pton6. destruct src as [|c src]; [discriminate|].
  destruct (Ascii.eqb c ":").
  - destruct src as [|c' src']; [discriminate|].
    destruct (Ascii.eqb c' ":"); [|discriminate].
    intros H. apply (inet_pton6_loop_bytes _ _ _ _ _ _ _ H); [constructor|simpl; lia].
  - intros H. apply (inet_pton6_loop_bytes _ _ _ _ _ _ _ H); [constructor|simpl; lia].
Qed.

Lemma host_from_str_stores
    (split_string : string -> ascii -> option (string * string)) str out a :
  host_address_from_str split_string str out = (STATUS_SUCCESS, a) ->
  well_formed_host a.
Proof.
  unfold host_address_from_str.
  destruct (Ascii.eqb (Libc.first_char (skip_spaces str)) "[").
  - destruct (split_string (Libc.string_tail (skip_spaces str)) "]"%char)
      as [[ip6_str rest]|]; [|discriminate].
    unfold Libc.inet_pton.
    change (Libc.AF_INET6 =? Libc.AF_INET) with false. rewrite Z.eqb_refl.
    cbv iota.
    destruct (Libc.inet_pton6 ip6_str) as [bytes|] eqn:Hp; [|discriminate].
    intros [= <-]. destruct (inet_pton6_bytes _ _ Hp) as [Hl Hf].
    unfold well_formed_host. cbn [NetworkC.ip NetworkC.type zero_HostAddress].
    unfold store_bytes. rewrite Hl. cbn [skipn repeat]. rewrite app_nil_r.
    split; [exact Hl|]. split; [exact Hf|discriminate].
  - unfold Libc.inet_pton. rewrite Z.eqb_refl.
    destruct (Libc.inet_pton4 (skip_spaces str)) as [bytes|] eqn:Hp;
      [|discriminate].
    intros [= <-]. destruct (inet_pton4_bytes _ _ Hp) as [Hl Hf].
    unfold well_formed_host. cbn [NetworkC.ip NetworkC.type zero_HostAddress].
    unfold store_bytes. rewrite Hl. cbn [skipn repeat].
    split; [rewrite length_app, Hl; reflexivity|]. split.
    + apply Forall_app. split; [exact Hf|apply (Forall_repeat_zero 12)].
    + intros _. do 4 (destruct bytes as [|? bytes]; [discriminate|]).
      destruct bytes; [reflexivity|discriminate].
Qed.

(** X11.  A host address that [host_address_from_str] stores is well
    formed: sixteen bytes, each below 256, with zeroes after the four
    octets of an IPv4 address.  It is an IPv6 address exactly when the
    text, after its leading whitespace, starts with a bracket. *)
Theorem host_from_str_well_formed
    (split_string : string -> ascii -> option (string * string)) str out a :
  host_address_from_str split_string str out = (STATUS_SUCCESS, a) ->
  well_formed_host a
  /\ (type a = NETWORK_INET6
      <-> Libc.first_char (skip_spaces str) = "["%char).
Proof.
  intros H. split; [exact (host_from_str_stores _ _ _ _ H)|].
  unfold host_address_from_str in H.
  destruct (Ascii.eqb_spec (Libc.first_char (skip_spaces str)) "[") as [Hb|Hb].
  - destruct (split_string (Libc.string_tail (skip_spaces str)) "]"%char)
      as [[ip6_str rest]|]; [|discriminate].
    destruct (Libc.inet_pton Libc.AF_INET6 ip6_str); [|discriminate].
    injection H as <-. split; [intros _; exact Hb|reflexivity].
  - destruct (Libc.inet_pton Libc.AF_INET (skip_spaces str)); [|discriminate].
    injection H as <-. split; [discriminate|intros E; contradiction].
Qed.

Lemma host_from_str_well_formed_witness :
  well_formed_host
    (mk_HostAddress NETWORK_INET6
       [0; 0; 0; 0; 0; 0; 0; 0; 0; 0; 255; 255; 10; 0; 0; 1])
  /\ (NETWORK_INET6 = NETWORK_INET6
      <-> Libc.first_char (skip_spaces " [::ffff:10.0.0.1]") = "["%char).
Proof.
  apply (host_from_str_well_formed Helpers.split_string " [::ffff:10.0.0.1]"
           zero_HostAddress
           (mk_HostAddress NETWORK_INET6
              [0; 0; 0; 0; 0; 0; 0; 0; 0; 0; 255; 255; 10; 0; 0; 1])).
  reflexivity.
Defined.

Lemma skip_spaces_leading ws str :
  all_chars Libc.isspace ws = true ->
  skip_spaces (ws ++ str) = skip_spaces str.
Proof.
  induction ws as [|c ws IH]; intros H.
  - rewrite NetworkFacts.append_nil_l. reflexivity.
  - cbn [all_chars] in H. apply andb_true_iff in H. destruct H as [Hc Hws].
    rewrite NetworkFacts.append_cons. cbn [skip_spaces]. rewrite Hc.
    apply IH, Hws.
Qed.

(** X12.  Whitespace in front of a host address text is skipped: the
    text parses as it does without it.  Text made of whitespace alone
    is refused and leaves the output as it was. *)
Theorem host_from_str_skips_spaces
    (split_string : string -> ascii -> option (string * string)) ws str out :
  all_chars Libc.isspace ws = true ->
  host_address_from_str split_string (ws ++ str) out
  = host_address_from_str split_string str out
  /\ host_address_from_str split_string ws out = (STATUS_FAILURE, out).
Proof.
  intros Hws. unfold host_address_from_str. split.
  - rewrite (skip_spaces_leading ws str Hws). reflexivity.
  - assert (E : skip_spaces ws = EmptyString).
    { rewrite <- (NetworkFacts.append_nil_r ws).
      apply (skip_spaces_leading ws EmptyString Hws). }
    rewrite E. reflexivity.
Qed.

Lemma host_from_str_skips_spaces_witness :
  host_address_from_str Helpers.split_string "  127.0.0.1" zero_HostAddress
  = (STATUS_SUCCESS, sample_inet)
  /\ host_address_from_str Helpers.split_string "  " zero_HostAddress
     = (STATUS_FAILURE, zero_HostAddress).
Proof.
  destruct (host_from_str_skips_spaces Helpers.split_string "  " "127.0.0.1"
              zero_HostAddress eq_refl) as [H1 H2].
  split; [exact H1|exact H2].
Defined.

Lemma length_string_of_list l :
  String.length (string_of_list_ascii l) = length l.
Proof. induction l as [|c l IH]; simpl; [reflexivity|rewrite IH; reflexivity]. Qed.

Lemma hex_of_length v : 0 <= v < 65536 -> (String.length (hex_of v) <= 4)%nat.
Proof.
  intros Hv. destruct (NetworkFacts.hex_of_digits v Hv) as (ds & -> & _ & _ & Hl & _).
  rewrite length_string_of_list, length_map. exact Hl.
Qed.

Lemma sep_joined_length l :
  Forall (fun g => 0 <= g < 65536) l ->
  (String.length (sep_joined true l) <= 5 * length l)%nat.
Proof.
  induction 1 as [|g l Hg Hl IH]; [simpl; lia|].
  rewrite NetworkFacts.sep_joined_cons, !NetworkFacts.length_append.
  pose proof (hex_of_length g Hg). simpl String.length. simpl length. lia.
Qed.

Lemma colon_joined_length l :
  Forall (fun g => 0 <= g < 65536) l ->
  (String.length (colon_joined l) <= 5 * length l - 1)%nat.
Proof.
  intros H. destruct H as [|g l Hg Hl]; [simpl; lia|].
  rewrite NetworkFacts.colon_joined_cons, NetworkFacts.length_append.
  pose proof (hex_of_length g Hg). pose proof (sep_joined_length l Hl).
  simpl length. lia.
Qed.

Lemma ipv6_text_length gs run :
  Forall (fun g => 0 <= g < 65536) gs -> length gs = 8%nat ->
  match run with
  | Some (p, l) => (1 <= l)%nat /\ (p + l <= 8)%nat
  | None => True
  end ->
  (String.length (ipv6_text gs run) <= 41)%nat.
Proof.
  intros Hgs Hlen Hrun. rewrite NetworkFacts.ipv6_text_body.
  cbn [String.length]. rewrite NetworkFacts.length_append.
  simpl (String.length "]"). unfold ipv6_body.
  destruct run as [[p l]|].
  - rewrite !NetworkFacts.length_append. simpl (String.length "::").
    pose proof (colon_joined_length (firstn p gs) (Forall_take _ _ _ Hgs)) as H1.
    pose proof (colon_joined_length (skipn (p + l) gs) (Forall_drop _ _ _ Hgs))
      as H2.
    rewrite length_take in H1. rewrite length_drop in H2. lia.
  - pose proof (colon_joined_length gs Hgs). lia.
Qed.

Lemma socket_text little_endian a :
  socket_address_to_str little_endian a
  = (host_address_to_str little_endian (host a)
     ++ String ":" (Libc.fmt_u (Libc.ntohs little_endian (port a))))%string.
Proof.
  destruct (NetworkFacts.port_text (Libc.ntohs little_endian (port a))
              (NetworkFacts.ntohs_range _ _)) as (_ & _ & Hlen & _).
  unfold socket_address_to_str, Libc.strcat, Libc.snprintf.
  rewrite NetworkFacts.substring_whole; [reflexivity|].
  simpl String.length. change (Z.to_nat (10 - 1)) with 9%nat. lia.
Qed.

(** X13.  The text of a host address has at most 41 characters and the
    text of a socket address at most 47, so that with its terminator
    either fits the 48 bytes the callers provide; the IPv6 branch,
    which writes without a bound, never passes the end of such a
    buffer. *)
Theorem address_text_fits little_endian a :
  length (ip (host a)) = 16%nat -> Forall byte_ok (ip (host a)) ->
  (String.length (host_address_to_str little_endian (host a)) <= 41)%nat
  /\ (String.length (socket_address_to_str little_endian a) <= 47)%nat.
Proof.
  intros Hlen Hip.
  assert (Hhost : (String.length (host_address_to_str little_endian (host a))
                   <= 41)%nat).
  { destruct (host a) as [ty bytes]. cbn [NetworkC.ip] in *. destruct ty.
    - rewrite (proj1 (NetworkFacts.host_address_to_str_inet little_endian bytes
                        ltac:(lia) Hip)).
      pose proof (NetworkFacts.dotted_quad_length _ _ _ _
                    (NetworkFacts.nth_byte_ok bytes 0 Hip)
                    (NetworkFacts.nth_byte_ok bytes 1 Hip)
                    (NetworkFacts.nth_byte_ok bytes 2 Hip)
                    (NetworkFacts.nth_byte_ok bytes 3 Hip)). lia.
    - pose proof (NetworkFacts.group_values_range bytes Hip) as Hgs.
      pose proof (NetworkFacts.group_values_length bytes) as Hg8.
      destruct (NetworkFacts.host_address_to_str_inet6 little_endian bytes Hip)
        as [(p & l & Hrun & ->)|(_ & ->)].
      + apply ipv6_text_length; [exact Hgs|exact Hg8|].
        destruct Hrun as ((H1 & H2 & _) & _). rewrite Hg8 in H2.
        split; assumption.
      + apply ipv6_text_length; [exact Hgs|exact Hg8|exact I]. }
  split; [exact Hhost|].
  rewrite socket_text, NetworkFacts.length_append. cbn [String.length].
  destruct (NetworkFacts.port_text (Libc.ntohs little_endian (port a))
              (NetworkFacts.ntohs_range _ _)) as (_ & _ & Hl & _).
  lia.
Qed.

Lemma address_text_fits_witness :
  (String.length "[::1]" <= 41)%nat /\ (String.length "[::1]:1080" <= 47)%nat.
Proof.
  apply (address_text_fits true (loopback6_1080 true)).
  - reflexivity.
  - repeat constructor; unfold byte_ok; lia.
Defined.

(** The printed form parses back for every value of the port field. *)
Lemma socket_roundtrip_any
    (split_string : string -> ascii -> option (string * string))
    (parse_long : string -> option Z) little_endian a out :
  (forall h p delim,
     Helpers.bracket_depth 0 h = 0%nat ->
     all_chars (fun c => negb (Ascii.eqb c delim)) p = true ->
     split_string (h ++ String delim p)%string delim = Some (h, p)) ->
  (forall n, 0 <= n < 65536 -> parse_long (Libc.fmt_u n) = Some n) ->
  well_formed_socket a ->
  socket_address_from_str split_string parse_long little_endian
    (socket_address_to_str little_endian a) out
  = (STATUS_SUCCESS, a).
Proof.
  intros Hsplit Hparse [Hhost Hport].
  pose proof (NetworkFacts.ntohs_range little_endian (port a)) as Hr.
  destruct (NetworkFacts.port_text _ Hr) as (_ & Hdig & _ & Hne).
  rewrite socket_text. unfold socket_address_from_str.
  rewrite Hsplit.
  - destruct (Libc.fmt_u (Libc.ntohs little_endian (port a))) as [|c t] eqn:Hfmt;
      [congruence|].
    rewrite <- Hfmt, (Hparse _ Hr).
    rewrite (NetworkFacts.host_address_roundtrip split_string Hsplit
               little_endian (host a) _ Hhost).
    cbn [NetworkC.port]. rewrite NetworkFacts.htons_ntohs by exact Hport.
    destruct a. reflexivity.
  - destruct Hhost as (Hl & Hb & _).
    apply NetworkFacts.host_text_depth; assumption.
  - apply (NetworkFacts.all_chars_weaken Libc.isdigit); [|exact Hdig].
    intros c Hc. destruct (NetworkFacts.isdigit_facts c Hc) as (_ & -> & _).
    reflexivity.
Qed.

(** X14.  Well-formed addresses that print alike are the same address:
    [host_address_to_str] and [socket_address_to_str] lose nothing. *)
Theorem address_text_injective little_endian a b :
  well_formed_socket a -> well_formed_socket b ->
  (host_address_to_str little_endian (host a)
   = host_address_to_str little_endian (host b) -> host a = host b)
  /\ (socket_address_to_str little_endian a
      = socket_address_to_str little_endian b -> a = b).
Proof.
  intros Ha Hb. split; intros E.
  - pose proof (NetworkFacts.host_address_roundtrip Helpers.split_string
                  NetworkFacts.helpers_split_string_last little_endian
                  (host a) zero_HostAddress (proj1 Ha)) as H1.
    pose proof (NetworkFacts.host_address_roundtrip Helpers.split_string
                  NetworkFacts.helpers_split_string_last little_endian
                  (host b) zero_HostAddress (proj1 Hb)) as H2.
    rewrite E in H1. congruence.
  - pose proof (socket_roundtrip_any Helpers.split_string Helpers.parse_long
                  little_endian a zero_SocketAddress
                  NetworkFacts.helpers_split_string_last
                  NetworkFacts.helpers_parse_long_decimal Ha) as H1.
    pose proof (socket_roundtrip_any Helpers.split_string Helpers.parse_long
                  little_endian b zero_SocketAddress
                  NetworkFacts.helpers_split_string_last
                  NetworkFacts.helpers_parse_long_decimal Hb) as H2.
    rewrite E in H1. congruence.
Qed.

Lemma address_text_injective_witness :
  socket_address_to_str true (mk_SocketAddress sample_inet 0)
  <> socket_address_to_str true (mk_SocketAddress sample_inet6 0).
Proof.
  intros E.
  assert (Ha : well_formed_socket (mk_SocketAddress sample_inet 0)).
  { split; [split; [reflexivity|split; [|reflexivity]]|cbn; lia].
    repeat constructor; unfold byte_ok; lia. }
  assert (Hb : well_formed_socket (mk_SocketAddress sample_inet6 0)).
  { split; [split; [reflexivity|split; [|discriminate]]|cbn; lia].
    repeat constructor; unfold byte_ok; lia. }
  pose proof (proj2 (address_text_injective true _ _ Ha Hb) E) as H.
  discriminate H.
Defined.

(** X15.  Whatever text [socket_address_from_str] accepts, the address
    it stores is well formed and is the one its own printed form parses
    to: printing and parsing again changes nothing, also for texts
    that were not in the printed form (an embedded IPv4 tail, upper
    case, leading zeroes, a port above 65535).  [split_string] and
    [parse_long] are any functions that cut at the last delimiter and
    read decimal numbers. *)
Theorem socket_from_str_normal_form
    (split_string : string -> ascii -> option (string * string))
    (parse_long : string -> option Z) little_endian str out a :
  (forall h p delim,
     Helpers.bracket_depth 0 h = 0%nat ->
     all_chars (fun c => negb (Ascii.eqb c delim)) p = true ->
     split_string (h ++ String delim p)%string delim = Some (h, p)) ->
  (forall n, 0 <= n < 65536 -> parse_long (Libc.fmt_u n) = Some n) ->
  socket_address_from_str split_string parse_long little_endian str out
  = (STATUS_SUCCESS, a) ->
  well_formed_socket a
  /\ forall out',
       socket_address_from_str split_string parse_long little_endian
         (socket_address_to_str little_endian a) out'
       = (STATUS_SUCCESS, a).
Proof.
  intros Hsplit Hparse H.
  assert (Hwf : well_formed_socket a).
  { unfold socket_address_from_str in H.
    destruct (split_string str ":"%char) as [[host_str port_str]|];
      [|discriminate].
    destruct port_str as [|c port_str]; [discriminate|].
    destruct (parse_long (String c port_str)) as [n|]; [|discriminate].
    cbn [host zero_SocketAddress NetworkC.port] in H.
    destruct (host_address_from_str split_string host_str zero_HostAddress)
      as [[] h] eqn:Hh; [|discriminate].
    injection H as <-. split; cbn [host NetworkC.port].
    - exact (host_from_str_stores _ _ _ _ Hh).
    - unfold Libc.htons. destruct little_endian.
      + unfold Libc.bswap16.
        pose proof (Z.mod_pos_bound (n mod 65536) 256 ltac:(lia)).
        pose proof (Z.mod_pos_bound (n mod 65536 / 256) 256 ltac:(lia)). lia.
      + apply Z.mod_pos_bound. lia. }
  split; [exact Hwf|]. intros out'.
  apply socket_roundtrip_any; assumption.
Qed.

Lemma socket_from_str_normal_form_witness :
  socket_address_from_str Helpers.split_string Helpers.parse_long true
    "[::FFFF:10.0.0.1]:0080" zero_SocketAddress
  = (STATUS_SUCCESS,
     mk_SocketAddress
       (mk_HostAddress NETWORK_INET6
          [0; 0; 0; 0; 0; 0; 0; 0; 0; 0; 255; 255; 10; 0; 0; 1])
       (Libc.htons true 80))
  /\ socket_address_from_str Helpers.split_string Helpers.parse_long true
       "[::ffff:a00:1]:80" zero_SocketAddress
     = (STATUS_SUCCESS,
        mk_SocketAddress
          (mk_HostAddress NETWORK_INET6
             [0; 0; 0; 0; 0; 0; 0; 0; 0; 0; 255; 255; 10; 0; 0; 1])
          (Libc.htons true 80)).
Proof.
  split; [reflexivity|].
  apply (socket_from_str_normal_form Helpers.split_string Helpers.parse_long
           true "[::FFFF:10.0.0.1]:0080" zero_SocketAddress
           (mk_SocketAddress
              (mk_HostAddress NETWORK_INET6
                 [0; 0; 0; 0; 0; 0; 0; 0; 0; 0; 255; 255; 10; 0; 0; 1])
              (Libc.htons true 80))
           NetworkFacts.helpers_split_string_last
           NetworkFacts.helpers_parse_long_decimal eq_refl).
Defined.

End NetworkMore.

(** ** Socket handles *)

Module SocketFacts.
Import NetworkC SocketC SocketSpec.
Local Open Scope sys_scope.

Section Runs.

Variable os : list Event -> Syscall -> Answer.
Variable strerror : Z -> string.

Lemma bind_syscall {B} c (k : Answer -> W B) w :
  bind (syscall os c) k w
  = k (os (trace w) c)
      (mk_World
         (trace w ++ [mk_Event c (a_ret (os (trace w) c))
                        (a_errno (os (trace w) c))])
         (a_errno (os (trace w) c))).
Proof. reflexivity. Qed.

Lemma bind_nv_error {B} (k : Z -> W B) w : bind nv_error k w = k (errno w) w.
Proof. reflexivity. Qed.

Lemma bind_run {A B} (m : W A) (k : A -> W B) w :
  bind m k w = k (fst (m w)) (snd (m w)).
Proof. unfold bind. destruct (m w). reflexivity. Qed.

Lemma open_after_app l1 :
  forall l2 open, open_after (l1 ++ l2) open = open_after l2 (open_after l1 open).
Proof.
  induction l1 as [|ev l1 IH]; intros l2 open; [reflexivity|].
  cbn [app open_after]. destruct (call ev); apply IH.
Qed.

Lemma remove_only fd : remove Z.eq_dec fd [fd] = [].
Proof. simpl. destruct (Z.eq_dec fd fd); [reflexivity|contradiction]. Qed.

(** What [create_socket] does in each of its four ways out. *)
Lemma create_socket_cases ty ip port fd_out w :
  exists evs r w',
    create_socket os strerror ty ip port fd_out w = (r, w')
    /\ trace w' = trace w ++ evs
    /\ match r with
       | (None, fd) => open_after evs [] = [fd] /\ 0 <= fd
       | (Some e, fd) =>
           open_after evs [] = [] /\ fd = fd_out
           /\ exists pre ev,
                evs = pre ++ [ev]
                /\ error_type e = errno_to_error_type (left_errno ev) 0
                /\ match call ev with
                   | sys_socket _ => pre = []
                   | sys_close _ => pre <> []
                   | _ => False
                   end
       end.
Proof.
  unfold create_socket. rewrite bind_syscall.
  set (a1 := os (trace w) _).
  destruct (Z.ltb_spec (a_ret a1) 0) as [H1|H1].
  - rewrite bind_nv_error. unfold ret. cbn [errno].
    eexists. eexists. eexists. split; [reflexivity|]. cbn [trace].
    split; [reflexivity|]. cbn [open_after call result].
    destruct (Z.ltb_spec (a_ret a1) 0); [|lia].
    split; [reflexivity|]. split; [reflexivity|].
    exists []. eexists. split; [reflexivity|]. split; reflexivity.
  - rewrite bind_syscall. cbn [trace].
    set (a2 := os _ (sys_setsockopt_reuseaddr _)).
    destruct (Z.ltb_spec (a_ret a2) 0) as [H2|H2].
    + rewrite bind_syscall, bind_nv_error. unfold ret. cbn [errno trace].
      set (a3 := os _ (sys_close _)).
      eexists. eexists. eexists. split; [reflexivity|]. cbn [trace].
      split; [rewrite <- !app_assoc; reflexivity|].
      cbn [app open_after call result].
      destruct (Z.ltb_spec (a_ret a1) 0); [lia|]. cbn [app].
      rewrite remove_only.
      split; [reflexivity|]. split; [reflexivity|].
      eexists [_; _]. eexists. split; [reflexivity|].
      split; [reflexivity|]. cbn [call]. discriminate.
    + rewrite bind_syscall. cbn [trace].
      set (a3 := os _ (sys_bind _ _ _)).
      destruct (Z.ltb_spec (a_ret a3) 0) as [H3|H3].
      * rewrite bind_syscall, bind_nv_error. unfold ret. cbn [errno trace].
        set (a4 := os _ (sys_close _)).
        eexists. eexists. eexists. split; [reflexivity|]. cbn [trace].
        split; [rewrite <- !app_assoc; reflexivity|].
        cbn [app open_after call result].
        destruct (Z.ltb_spec (a_ret a1) 0); [lia|]. cbn [app].
        rewrite remove_only.
        split; [reflexivity|]. split; [reflexivity|].
        eexists [_; _; _]. eexists. split; [reflexivity|].
        split; [reflexivity|]. cbn [call]. discriminate.
      * unfold ret.
        eexists. eexists. eexists. split; [reflexivity|]. cbn [trace].
        split; [rewrite <- !app_assoc; reflexivity|].
        cbn [app open_after call result].
        destruct (Z.ltb_spec (a_ret a1) 0); [lia|]. cbn [app].
        split; [reflexivity|exact H1].
Qed.

(** X16.  [socket_handle_create_bound] accounts for the descriptor it
    opens: when it returns no error the descriptor [socket()] gave is
    left open and stored in the handle, and when it returns an error
    any descriptor it had opened has been closed and the handle is as
    it was. *)
Theorem create_bound_descriptors addr hd_out w :
  exists evs,
    trace (snd (socket_handle_create_bound os strerror addr hd_out w))
    = trace w ++ evs
    /\ match fst (socket_handle_create_bound os strerror addr hd_out w) with
       | (None, hd) => open_after evs [] = [fd hd] /\ 0 <= fd hd
       | (Some _, hd) => open_after evs [] = [] /\ hd = hd_out
       end.
Proof.
  unfold socket_handle_create_bound. rewrite bind_run.
  destruct (create_socket_cases (type (host addr)) (ip (host addr))
              (port addr) (fd hd_out) w) as (evs & r & w' & E & Ht & Hr).
  rewrite E. unfold ret. cbn [fst snd]. exists evs. split; [exact Ht|].
  destruct r as [[e|] fd']; cbn [fst snd fd].
  - destruct Hr as (Ho & -> & _). split; [exact Ho|].
    destruct hd_out; reflexivity.
  - exact Hr.
Qed.

(** X17.  [socket_handle_create_listener] does the same with the call
    of [listen()] added: a descriptor is left open exactly when the
    function returns no error, and it is the one stored through
    [hd_out]; on every error the descriptor has been closed and
    [*hd_out] is untouched. *)
Theorem create_listener_descriptors hd_uninit addr hd_out w :
  exists evs,
    trace (snd (socket_handle_create_listener os strerror hd_uninit addr
                  hd_out w))
    = trace w ++ evs
    /\ match fst (socket_handle_create_listener os strerror hd_uninit addr
                    hd_out w) with
       | (None, hd) => open_after evs [] = [fd hd] /\ 0 <= fd hd
       | (Some _, hd) => open_after evs [] = [] /\ hd = hd_out
       end.
Proof.
  unfold socket_handle_create_listener. rewrite bind_run.
  destruct (create_socket_cases (type (host addr)) (ip (host addr))
              (port addr) (fd hd_uninit) w) as (evs & r & w' & E & Ht & Hr).
  rewrite E. cbn [fst snd]. destruct r as [[e|] fd']; cbn [fst snd fd].
  - unfold ret. cbn [fst snd]. exists evs. split; [exact Ht|].
    split; [apply Hr|reflexivity].
  - destruct Hr as [Ho Hfd]. rewrite bind_syscall.
    set (a := os (trace w') _).
    destruct (Z.ltb_spec (a_ret a) 0) as [Hl|Hl].
    + rewrite bind_syscall, bind_nv_error. unfold ret. cbn [fst snd trace].
      eexists. split; [rewrite Ht, <- !app_assoc; reflexivity|].
      rewrite open_after_app, Ho. cbn [app open_after call].
      rewrite remove_only. split; reflexivity.
    + unfold ret. cbn [fst snd trace fd].
      eexists. split; [rewrite Ht, <- !app_assoc; reflexivity|].
      rewrite open_after_app, Ho. cbn [open_after call].
      split; [reflexivity|exact Hfd].
Qed.

(** X18.  The error [socket_handle_create_listener] returns is
    classified from [errno] as the last call it made left it.  That
    call is [socket()] only when [socket()] itself failed; after a
    failed [setsockopt()], [bind()] or [listen()] it is the [close()]
    of the descriptor, so what [close()] leaves in [errno] decides the
    type of the error. *)
Theorem create_error_follows_close hd_uninit addr hd_out w :
  match fst (fst (socket_handle_create_listener os strerror hd_uninit addr
                    hd_out w)) with
  | None => True
  | Some e =>
      exists pre ev,
        trace (snd (socket_handle_create_listener os strerror hd_uninit addr
                      hd_out w))
        = trace w ++ pre ++ [ev]
        /\ error_type e = errno_to_error_type (left_errno ev) 0
        /\ match call ev with
           | sys_socket _ => pre = []
           | sys_close _ => pre <> []
           | _ => False
           end
  end.
Proof.
  unfold socket_handle_create_listener. rewrite bind_run.
  destruct (create_socket_cases (type (host addr)) (ip (host addr))
              (port addr) (fd hd_uninit) w) as (evs & r & w' & E & Ht & Hr).
  rewrite E. cbn [fst snd]. destruct r as [[e|] fd']; cbn [fst snd fd].
  - unfold ret. cbn [fst snd].
    destruct Hr as (_ & _ & pre & ev & -> & Hty & Hcall).
    exists pre, ev. split; [exact Ht|]. split; assumption.
  - rewrite bind_syscall.
    set (a := os (trace w') _).
    destruct (Z.ltb_spec (a_ret a) 0) as [Hl|Hl].
    + rewrite bind_syscall, bind_nv_error. cbn [trace errno].
      set (c := os _ (sys_close fd')). unfold ret. cbn [fst snd trace].
      exists (evs ++ [mk_Event (sys_listen fd') (a_ret a) (a_errno a)]),
        (mk_Event (sys_close fd') (a_ret c) (a_errno c)).
      split; [rewrite Ht, <- !app_assoc; reflexivity|].
      split; [reflexivity|]. cbn [call]. destruct evs; discriminate.
    + unfold ret. cbn [fst snd]. exact I.
Qed.

(** X19.  [socket_handle_accept], [socket_handle_getsockname],
    [socket_handle_write] and [socket_handle_read] store through their
    output pointer only when they return no error; what [accept],
    [send] and [recv] then answered, which is what is stored, is not
    negative. *)
Theorem handles_keep_output_on_error hd hd_out addr_out bytes len out w :
  (forall r hd',
     fst (socket_handle_accept os strerror hd hd_out w) = (r, hd') ->
     match r with
     | Some _ => hd' = hd_out
     | None => 0 <= fd hd'
               /\ fd hd' = a_ret (os (trace w) (sys_accept (fd hd)))
     end)
  /\ (forall e a',
        fst (socket_handle_getsockname os strerror hd addr_out w)
        = (Some e, a') -> a' = addr_out)
  /\ (forall r out',
        fst (socket_handle_write os strerror hd bytes len out w) = (r, out') ->
        match r with
        | Some _ => out' = out
        | None => 0 <= out'
                  /\ out' = a_ret (os (trace w) (sys_send (fd hd) bytes len))
        end)
  /\ (forall r out' buf,
        fst (socket_handle_read os strerror hd len out w) = (r, out', buf) ->
        match r with
        | Some _ => out' = out
        | None => 0 <= out'
                  /\ out' = a_ret (os (trace w) (sys_recv (fd hd) len))
        end).
Proof.
  split; [|split; [|split]].
  - intros r hd'. unfold socket_handle_accept. rewrite bind_syscall.
    destruct (Z.ltb_spec (a_ret (os (trace w) (sys_accept (fd hd)))) 0).
    + rewrite bind_nv_error. unfold ret. cbn [fst]. intros [= <- <-].
      reflexivity.
    + unfold ret. cbn [fst]. intros [= <- <-]. cbn [fd]. split; [assumption|reflexivity].
  - intros e a'. unfold socket_handle_getsockname. rewrite bind_syscall.
    destruct (a_ret (os (trace w) (sys_getsockname (fd hd))) <? 0).
    + rewrite bind_nv_error. unfold ret. cbn [fst]. intros [= _ <-].
      reflexivity.
    + destruct (InterfaceC.sa_family _ =? Libc.AF_INET);
        [unfold ret; cbn [fst]; discriminate|].
      destruct (InterfaceC.sa_family _ =? Libc.AF_INET6);
        unfold ret; cbn [fst]; [discriminate|].
      intros [= _ <-]. reflexivity.
  - intros r out'. unfold socket_handle_write. rewrite bind_syscall.
    destruct (Z.ltb_spec (a_ret (os (trace w) (sys_send (fd hd) bytes len))) 0).
    + rewrite bind_nv_error. unfold ret. cbn [fst]. intros [= <- <-].
      reflexivity.
    + unfold ret. cbn [fst]. intros [= <- <-]. split; [assumption|reflexivity].
  - intros r out' buf. unfold socket_handle_read. rewrite bind_syscall.
    destruct (Z.ltb_spec (a_ret (os (trace w) (sys_recv (fd hd) len))) 0).
    + rewrite bind_nv_error. unfold ret. cbn [fst]. intros [= <- <- _].
      reflexivity.
    + unfold ret. cbn [fst]. intros [= <- <- _]. split; [assumption|reflexivity].
Qed.

Lemma O_NONBLOCK_bit i :
  Z.testbit O_NONBLOCK i = (i =? 11).
Proof.
  change O_NONBLOCK with (2 ^ 11).
  destruct (Z.eqb_spec i 11) as [->|Hne].
  - apply Z.pow2_bits_true. lia.
  - destruct (Z.ltb_spec i 0); [apply Z.testbit_neg_r; assumption|].
    apply Z.pow2_bits_false. lia.
Qed.

(** X20.  [socket_handle_set_blocking] never calls [F_SETFL] when
    [F_GETFL] failed.  Otherwise the flags it sets are the flags it
    read with one bit changed: [O_NONBLOCK] is set exactly when [val]
    is 0, every other flag is passed on as it was, and the function
    returns no error exactly when [F_SETFL] answers 0. *)
Theorem set_blocking_flags hd val w :
  let got := os (trace w) (sys_fcntl_getfl (fd hd)) in
  let getfl := mk_Event (sys_fcntl_getfl (fd hd)) (a_ret got) (a_errno got) in
  if a_ret got <? 0 then
    trace (snd (socket_handle_set_blocking os strerror hd val w))
    = trace w ++ [getfl]
    /\ fst (socket_handle_set_blocking os strerror hd val w) <> None
  else
    exists flags' ev,
      trace (snd (socket_handle_set_blocking os strerror hd val w))
      = trace w ++ [getfl; ev]
      /\ call ev = sys_fcntl_setfl (fd hd) flags'
      /\ Z.testbit flags' 11 = (val =? 0)
      /\ (forall i, i <> 11 -> Z.testbit flags' i = Z.testbit (a_ret got) i)
      /\ 0 <= flags'
      /\ (fst (socket_handle_set_blocking os strerror hd val w) = None
          <-> result ev = 0).
Proof.
  cbv zeta. unfold socket_handle_set_blocking. rewrite bind_syscall.
  set (got := os (trace w) (sys_fcntl_getfl (fd hd))).
  destruct (Z.ltb_spec (a_ret got) 0) as [Hg|Hg].
  - rewrite bind_nv_error. unfold ret. cbn [fst snd trace].
    split; [reflexivity|discriminate].
  - rewrite bind_syscall. cbn [trace].
    set (flags' := if negb (val =? 0) then Z.land (a_ret got) (Z.lnot O_NONBLOCK)
                   else Z.lor (a_ret got) O_NONBLOCK).
    set (a := os _ (sys_fcntl_setfl (fd hd) flags')).
    exists flags', (mk_Event (sys_fcntl_setfl (fd hd) flags') (a_ret a) (a_errno a)).
    assert (Htrace : forall r w1,
               trace (snd (r : option Error,
                           mk_World ((trace w ++ [mk_Event (sys_fcntl_getfl (fd hd))
                                                    (a_ret got) (a_errno got)])
                                     ++ [mk_Event (sys_fcntl_setfl (fd hd) flags')
                                           (a_ret a) (a_errno a)]) w1))
               = trace w ++ [mk_Event (sys_fcntl_getfl (fd hd)) (a_ret got)
                               (a_errno got);
                             mk_Event (sys_fcntl_setfl (fd hd) flags') (a_ret a)
                               (a_errno a)]).
    { intros r w1. cbn [snd trace]. rewrite <- app_assoc. reflexivity. }
    assert (Hbit : Z.testbit flags' 11 = (val =? 0)).
    { unfold flags'. destruct (val =? 0); cbn [negb].
      - rewrite Z.lor_spec, O_NONBLOCK_bit. apply orb_true_r.
      - rewrite Z.land_spec, Z.lnot_spec, O_NONBLOCK_bit by lia.
        apply andb_false_r. }
    assert (Hrest : forall i, i <> 11 ->
                      Z.testbit flags' i = Z.testbit (a_ret got) i).
    { intros i Hi. unfold flags'.
      destruct (Z.ltb_spec i 0) as [Hneg|Hpos];
        [rewrite !Z.testbit_neg_r by assumption; reflexivity|].
      destruct (val =? 0); cbn [negb].
      - rewrite Z.lor_spec, O_NONBLOCK_bit.
        destruct (Z.eqb_spec i 11); [contradiction|apply orb_false_r].
      - rewrite Z.land_spec, Z.lnot_spec, O_NONBLOCK_bit by assumption.
        destruct (Z.eqb_spec i 11); [contradiction|apply andb_true_r]. }
    assert (Hnn : 0 <= flags').
    { unfold flags'. destruct (val =? 0); cbn [negb].
      - apply Z.lor_nonneg. split; [exact Hg|unfold O_NONBLOCK; lia].
      - apply Z.land_nonneg. left. exact Hg. }
    destruct (Z.eqb_spec (a_ret a) 0) as [Ha|Ha]; cbn [negb].
    + unfold ret. split; [apply Htrace|]. split; [reflexivity|].
      split; [exact Hbit|]. split; [exact Hrest|]. split; [exact Hnn|].
      cbn [fst result]. split; [intros _; exact Ha|reflexivity].
    + rewrite bind_nv_error. unfold ret. split; [apply Htrace|].
      split; [reflexivity|].
      split; [exact Hbit|]. split; [exact Hrest|]. split; [exact Hnn|].
      cbn [fst result]. split; [discriminate|intros H; contradiction].
Qed.

(** X21.  When [getsockname()] answers the native address that
    [native_address_create] builds for [a], [socket_handle_getsockname]
    gives an address of the same family and port that prints as [a]
    does.  For IPv6 it is [a] itself; for IPv4 only the four octets are
    stored, and the twelve bytes after them stay as they were in
    [*addr_out]. *)
Theorem getsockname_reads_native hd a addr_out w :
  0 <= a_ret (os (trace w) (sys_getsockname (fd hd))) ->
  a_addr (os (trace w) (sys_getsockname (fd hd)))
  = data (native_address_create (type (host a)) (ip (host a)) (port a)) ->
  length (ip (host a)) = 16%nat -> length (ip (host addr_out)) = 16%nat ->
  exists a',
    fst (socket_handle_getsockname os strerror hd addr_out w) = (None, a')
    /\ type (host a') = type (host a) /\ port a' = port a
    /\ (forall little_endian,
          socket_address_to_str little_endian a'
          = socket_address_to_str little_endian a)
    /\ match type (host a) with
       | NETWORK_INET =>
           ip (host a') = firstn 4 (ip (host a)) ++ skipn 4 (ip (host addr_out))
       | NETWORK_INET6 => a' = a
       end.
Proof.
  intros Hret Haddr Hla Hlo. unfold socket_handle_getsockname.
  rewrite bind_syscall.
  destruct (Z.ltb_spec (a_ret (os (trace w) (sys_getsockname (fd hd)))) 0);
    [lia|].
  rewrite Haddr. destruct a as [[ty bytes] prt]. cbn [host type ip port] in *.
  destruct ty; cbn [native_address_create data InterfaceC.sa_family
                    InterfaceC.sa_data InterfaceC.sa_port].
  - rewrite Z.eqb_refl. unfold ret. cbn [fst].
    eexists. split; [reflexivity|]. cbn [host type ip port].
    do 4 (destruct bytes as [|? bytes]; [discriminate|]).
    split; [reflexivity|]. split; [reflexivity|]. split; [|reflexivity].
    intros little_endian. reflexivity.
  - change (Libc.AF_INET6 =? Libc.AF_INET) with false. rewrite Z.eqb_refl.
    cbv iota. unfold ret. cbn [fst].
    assert (Hb : store_bytes (firstn 16 (firstn 16 bytes)) (ip (host addr_out))
                 = bytes).
    { unfold store_bytes. rewrite (firstn_all2 bytes) by lia.
      rewrite (firstn_all2 bytes) by lia.
      rewrite skipn_all2 by lia. apply app_nil_r. }
    rewrite Hb. eexists. split; [reflexivity|]. cbn [host type ip port].
    repeat split; reflexivity.
Qed.

(** X22.  Only [socket_handle_close] and the failure paths of the
    two creating functions close a descriptor.  [socket_handle_close]
    makes the one call [close()] on the descriptor of its handle;
    [socket_handle_connect], [socket_handle_get_status],
    [socket_handle_getsockname], [socket_handle_set_blocking],
    [socket_handle_write] and [socket_handle_read] neither close nor
    open any descriptor, whether they succeed or fail. *)
Theorem handles_stay_open hd addr addr_out val bytes len out w :
  trace (snd (socket_handle_close os hd w))
  = trace w ++ [mk_Event (sys_close (fd hd))
                  (a_ret (os (trace w) (sys_close (fd hd))))
                  (a_errno (os (trace w) (sys_close (fd hd))))]
  /\ (exists evs,
        trace (snd (socket_handle_connect os strerror hd addr w))
        = trace w ++ evs /\ keeps_descriptors evs = true)
  /\ (exists evs,
        trace (snd (socket_handle_get_status os strerror hd w))
        = trace w ++ evs /\ keeps_descriptors evs = true)
  /\ (exists evs,
        trace (snd (socket_handle_getsockname os strerror hd addr_out w))
        = trace w ++ evs /\ keeps_descriptors evs = true)
  /\ (exists evs,
        trace (snd (socket_handle_set_blocking os strerror hd val w))
        = trace w ++ evs /\ keeps_descriptors evs = true)
  /\ (exists evs,
        trace (snd (socket_handle_write os strerror hd bytes len out w))
        = trace w ++ evs /\ keeps_descriptors evs = true)
  /\ (exists evs,
        trace (snd (socket_handle_read os strerror hd len out w))
        = trace w ++ evs /\ keeps_descriptors evs = true).
Proof.
  split; [reflexivity|].
  split.
  { unfold socket_handle_connect. rewrite bind_syscall.
    destruct (a_ret _ <? 0); [rewrite bind_nv_error|]; unfold ret;
      cbn [snd trace]; eexists; (split; [reflexivity|reflexivity]). }
  split.
  { unfold socket_handle_get_status. rewrite bind_syscall.
    destruct (a_ret _ <? 0); [|destruct (a_value _ =? 0)]; unfold ret;
      cbn [snd trace]; eexists; (split; [reflexivity|reflexivity]). }
  split.
  { unfold socket_handle_getsockname. rewrite bind_syscall.
    destruct (a_ret _ <? 0);
      [rewrite bind_nv_error
      |destruct (InterfaceC.sa_family _ =? Libc.AF_INET);
       [|destruct (InterfaceC.sa_family _ =? Libc.AF_INET6)]];
      unfold ret; cbn [snd trace]; eexists;
      (split; [reflexivity|reflexivity]). }
  split.
  { unfold socket_handle_set_blocking. rewrite bind_syscall.
    destruct (a_ret _ <? 0).
    - rewrite bind_nv_error. unfold ret. cbn [snd trace]. eexists.
      split; reflexivity.
    - rewrite bind_syscall.
      destruct (negb (a_ret _ =? 0)); [rewrite bind_nv_error|];
        unfold ret; cbn [snd trace]; eexists;
        (split; [rewrite <- app_assoc; reflexivity|reflexivity]). }
  split.
  { unfold socket_handle_write. rewrite bind_syscall.
    destruct (a_ret _ <? 0); [rewrite bind_nv_error|]; unfold ret;
      cbn [snd trace]; eexists; (split; [reflexivity|reflexivity]). }
  unfold socket_handle_read. rewrite bind_syscall.
  destruct (a_ret _ <? 0); [rewrite bind_nv_error|]; unfold ret;
    cbn [snd trace]; eexists; (split; [reflexivity|reflexivity]).
Qed.

End Runs.

Lemma getsockname_reads_native_witness :
  exists a',
    fst (socket_handle_getsockname all_succeed no_strerror (mk_SocketHandle 7)
           (mk_SocketAddress NetworkSpec.sample_inet6 0) start) = (None, a')
    /\ socket_address_to_str true a' = "192.0.2.1:36895"%string
    /\ ip (host a')
       = [192; 0; 2; 1; 0; 0; 0; 3; 0; 0; 0; 0; 0; 6; 0; 7].
Proof.
  destruct (getsockname_reads_native all_succeed no_strerror
              (mk_SocketHandle 7)
              (mk_SocketAddress
                 (mk_HostAddress NETWORK_INET ([192; 0; 2; 1] ++ repeat 0 12%nat))
                 8080)
              (mk_SocketAddress NetworkSpec.sample_inet6 0) start)
    as (a' & E & _ & _ & Htxt & Hip).
  - cbn. lia.
  - reflexivity.
  - reflexivity.
  - reflexivity.
  - exists a'. split; [exact E|]. split; [rewrite Htxt; reflexivity|exact Hip].
Defined.

(** X23.  [errno_to_error_type] does not look at its flags, and sorts
    every [errno] value into one type: "again" exactly for [EAGAIN]
    and [EINTR], "in progress" exactly for [EINPROGRESS], and so on
    for the values it names, "generic" for every other value.  It
    never answers "invalid address" or "unsupported backend
    feature". *)
Theorem errno_classification e flags :
  errno_to_error_type e flags = errno_to_error_type e 0
  /\ (errno_to_error_type e flags = socket_error_again
      <-> e = EAGAIN \/ e = EINTR)
  /\ (errno_to_error_type e flags = socket_error_invalid_socket
      <-> e = EBADF \/ e = ENOTSOCK)
  /\ (errno_to_error_type e flags = socket_error_in_progress
      <-> e = EINPROGRESS)
  /\ (errno_to_error_type e flags = socket_error_already <-> e = EALREADY)
  /\ (errno_to_error_type e flags = socket_error_timeout <-> e = ETIMEDOUT)
  /\ (errno_to_error_type e flags = socket_error_network_unreachable
      <-> e = ENETUNREACH)
  /\ (errno_to_error_type e flags = socket_error_host_unreachable
      <-> e = EHOSTUNREACH)
  /\ (errno_to_error_type e flags = socket_error_connection_refused
      <-> e = ECONNREFUSED)
  /\ (errno_to_error_type e flags = socket_error_generic
      <-> ~ In e [EAGAIN; EINTR; EBADF; ENOTSOCK; EINPROGRESS; EALREADY;
                  ETIMEDOUT; ENETUNREACH; EHOSTUNREACH; ECONNREFUSED])
  /\ errno_to_error_type e flags <> socket_error_invalid_address
  /\ errno_to_error_type e flags <> socket_error_unsupported_backend_feature.
Proof.
  unfold errno_to_error_type, IO_TEMP_ERROR.
  unfold EAGAIN, EINTR, EBADF, ENOTSOCK, EINPROGRESS, EALREADY, ETIMEDOUT,
    ENETUNREACH, EHOSTUNREACH, ECONNREFUSED.
  cbn [In].
  destruct (Z.eqb_spec e 11); [subst; cbn; repeat split; try (intros; lia || discriminate || tauto || (intros; intuition congruence)) |].
  destruct (Z.eqb_spec e 4); [subst; cbn; repeat split; try (intros; lia || discriminate || tauto || (intros; intuition congruence)) |].
  destruct (Z.eqb_spec e 9); [subst; cbn; repeat split; try (intros; lia || discriminate || tauto || (intros; intuition congruence)) |].
  destruct (Z.eqb_spec e 88); [subst; cbn; repeat split; try (intros; lia || discriminate || tauto || (intros; intuition congruence)) |].
  destruct (Z.eqb_spec e 115); [subst; cbn; repeat split; try (intros; lia || discriminate || tauto || (intros; intuition congruence)) |].
  destruct (Z.eqb_spec e 114); [subst; cbn; repeat split; try (intros; lia || discriminate || tauto || (intros; intuition congruence)) |].
  destruct (Z.eqb_spec e 110); [subst; cbn; repeat split; try (intros; lia || discriminate || tauto || (intros; intuition congruence)) |].
  destruct (Z.eqb_spec e 101); [subst; cbn; repeat split; try (intros; lia || discriminate || tauto || (intros; intuition congruence)) |].
  destruct (Z.eqb_spec e 113); [subst; cbn; repeat split; try (intros; lia || discriminate || tauto || (intros; intuition congruence)) |].
  destruct (Z.eqb_spec e 111); [subst; cbn; repeat split; try (intros; lia || discriminate || tauto || (intros; intuition congruence)) |].
  cbn. repeat split; try (intros; lia || discriminate || tauto || (intros; intuition congruence)).
Qed.

(** The model at work.  A listener whose [bind()] fails because the
    address is in use, followed by a [close()] that is interrupted: the
    error comes back with the type "again".  Then a listener that
    succeeds, and a handle made non-blocking. *)
Example listener_bind_fails :
  socket_handle_create_listener bind_fails no_strerror (mk_SocketHandle 0)
    (mk_SocketAddress NetworkSpec.sample_inet 0) (mk_SocketHandle (-1)) start
  = (Some (mk_Error socket_error_again "bind(fd = 5) failed: "),
     mk_SocketHandle (-1),
     mk_World
       [mk_Event (sys_socket 2) 5 0;
        mk_Event (sys_setsockopt_reuseaddr 5) 0 0;
        mk_Event (sys_bind 5 (InterfaceC.mk_sockaddr 2 0 [127; 0; 0; 1]) 16)
          (-1) 98;
        mk_Event (sys_close 5) (-1) 4] 4).
Proof. reflexivity. Qed.

Example listener_succeeds :
  socket_handle_create_listener all_succeed no_strerror (mk_SocketHandle 0)
    (mk_SocketAddress NetworkSpec.sample_inet 0) (mk_SocketHandle (-1)) start
  = (None, mk_SocketHandle 7,
     mk_World
       [mk_Event (sys_socket 2) 7 0;
        mk_Event (sys_setsockopt_reuseaddr 7) 0 0;
        mk_Event (sys_bind 7 (InterfaceC.mk_sockaddr 2 0 [127; 0; 0; 1]) 16) 0 0;
        mk_Event (sys_listen 7) 0 0] 0).
Proof. reflexivity. Qed.

Example set_blocking_off :
  socket_handle_set_blocking all_succeed no_strerror (mk_SocketHandle 7) 0 start
  = (None,
     mk_World
       [mk_Event (sys_fcntl_getfl 7) 2 0;
        mk_Event (sys_fcntl_setfl 7 2050) 0 0] 0).
Proof. reflexivity. Qed.

End SocketFacts.
